(** * oas-indexer: fragment aggregation, reference rewriting and rule engine

    A shallow embedding of [cmd/oas-indexer/main.go].  Go strings are byte
    strings and are modelled by [string]; the functions of Go's [strings] and
    [path/filepath] packages that the program calls are modelled here under
    their Go names, for a Unix target (separator [/], no volume names).

    Case conversion and white space follow Go on ASCII input; bytes above
    0x7F are treated as caseless and non-blank (Go consults the Unicode
    tables there). *)

From Stdlib Require Import Ascii String List Bool Arith Lia.
From stdpp Require Import base option list sorting gmap strings.

Import ListNotations.

#[local] Set Warnings "-register-all".

(** ** Package [strings] *)

Module strings.

(** [s[n:]] *)
Fixpoint drop (n : nat) (s : string) : string :=
  match n, s with
  | O, _ => s
  | S _, "" => ""
  | S n', String _ s' => drop n' s'
  end.

(** [s[:n]] *)
Fixpoint take (n : nat) (s : string) : string :=
  match n, s with
  | O, _ => ""
  | S _, "" => ""
  | S n', String c s' => String c (take n' s')
  end.

Fixpoint HasPrefix (s pre : string) {struct pre} : bool :=
  match pre, s with
  | "", _ => true
  | String _ _, "" => false
  | String a pre', String b s' => Ascii.eqb a b && HasPrefix s' pre'
  end.

(** [len(s) >= len(suffix) && s[len(s)-len(suffix):] == suffix] *)
Definition HasSuffix (s suf : string) : bool :=
  (String.length suf <=? String.length s)
  && String.eqb (drop (String.length s - String.length suf) s) suf.

Definition TrimSuffix (s suf : string) : string :=
  if HasSuffix s suf then take (String.length s - String.length suf) s else s.

(** Position of the first occurrence of [sub] in [s]; [None] stands for
    Go's [-1]. *)
Fixpoint Index (s sub : string) : option nat :=
  if HasPrefix s sub then Some 0
  else match s with
       | "" => None
       | String _ s' => S <$> Index s' sub
       end.

(** [strings.Split(s, sep)] for a one-byte separator. *)
Fixpoint Split (s : string) (sep : ascii) : list string :=
  match s with
  | "" => [""]
  | String c s' =>
      if Ascii.eqb c sep then "" :: Split s' sep
      else match Split s' sep with
           | h :: t => String c h :: t
           | [] => [String c ""]
           end
  end.

Fixpoint Join (elems : list string) (sep : string) : string :=
  match elems with
  | [] => ""
  | [x] => x
  | x :: rest => x +:+ sep +:+ Join rest sep
  end.

Definition isSpace (c : ascii) : bool :=
  match c with
  | "009" | "010" | "011" | "012" | "013" | " " => true
  | _ => false
  end%char.

Fixpoint TrimLeftFunc (f : ascii -> bool) (s : string) : string :=
  match s with
  | "" => ""
  | String c s' => if f c then TrimLeftFunc f s' else s
  end.

Fixpoint TrimRightFunc (f : ascii -> bool) (s : string) : string :=
  match s with
  | "" => ""
  | String c s' =>
      match TrimRightFunc f s' with
      | "" => if f c then "" else String c ""
      | t => String c t
      end
  end.

Definition TrimSpace (s : string) : string :=
  TrimRightFunc isSpace (TrimLeftFunc isSpace s).

(** [strings.Trim(s, cutset)] and [strings.TrimRight(s, cutset)] for a
    one-byte cutset. *)
Definition Trim (s : string) (cut : ascii) : string :=
  TrimRightFunc (Ascii.eqb cut) (TrimLeftFunc (Ascii.eqb cut) s).

Definition TrimRight (s : string) (cut : ascii) : string :=
  TrimRightFunc (Ascii.eqb cut) s.

Definition isUpper (c : ascii) : bool :=
  (65 <=? nat_of_ascii c) && (nat_of_ascii c <=? 90).

Definition isLower (c : ascii) : bool :=
  (97 <=? nat_of_ascii c) && (nat_of_ascii c <=? 122).

Definition isDigit (c : ascii) : bool :=
  (48 <=? nat_of_ascii c) && (nat_of_ascii c <=? 57).

Definition toLowerByte (c : ascii) : ascii :=
  if isUpper c then ascii_of_nat (nat_of_ascii c + 32) else c.

Definition toUpperByte (c : ascii) : ascii :=
  if isLower c then ascii_of_nat (nat_of_ascii c - 32) else c.

Fixpoint mapBytes (f : ascii -> ascii) (s : string) : string :=
  match s with
  | "" => ""
  | String c s' => String (f c) (mapBytes f s')
  end.

Definition ToLower : string -> string := mapBytes toLowerByte.
Definition ToUpper : string -> string := mapBytes toUpperByte.

Fixpoint Repeat (s : string) (count : nat) : string :=
  match count with
  | O => ""
  | S n => s +:+ Repeat s n
  end.

End strings.

(** ** Package [path/filepath] (Unix) *)

Module filepath.

Definition rooted (p : string) : bool := strings.HasPrefix p "/".

(** One step of [Clean] on the elements kept so far (innermost last). *)
Definition cleanStep (isRooted : bool) (kept : list string) (elem : string)
  : list string :=
  if String.eqb elem "" || String.eqb elem "." then kept
  else if String.eqb elem ".." then
    match rev kept with
    | [] => if isRooted then kept else [".."]
    | top :: _ =>
        if String.eqb top ".." then kept ++ [".."] else removelast kept
    end
  else kept ++ [elem].

(** [filepath.Clean]: empty and [.] elements are dropped, an inner [..]
    removes the element before it, [..] at the start of a rooted path is
    dropped, and the empty result is [.]. *)
Definition Clean (p : string) : string :=
  let kept := fold_left (cleanStep (rooted p)) (strings.Split p "/") [] in
  let out := (if rooted p then "/" else "") +:+ strings.Join kept "/" in
  if String.eqb out "" then "." else out.

(** The elements that [Rel] walks over in a cleaned path. *)
Definition elements (p : string) : list string :=
  if String.eqb p "" then []
  else if String.eqb p "/" then [""]
  else strings.Split p "/".

Fixpoint dropCommon (bs ts : list string) : list string * list string :=
  match bs, ts with
  | b :: bs', t :: ts' =>
      if String.eqb b t then dropCommon bs' ts' else (bs, ts)
  | _, _ => (bs, ts)
  end.

(** [filepath.Rel]; [None] is the error return. *)
Definition Rel (basepath targpath : string) : option string :=
  let base := Clean basepath in
  let targ := Clean targpath in
  if String.eqb targ base then Some "."
  else
    let base := if String.eqb base "." then "" else base in
    if negb (Bool.eqb (rooted base) (rooted targ)) then None
    else
      let '(bs, ts) := dropCommon (elements base) (elements targ) in
      match bs with
      | [] => Some (strings.Join ts "/")
      | b :: _ =>
          if String.eqb b ".." then None
          else Some (strings.Join (map (fun _ => "..") bs ++ ts) "/")
      end.

Definition ToSlash (p : string) : string := p.

Definition IsAbs (p : string) : bool := rooted p.

(** [filepath.Join] of two elements. *)
Definition Join (a b : string) : string :=
  if String.eqb a "" then (if String.eqb b "" then "" else Clean b)
  else if String.eqb b "" then Clean a
  else Clean (a +:+ "/" +:+ b).

(** [filepath.Base]. *)
Definition Base (p : string) : string :=
  if String.eqb p "" then "."
  else
    let q := strings.TrimRight p "/" in
    if String.eqb q "" then "/"
    else List.last (strings.Split q "/") "".

(** [filepath.Dir]: the cleaned prefix up to the last separator. *)
Definition Dir (p : string) : string :=
  let elems := strings.Split p "/" in
  match removelast elems with
  | [] => Clean ""
  | front => Clean (strings.Join front "/" +:+ "/")
  end.

End filepath.

(** ** String helpers of the program *)

(** The UTF-8 encoding of a code point below U+0800: one byte below 128,
    two bytes from there on. *)
Definition encodeRune (n : nat) : string :=
  if n <? 128 then String (ascii_of_nat n) ""
  else String (ascii_of_nat (192 + n / 64)) (String (ascii_of_nat (128 + n mod 64)) "").

(** [string(c)] for a byte [c]: Go converts an integer to the UTF-8
    encoding of the code point of that number, so a byte from 128 on
    becomes two bytes. *)
Definition byteString (c : ascii) : string := encodeRune (nat_of_ascii c).

(** [unicode.ToUpper] on the code points below U+0100: the letters a to z,
    U+00E0 to U+00FE (but the division sign U+00F7) move down by 32, the
    micro sign U+00B5 goes to U+039C and U+00FF to U+0178. *)
Definition upperRune (n : nat) : nat :=
  if (97 <=? n) && (n <=? 122) then n - 32
  else if n =? 181 then 924
  else if (224 <=? n) && (n <=? 254) && negb (n =? 247) then n - 32
  else if n =? 255 then 376
  else n.

(** [strings.ToUpper(string(c))] for a byte [c]. *)
Definition upperOfByte (c : ascii) : string := encodeRune (upperRune (nat_of_ascii c)).

(** The encoding of U+FFFD, which [strings.Map] writes for a byte that is
    not valid UTF-8. *)
Definition runeError : string := String "239" (String "191" (String "189" "")).

(** [strings.ToUpper(s)] for a slice [s] of at most one byte, as
    [camel[:1]] is: a byte from 128 on is, alone, not valid UTF-8. *)
Definition upperOfFirst (s : string) : string :=
  match s with
  | String c "" => if nat_of_ascii c <? 128 then String (strings.toUpperByte c) "" else runeError
  | _ => strings.ToUpper s
  end.

(** The loop of [kebabToCamel], with its two variables [out] and [up]. *)
Fixpoint kebabLoop (s out : string) (up : bool) : string :=
  match s with
  | "" => out
  | String c s' =>
      if Ascii.eqb c "-"%char || Ascii.eqb c "_"%char || Ascii.eqb c " "%char
      then kebabLoop s' out true
      else if up
           then kebabLoop s' (out +:+ upperOfByte c) false
           else kebabLoop s' (out +:+ byteString c) up
  end.

Definition kebabToCamel (s : string) : string := kebabLoop s "" false.

Definition pascalCase (s : string) : string :=
  let camel := kebabToCamel s in
  if String.eqb camel "" then camel
  else upperOfFirst (strings.take 1 camel) +:+ strings.drop 1 camel.

Definition buildPathKey (pathsDir fullPath : string) : string :=
  match filepath.Rel pathsDir fullPath with
  | None => ""
  | Some rel =>
      let rel := filepath.ToSlash rel in
      let segs := strings.Split rel "/" in
      match segs with
      | [] => ""
      | _ =>
          let file := List.last segs "" in
          let segs := removelast segs in
          let nameNoExt := strings.TrimSuffix file ".yaml" in
          let tail := kebabToCamel nameNoExt in
          match segs with
          | [] => "/" +:+ tail
          | version :: rest =>
              let remainder :=
                match rest with
                | [] => ""
                | _ => strings.Join rest "/"
                end in
              if negb (String.eqb remainder "")
              then "/" +:+ version +:+ "/" +:+ remainder +:+ "/" +:+ tail
              else "/" +:+ version +:+ "/" +:+ tail
          end
      end
  end.

(** ** Errors and the file system *)

(** Go [error] values: an error of the operating system, a message
    ([errors.New], [fmt.Errorf]) and a message wrapping a cause ([%w]). *)
Inductive error : Type :=
| errOS (op path : string)
| errNew (msg : string)
| errWrap (msg : string) (cause : error).

(** A file system as the tree below [/].  [FOther] stands for anything that
    is neither a regular file nor a directory (symbolic link, device, pipe);
    [FDirUnreadable] is a directory whose listing fails.  A directory holds
    its entries in the order in which the walk comes to them.  [os.ReadDir]
    hands them over sorted by file name; a tree whose entries stand in
    another order is the same directory walked in another order. *)
Inductive fsnode : Type :=
| FRegular (content : string)
| FOther
| FDir (entries : list (string * fsnode))
| FDirUnreadable.

Definition IsDir (d : fsnode) : bool :=
  match d with FDir _ | FDirUnreadable => true | _ => false end.

Definition IsRegular (d : fsnode) : bool :=
  match d with FRegular _ => true | _ => false end.

Fixpoint lookupElems (d : fsnode) (elems : list string) : option fsnode :=
  match elems with
  | [] => Some d
  | e :: rest =>
      match d with
      | FDir entries =>
          match List.find (fun en => String.eqb (fst en) e) entries with
          | Some en => lookupElems (snd en) rest
          | None => None
          end
      | _ => None
      end
  end.

(** Resolution of a path from the root of the tree (the paths of [Config]
    are absolute: [absJoin] makes them so). *)
Definition fsLookup (fs : fsnode) (path : string) : option fsnode :=
  lookupElems fs
    (List.filter (fun e => negb (String.eqb e ""))
       (strings.Split (filepath.Clean path) "/")).

(** [ioutil.ReadFile] *)
Definition ReadFile (fs : fsnode) (path : string) : error + string :=
  match fsLookup fs path with
  | Some (FRegular content) => inr content
  | _ => inl (errOS "read" path)
  end.

(** *** [filepath.WalkDir] *)

Inductive walkSignal : Type :=
| wsNil
| wsSkipDir
| wsErr (e : error).

Section WalkDir.
Context {St : Type}.
(** The callback: path, [d.Name()], [d.IsDir()], [d.Type().IsRegular()],
    the error handed in, and the state the closure captures. *)
Variable fn : string -> string -> bool -> bool -> option error -> St -> St * walkSignal.

Fixpoint walkDir (path name : string) (d : fsnode) (st : St) : St * walkSignal :=
  let '(st, sig) := fn path name (IsDir d) (IsRegular d) None st in
  match sig with
  | wsNil =>
      match d with
      | FDir entries =>
          (fix walkEntries (entries : list (string * fsnode)) (st : St)
             : St * walkSignal :=
             match entries with
             | [] => (st, wsNil)
             | (name1, d1) :: rest =>
                 let '(st, sig) := walkDir (filepath.Join path name1) name1 d1 st in
                 match sig with
                 | wsNil => walkEntries rest st
                 | wsSkipDir => (st, wsNil)
                 | wsErr e => (st, wsErr e)
                 end
             end) entries st
      | FDirUnreadable =>
          let '(st, sig) := fn path name true false (Some (errOS "open" path)) st in
          match sig with
          | wsErr e => (st, wsErr e)
          | _ => (st, wsNil)
          end
      | _ => (st, wsNil)
      end
  | wsSkipDir => (st, if IsDir d then wsNil else wsSkipDir)
  | wsErr e => (st, wsErr e)
  end.

(** The loop of [walkDir] over the entries of a directory, on its own. *)
Fixpoint walkEntries (path : string) (entries : list (string * fsnode)) (st : St)
  : St * walkSignal :=
  match entries with
  | [] => (st, wsNil)
  | (name1, d1) :: rest =>
      let '(st, sig) := walkDir (filepath.Join path name1) name1 d1 st in
      match sig with
      | wsNil => walkEntries path rest st
      | wsSkipDir => (st, wsNil)
      | wsErr e => (st, wsErr e)
      end
  end.

Definition WalkDir (fs : fsnode) (root : string) (st : St) : St * option error :=
  let '(st, sig) :=
    match fsLookup fs root with
    | None => fn root "" false false (Some (errOS "lstat" root)) st
    | Some d => walkDir root (filepath.Base root) d st
    end in
  (st, match sig with wsErr e => Some e | _ => None end).
End WalkDir.

(** ** Fragment store *)

(** The closure passed to [WalkDir] by [listYAMLFiles]; its state is the
    slice [files]. *)
Definition yamlWalkFn (root path name : string) (isDir isRegular : bool)
    (err : option error) (files : list string) : list string * walkSignal :=
  match err with
  | Some e => (files, wsErr e)
  | None =>
      if strings.HasPrefix name "." && (isDir && negb (String.eqb path root))
      then (files, wsSkipDir)
      else if isRegular && strings.HasSuffix (strings.ToLower name) ".yaml"
           then (files ++ [path], wsNil)
           else (files, wsNil)
  end.

Definition listYAMLFiles (fs : fsnode) (root : string) : list string * option error :=
  match fsLookup fs root with
  | Some d =>
      if IsDir d then WalkDir (yamlWalkFn root) fs root [] else ([], None)
  | None => ([], None)
  end.

Definition relFrom (baseDir target : string) : string :=
  match filepath.Rel baseDir target with
  | None => target
  | Some rel =>
      let rel := filepath.ToSlash rel in
      if String.eqb rel "" || String.eqb rel "." then "./"
      else if strings.HasPrefix rel "." || strings.HasPrefix rel "/" then rel
      else "./" +:+ rel
  end.

Definition exampleFS : fsnode :=
  FDir [("api", FDir [
    ("locked", FDir [("a.yaml", FRegular ""); ("sub", FDirUnreadable); ("z.yaml", FRegular "")]);
    ("paths", FDir [
       (".git", FDir [("config.yaml", FRegular "x")]);
       (".hidden.yaml", FRegular "get: {}");
       ("notes.txt", FRegular "n");
       ("v1", FDir [("Ping.YAML", FRegular "get: {}");
                    ("link.yaml", FOther);
                    ("old.yml", FRegular "get: {}");
                    ("users.yaml", FRegular "get: {}")])]);
    ("root.yaml", FRegular "")])].

(** ** Root composer *)

Record Config : Type := {
  RootPath : string;
  PathsDir : string;
  SchemasDir : string;
  ParamsDir : string;
  Join : bool;
}.

(** [sort.Strings]: ascending byte-wise order.  An ascending arrangement of
    strings is unique, so the sorting algorithm is immaterial. *)
Definition sortStrings (l : list string) : list string := merge_sort String.le l.

Definition LF : ascii := "010"%char.
Definition nl : string := String LF "".
Definition dquote : ascii := "034"%char.
Definition squote : ascii := "039"%char.

Definition Fprintln (w s : string) : string := w +:+ s +:+ nl.

Definition header (w : string) : string :=
  let w := Fprintln w ("openapi: " +:+ String dquote "3.0.0" +:+ String dquote "") in
  let w := Fprintln w "info:" in
  let w := Fprintln w "  title: API" in
  Fprintln w ("  version: " +:+ String dquote "1.0.0" +:+ String dquote "").

(** The body of [writeRootYAML] after the three listings succeeded: the
    text flushed to [cfg.RootPath]. *)
Definition composeRefs (cfg : Config) (paths schemas params : list string) : string :=
  let paths := sortStrings paths in
  let schemas := sortStrings schemas in
  let params := sortStrings params in
  let w := header "" in
  let w := Fprintln w "paths:" in
  let w :=
    fold_left (fun w p =>
      let key := buildPathKey (PathsDir cfg) p in
      if String.eqb key "" then w
      else
        let ref := relFrom (filepath.Dir (RootPath cfg)) p in
        let w := w +:+ "  " +:+ key +:+ ":" +:+ nl in
        w +:+ "    $ref: " +:+ ref +:+ nl) paths w in
  let w := Fprintln w "components:" in
  let component := fun w f =>
      let base := strings.TrimSuffix (filepath.Base f) ".yaml" in
      let name := pascalCase base in
      let ref := relFrom (filepath.Dir (RootPath cfg)) f in
      let w := w +:+ "    " +:+ name +:+ ":" +:+ nl in
      w +:+ "      $ref: " +:+ ref +:+ nl in
  let w := Fprintln w "  schemas:" in
  let w := fold_left component schemas w in
  let w := Fprintln w "  parameters:" in
  fold_left component params w.


Definition readText (fs : fsnode) (path : string) : error + string :=
  ReadFile fs path.

Definition indentText (s : string) (spaces : nat) : string :=
  let pad := strings.Repeat " " spaces in
  let lines := strings.Split s LF in
  let lines := map (fun ln => if String.eqb ln "" then ln else pad +:+ ln) lines in
  let out := strings.Join lines nl in
  let out := strings.TrimRight out LF in
  out +:+ nl.

(** ** Name resolver *)

Definition buildNameMap (fs : fsnode) (dir : string) : gmap string string :=
  let files := fst (listYAMLFiles fs dir) in
  fold_left (fun (m : gmap string string) f =>
    let base := strings.TrimSuffix (filepath.Base f) ".yaml" in
    let name := pascalCase base in
    let m := <[strings.ToLower base := name]> m in
    <[strings.ToLower (filepath.Base f) := name]> m) files ∅.

(** ** Reference rewriter *)

Fixpoint allBytes (f : ascii -> bool) (s : string) : bool :=
  match s with
  | "" => true
  | String c s' => f c && allBytes f s'
  end.

(** The class [[^/#\s]] of the two path patterns. *)
Definition isRefNameByte (c : ascii) : bool :=
  match c with
  | "/" | "#" | "009" | "010" | "012" | "013" | " " => false
  | _ => true
  end%char.

(** The suffix [\.ya?ml$], case-insensitive: the text before it. *)
Definition cutYamlExt (file : string) : option string :=
  if strings.HasSuffix (strings.ToLower file) ".yaml"
  then Some (strings.take (String.length file - 5) file)
  else if strings.HasSuffix (strings.ToLower file) ".yml"
       then Some (strings.take (String.length file - 4) file)
       else None.

(** One letter [c] of a pattern under [(?i)] against the start of [s]:
    what is left of [s], when the letter matches.  A letter matches itself
    in either case; [s] also matches U+017F (bytes 197 191) and [k] U+212A
    (bytes 226 132 170), the code points that fold with them. *)
Definition foldStep (c : ascii) (s : string) : option string :=
  match s with
  | String b s1 =>
      if Ascii.eqb (strings.toLowerByte b) c then Some s1
      else
        match s1 with
        | String b2 s2 =>
            if Ascii.eqb c "s" && Ascii.eqb b "197" && Ascii.eqb b2 "191" then Some s2
            else
              match s2 with
              | String b3 s3 =>
                  if Ascii.eqb c "k" && Ascii.eqb b "226" && Ascii.eqb b2 "132"
                     && Ascii.eqb b3 "170"
                  then Some s3 else None
              | "" => None
              end
        | "" => None
        end
  | "" => None
  end.

(** The text [s] is the word [pat] (lower-case letters) under [(?i)]. *)
Fixpoint foldMatch (pat s : string) : bool :=
  match pat with
  | "" => String.eqb s ""
  | String c pat' =>
      match foldStep c s with
      | Some rest => foldMatch pat' rest
      | None => false
      end
  end.

(** [FindStringSubmatch] for the pattern
    [(?i)(?:^|.*/)(?:components/)?<kind>/([^/#\s]+)\.ya?ml$]: the capture
    group, when the text matches.  The capture holds no [/], so the pattern
    matches exactly when the last element of the text is a non-empty name of
    the class followed by the extension and the element before it is [kind]
    under the case folding of the pattern. *)
Definition matchComponentPath (kind val : string) : option string :=
  match rev (strings.Split val "/") with
  | file :: dir :: _ =>
      if foldMatch kind dir then
        match cutYamlExt file with
        | Some cap =>
            if negb (String.eqb cap "") && allBytes isRefNameByte cap
            then Some cap else None
        | None => None
        end
      else None
  | _ => None
  end.

Definition reSchemaPath : string -> option string := matchComponentPath "schemas".
Definition reParamPath : string -> option string := matchComponentPath "parameters".

Definition stripQuotes (s : string) : string :=
  let s := strings.TrimSpace s in
  if 2 <=? String.length s then
    match String.get 0 s, String.get (String.length s - 1) s with
    | Some a, Some b =>
        if (Ascii.eqb a dquote && Ascii.eqb b dquote)
           || (Ascii.eqb a squote && Ascii.eqb b squote)
        then strings.take (String.length s - 2) (strings.drop 1 s)
        else s
    | _, _ => s
    end
  else s.

(** [m[k]] on a [map[string]string]: the empty string when [k] is absent. *)
Definition mapGet (m : gmap string string) (k : string) : string :=
  default "" (m !! k).

(** The body of the loop of [rewriteRefs] once the line [ln] is split at
    the marker into [left] and the trimmed [rest]: the new value of
    [lines[i]]. *)
Definition rewriteAt (schemaMap paramMap : gmap string string)
    (ln left rest : string) : string :=
  if String.eqb rest "" then ln
  else
    let val := stripQuotes rest in
    if strings.HasPrefix val "#/components/" then ln
    else
      let low := strings.ToLower val in
      if strings.HasPrefix low "schema:" then
        let base := strings.TrimSpace (strings.drop (String.length "schema:") val) in
        let name := pascalCase base in
        left +:+ "$ref: #/components/schemas/" +:+ name
      else if strings.HasPrefix low "param:" then
        let base := strings.TrimSpace (strings.drop (String.length "param:") val) in
        let name := pascalCase base in
        left +:+ "$ref: #/components/parameters/" +:+ name
      else
        match reSchemaPath val with
        | Some m1 =>
            let base := strings.ToLower m1 in
            let name := mapGet schemaMap base in
            let name := if String.eqb name "" then pascalCase m1 else name in
            left +:+ "$ref: #/components/schemas/" +:+ name
        | None =>
            match reParamPath val with
            | Some m1 =>
                let base := strings.ToLower m1 in
                let name := mapGet paramMap base in
                let name := if String.eqb name "" then pascalCase m1 else name in
                left +:+ "$ref: #/components/parameters/" +:+ name
            | None => ln
            end
        end.

Definition rewriteLine (schemaMap paramMap : gmap string string) (ln : string) : string :=
  match strings.Index ln "$ref:" with
  | None => ln
  | Some idx =>
      let left := strings.take idx ln in
      let rest := strings.TrimSpace (strings.drop (idx + String.length "$ref:") ln) in
      rewriteAt schemaMap paramMap ln left rest
  end.

(** The value of the reference on a line: what follows the marker, trimmed
    and unquoted. *)
Definition refValue (ln : string) : option string :=
  match strings.Index ln "$ref:" with
  | None => None
  | Some idx =>
      Some (stripQuotes (strings.TrimSpace (strings.drop (idx + String.length "$ref:") ln)))
  end.

(** A line whose reference is already an internal pointer. *)
Definition canonical (ln : string) : Prop :=
  exists val, refValue ln = Some val /\ strings.HasPrefix val "#/components/" = true.

Definition rewriteRefs (raw : string) (schemaMap paramMap : gmap string string) : string :=
  let lines := strings.Split raw LF in
  strings.Join (map (rewriteLine schemaMap paramMap) lines) nl.

(** A loop that stops at the first error. *)
Fixpoint foldErr {A} (f : string -> A -> error + string) (l : list A) (w : string)
  : error + string :=
  match l with
  | [] => inr w
  | x :: rest =>
      match f w x with
      | inl e => inl e
      | inr w => foldErr f rest w
      end
  end.

(** The body of [writeRootJoinedYAML] after the three listings succeeded.
    The name maps come from listings of their own: [buildNameMap] calls
    [listYAMLFiles] again. *)
Definition composeJoined (fs : fsnode) (cfg : Config)
    (paths schemas params : list string) : error + string :=
  let paths := sortStrings paths in
  let schemas := sortStrings schemas in
  let params := sortStrings params in
  let schemaMap := buildNameMap fs (SchemasDir cfg) in
  let paramMap := buildNameMap fs (ParamsDir cfg) in
  let w := header "" in
  let w := Fprintln w "paths:" in
  match
    foldErr (fun w p =>
      let key := buildPathKey (PathsDir cfg) p in
      if String.eqb key "" then inr w
      else
        let w := w +:+ "  " +:+ key +:+ ":" +:+ nl in
        match readText fs p with
        | inl e => inl e
        | inr content =>
            let content := rewriteRefs content schemaMap paramMap in
            inr (w +:+ indentText content 4)
        end) paths w
  with
  | inl e => inl e
  | inr w =>
      let component := fun w f =>
        let base := strings.TrimSuffix (filepath.Base f) ".yaml" in
        let name := pascalCase base in
        let w := w +:+ "    " +:+ name +:+ ":" +:+ nl in
        match readText fs f with
        | inl e => inl e
        | inr content =>
            let content := rewriteRefs content schemaMap paramMap in
            inr (w +:+ indentText content 6)
        end in
      let w := Fprintln w "components:" in
      let w := Fprintln w "  schemas:" in
      match foldErr component schemas w with
      | inl e => inl e
      | inr w =>
          let w := Fprintln w "  parameters:" in
          foldErr component params w
      end
  end.


(** ** Rule engine *)

(** A decoded YAML value as the engine sees it: a [map[string]interface{}]
    or anything else (scalar, sequence, null). *)
Inductive yvalue : Type :=
| YMap (fields : list (string * yvalue))
| YOther.

Abbreviation ymap := (list (string * yvalue)).

(** [v, exists := m[k]] *)
Definition ymapGet (m : ymap) (k : string) : option yvalue :=
  snd <$> List.find (fun kv => String.eqb (fst kv) k) m.

Module ValidationRule.
Record t : Type := {
  Name : string;
  Description : string;
  Validate : string -> string -> ymap -> option string;
}.
End ValidationRule.

Module ValidationPreset.
Record t : Type := {
  Name : string;
  Description : string;
  Rules : list ValidationRule.t;
}.
End ValidationPreset.

Record ValidationResult : Type := {
  Path : string;
  Method : string;
  Rule : string;
  Message : string;
  Severity : string;
}.

Record ValidationConfig : Type := {
  Preset : string;
  StopOnError : bool;
  Results : list ValidationResult;
}.

(** *** The rules.  A rule returns [None] for [nil] and the message of the
    error otherwise. *)

Definition validMethods : gmap string bool :=
  {[ "get" := true; "post" := true; "put" := true; "patch" := true;
     "delete" := true; "head" := true; "options" := true ]}.

Definition validateHTTPMethods (path method : string) (operation : ymap) : option string :=
  if negb (default false (validMethods !! strings.ToLower method))
  then Some ("invalid HTTP method '" +:+ method
             +:+ "', should be one of: GET, POST, PUT, PATCH, DELETE, HEAD, OPTIONS")
  else None.

Definition makePlural (word : string) : string :=
  if strings.HasSuffix word "y" then strings.TrimSuffix word "y" +:+ "ies"
  else if strings.HasSuffix word "s" || strings.HasSuffix word "ch"
          || strings.HasSuffix word "sh"
       then word +:+ "es"
       else word +:+ "s".

Definition singularWords : list string :=
  [ "account"; "user"; "mission"; "reward"; "partner"; "activity"; "car"; "member";
    "order"; "product"; "service"; "item"; "category"; "group"; "role"; "permission";
    "resource"; "entity"; "record"; "document"; "file"; "image"; "video"; "comment" ].

(** The pattern [^v\d+$] *)
Definition isVersionSegment (s : string) : bool :=
  match s with
  | String "v" digits => negb (String.eqb digits "") && allBytes strings.isDigit digits
  | _ => false
  end.

Definition isParamSegment (segment : string) : bool :=
  strings.HasPrefix segment "{" && strings.HasSuffix segment "}".

Fixpoint pluralLoop (segments : list string) : option string :=
  match segments with
  | [] => None
  | segment :: rest =>
      if isParamSegment segment then pluralLoop rest
      else if isVersionSegment segment then pluralLoop rest
      else
        match List.find (fun singular => String.eqb (strings.ToLower segment) singular)
                singularWords with
        | Some singular =>
            let plural := makePlural singular in
            Some ("collection name '" +:+ segment +:+ "' should be plural: '"
                  +:+ plural +:+ "'")
        | None => pluralLoop rest
        end
  end.

Definition validatePluralCollections (path method : string) (operation : ymap)
  : option string :=
  let segments := strings.Split (strings.Trim path "/") "/" in
  pluralLoop segments.

(** The pattern [^[a-z0-9]+(-[a-z0-9]+)*$|^v\d+$|^\{[^}]+\}$] *)
Definition isKebabSegment (s : string) : bool :=
  forallb (fun g => negb (String.eqb g "")
                    && allBytes (fun c => strings.isLower c || strings.isDigit c) g)
          (strings.Split s "-")
  || isVersionSegment s
  || match s with
     | String "{" rest =>
         strings.HasSuffix rest "}"
         && (let body := strings.take (String.length rest - 1) rest in
             negb (String.eqb body "")
             && allBytes (fun c => negb (Ascii.eqb c "}")) body)
     | _ => false
     end.

Definition validateKebabCase (path method : string) (operation : ymap) : option string :=
  let segments := strings.Split (strings.Trim path "/") "/" in
  match List.find (fun segment => negb (isKebabSegment segment)) segments with
  | Some segment =>
      Some ("path segment '" +:+ segment
            +:+ "' should use kebab-case (lowercase with dashes)")
  | None => None
  end.

Definition validateNoTrailingSlash (path method : string) (operation : ymap)
  : option string :=
  if (1 <? String.length path) && strings.HasSuffix path "/"
  then Some "path should not have trailing slash"
  else None.

Definition validateOperationId (path method : string) (operation : ymap) : option string :=
  match ymapGet operation "operationId" with
  | None => Some "operation should have operationId"
  | Some _ => None
  end.

Definition validateOperationSummary (path method : string) (operation : ymap)
  : option string :=
  match ymapGet operation "summary" with
  | None => Some "operation should have summary"
  | Some _ => None
  end.

Definition validateGetResponse200 (path method : string) (operation : ymap)
  : option string :=
  if negb (String.eqb (strings.ToLower method) "get") then None
  else
    match ymapGet operation "responses" with
    | Some (YMap responses) =>
        match ymapGet responses "200" with
        | None => Some "GET operation should have 200 response"
        | Some _ => None
        end
    | _ => Some "GET operation should have responses defined"
    end.

Definition isValidParamName (name : string) : bool :=
  let validPatterns :=
    [ "id"; "userId"; "accountId"; "missionId"; "partnerId";
      "carId"; "activityId"; "rewardId"; "memberId" ] in
  if existsb (fun pattern => String.eqb name pattern) validPatterns then true
  else if strings.HasSuffix name "Id" && (2 <? String.length name) then true
  else false.

(** [FindAllStringSubmatch] for the pattern [\{([^}]+)\}]: the capture group
    of every match, left to right.  [cur] is the text read since an opening
    brace, when one is pending. *)
Fixpoint scanParams (s : string) (cur : option string) : list string :=
  match s with
  | "" => []
  | String c s' =>
      match cur with
      | None =>
          if Ascii.eqb c "{" then scanParams s' (Some "") else scanParams s' None
      | Some body =>
          if Ascii.eqb c "}" then
            if String.eqb body "" then scanParams s' None
            else body :: scanParams s' None
          else scanParams s' (Some (body +:+ String c ""))
      end
  end.

Definition validateResourceIdParam (path method : string) (operation : ymap)
  : option string :=
  match List.find (fun paramName => negb (isValidParamName paramName))
          (scanParams path None) with
  | Some paramName =>
      Some ("parameter '{" +:+ paramName
            +:+ "}' should follow naming convention (consider using {id} for resource identifiers)")
  | None => None
  end.

Definition mkRule := ValidationRule.Build_t.

Definition ValidationPresets : gmap string ValidationPreset.t :=
  {[ "google" :=
       {| ValidationPreset.Name := "Google API Design Guide";
          ValidationPreset.Description :=
            "Validation rules based on Google's API Design Guide best practices";
          ValidationPreset.Rules :=
            [ mkRule "http-methods-rest"
                "Use standard HTTP methods (GET, POST, PUT, PATCH, DELETE)"
                validateHTTPMethods;
              mkRule "collection-names-plural"
                "Collection names should be plural nouns"
                validatePluralCollections;
              mkRule "path-case-kebab"
                "Path segments should use kebab-case (lowercase with dashes)"
                validateKebabCase;
              mkRule "no-trailing-slash"
                "Paths should not have trailing slashes"
                validateNoTrailingSlash;
              mkRule "operation-id-present"
                "All operations should have operationId"
                validateOperationId;
              mkRule "operation-summary-present"
                "All operations should have summary"
                validateOperationSummary;
              mkRule "response-200-present"
                "GET operations should have 200 response"
                validateGetResponse200;
              mkRule "resource-id-param"
                "Resource paths should use {id} parameter naming"
                validateResourceIdParam ] |};
     "restful" :=
       {| ValidationPreset.Name := "RESTful API Standards";
          ValidationPreset.Description := "Common RESTful API design standards";
          ValidationPreset.Rules :=
            [ mkRule "http-methods-rest"
                "Use standard HTTP methods (GET, POST, PUT, PATCH, DELETE)"
                validateHTTPMethods;
              mkRule "operation-id-present"
                "All operations should have operationId"
                validateOperationId;
              mkRule "collection-names-plural"
                "Collection names should be plural nouns"
                validatePluralCollections;
              mkRule "no-trailing-slash"
                "Paths should not have trailing slashes"
                validateNoTrailingSlash ] |} ]}.

(** *** The run.  What the engine does to the outside is kept in a trace:
    listing the fragments, reading and decoding one, and evaluating one rule
    on one operation (with what the rule returned).  Standard output is not
    modelled. *)
Inductive event : Type :=
| evList (dir : string)
| evRead (file : string)
| evParse (file : string)
| evRule (path method rule : string) (outcome : option string).

(** The state a run threads through its loops: the configuration behind
    the pointer [validationCfg], the local [hasErrors], and the trace. *)
Record runState : Type := {
  vcfg : ValidationConfig;
  hasErrors : bool;
  trace : list event;
}.

Definition logEvent (st : runState) (e : event) : runState :=
  {| vcfg := vcfg st; hasErrors := hasErrors st; trace := trace st ++ [e] |}.

Definition recordResult (st : runState) (result : ValidationResult) : runState :=
  {| vcfg := {| Preset := Preset (vcfg st);
                StopOnError := StopOnError (vcfg st);
                Results := Results (vcfg st) ++ [result] |};
     hasErrors := true;
     trace := trace st |}.

Definition errStopped : error := errNew "validation failed on first error".
Definition errFailed : error := errNew "validation failed".

Fixpoint runRules (rules : list ValidationRule.t) (apiPath method : string)
    (operation : ymap) (st : runState) : runState * option error :=
  match rules with
  | [] => (st, None)
  | rule :: rest =>
      let outcome := ValidationRule.Validate rule apiPath method operation in
      let st := logEvent st (evRule apiPath method (ValidationRule.Name rule) outcome) in
      match outcome with
      | Some msg =>
          let result := {| Path := apiPath;
                           Method := strings.ToUpper method;
                           Rule := ValidationRule.Name rule;
                           Message := msg;
                           Severity := "error" |} in
          let st := recordResult st result in
          if StopOnError (vcfg st) then (st, Some errStopped)
          else runRules rest apiPath method operation st
      | None => runRules rest apiPath method operation st
      end
  end.

(** The loop over the keys of one decoded fragment, in the order in which
    the [range] over the Go map visits them. *)
Fixpoint runMethods (rules : list ValidationRule.t) (apiPath : string)
    (pathSpec : ymap) (st : runState) : runState * option error :=
  match pathSpec with
  | [] => (st, None)
  | (method, operationRaw) :: rest =>
      match operationRaw with
      | YMap operation =>
          match runRules rules apiPath method operation st with
          | (st, Some e) => (st, Some e)
          | (st, None) => runMethods rules apiPath rest st
          end
      | YOther => runMethods rules apiPath rest st
      end
  end.

Section Engine.
(** [yaml.Unmarshal] into a [map[string]interface{}]: the decoding error,
    or the top-level keys with their values in the order in which the
    fragment's map is ranged over. *)
Variable Unmarshal : string -> error + ymap.

Fixpoint runFiles (fs : fsnode) (cfg : Config) (rules : list ValidationRule.t)
    (paths : list string) (st : runState) : runState * option error :=
  match paths with
  | [] => (st, None)
  | pathFile :: rest =>
      let apiPath := buildPathKey (PathsDir cfg) pathFile in
      if String.eqb apiPath "" then runFiles fs cfg rules rest st
      else
        let st := logEvent st (evRead pathFile) in
        match ReadFile fs pathFile with
        | inl e => (st, Some (errWrap ("failed to read " +:+ pathFile +:+ ": ") e))
        | inr content =>
            let st := logEvent st (evParse pathFile) in
            match Unmarshal content with
            | inl e => (st, Some (errWrap ("failed to parse " +:+ pathFile +:+ ": ") e))
            | inr pathSpec =>
                match runMethods rules apiPath pathSpec st with
                | (st, Some e) => (st, Some e)
                | (st, None) => runFiles fs cfg rules rest st
                end
            end
        end
  end.

Definition validatePaths (fs : fsnode) (cfg : Config) (validationCfg : ValidationConfig)
    (tr : list event) : runState * option error :=
  let st := {| vcfg := validationCfg; hasErrors := false; trace := tr |} in
  match ValidationPresets !! Preset validationCfg with
  | None => (st, Some (errNew ("unknown validation preset: " +:+ Preset validationCfg)))
  | Some preset =>
      let st := logEvent st (evList (PathsDir cfg)) in
      match listYAMLFiles fs (PathsDir cfg) with
      | (_, Some e) => (st, Some e)
      | (paths, None) =>
          match runFiles fs cfg (ValidationPreset.Rules preset) paths st with
          | (st, Some e) => (st, Some e)
          | (st, None) =>
              if hasErrors st then (st, Some errFailed) else (st, None)
          end
      end
  end.
End Engine.

(** A decoder for the fragments of the examples below. *)
Definition exampleUnmarshal (content : string) : error + ymap :=
  if String.eqb content "get: {summary: List users}"
  then inr [("get", YMap [("summary", YOther)])]
  else if String.eqb content "get: {}"
  then inr [("get", YMap [])]
  else if String.eqb content "GET: {summary: s}, post: {}"
  then inr [("GET", YMap [("summary", YOther)]); ("post", YMap [])]
  else inl (errNew "yaml: unsupported document").

Definition usersFS (content : string) (more : list (string * fsnode)) : fsnode :=
  FDir [("api", FDir [("paths", FDir [("v1", FDir (
    ("users.yaml", FRegular content) :: more))])])].

Definition brokenFragment : list (string * fsnode) :=
  [("zz.yaml", FRegular "not yaml: [")].

Definition accountFS : fsnode :=
  FDir [("api", FDir [("paths", FDir [("v1", FDir [
    ("account", FDir [("{accountId}.yaml", FRegular "get: {}")])])])])].

Definition apiCfg : Config :=
  {| RootPath := "/api/root.yaml"; PathsDir := "/api/paths";
     SchemasDir := "/api/components/schemas";
     ParamsDir := "/api/components/parameters"; Join := false |}.

Definition vcfgOf (preset : string) (stop : bool) : ValidationConfig :=
  {| Preset := preset; StopOnError := stop; Results := [] |}.

(** ** Notions used in the statements *)

(** Induction on file trees. *)

Section fsnode_rect.
Variable P : fsnode -> Prop.
Hypothesis Hregular : forall content, P (FRegular content).
Hypothesis Hother : P FOther.
Hypothesis Hdir : forall entries, Forall (fun en => P (snd en)) entries -> P (FDir entries).
Hypothesis Hunreadable : P FDirUnreadable.

Fixpoint fsnode_tree_ind (d : fsnode) : P d :=
  match d with
  | FRegular content => Hregular content
  | FOther => Hother
  | FDir entries =>
      Hdir entries
        ((fix entries_ind (l : list (string * fsnode))
            : Forall (fun en => P (snd en)) l :=
            match l with
            | [] => @List.Forall_nil _ _
            | en :: rest => @List.Forall_cons _ _ en rest (fsnode_tree_ind (snd en)) (entries_ind rest)
            end) entries)
  | FDirUnreadable => Hunreadable
  end.
End fsnode_rect.

(** The keys of [validMethods]. *)
Definition restMethods : list string :=
  ["get"; "post"; "put"; "patch"; "delete"; "head"; "options"].

(** The rules of a preset of the table, by the name of the preset. *)
Definition presetRules (preset : string) : list ValidationRule.t :=
  match ValidationPresets !! preset with
  | Some p => ValidationPreset.Rules p
  | None => []
  end.

(** The rules of a list that carry a given name. *)
Definition rulesNamed (name : string) (rules : list ValidationRule.t)
  : list ValidationRule.t :=
  List.filter (fun r => String.eqb (ValidationRule.Name r) name) rules.

(** The segments the path rules look at. *)
Definition pathSegments (path : string) : list string :=
  strings.Split (strings.Trim path "/") "/".

(** A segment the rule objects to. *)
Definition flagged (segment : string) : bool :=
  negb (isParamSegment segment) && negb (isVersionSegment segment)
  && existsb (String.eqb (strings.ToLower segment)) singularWords.

(** The message of the rule [collection-names-plural]. *)
Definition pluralMessage (segment plural : string) : string :=
  "collection name '" +:+ segment +:+ "' should be plural: '" +:+ plural +:+ "'".

(** Kinds of errors. *)
Definition isOSError (e : error) : Prop :=
  match e with errOS _ _ => True | _ => False end.

(** An event other than a rule evaluation that found a violation. *)
Definition passed (e : event) : Prop :=
  match e with
  | evRule _ _ _ (Some _) => False
  | _ => True
  end.

(** From [st] to [st'] nothing was recorded and every evaluation passed. *)
Definition quietStep (st st' : runState) : Prop :=
  vcfg st' = vcfg st /\ hasErrors st' = hasErrors st
  /\ exists pre, trace st' = trace st ++ pre /\ Forall passed pre.

(** From [st] to [st'] every evaluation passed but the last one, whose
    violation is the one result recorded. *)
Definition haltStep (st st' : runState) : Prop :=
  exists r m pre,
    trace st' = trace st ++ pre ++ [evRule (Path r) m (Rule r) (Some (Message r))]
    /\ Forall passed pre
    /\ Results (vcfg st') = Results (vcfg st) ++ [r]
    /\ Method r = strings.ToUpper m /\ Severity r = "error".

Definition isWrapped (e : error) : Prop :=
  match e with errWrap _ _ => True | _ => False end.

(** From [st] to [st'] results were only appended, and [hasErrors] was
    raised exactly when one was. *)
Definition growStep (st st' : runState) : Prop :=
  exists rs,
    Results (vcfg st') = Results (vcfg st) ++ rs
    /\ StopOnError (vcfg st') = StopOnError (vcfg st)
    /\ hasErrors st' = hasErrors st || match rs with [] => false | _ => true end.

(** The state in which the stopped run of the restful example ends. *)
Definition stoppedRun : runState :=
  {| vcfg := {| Preset := "restful"; StopOnError := true;
                Results := [ {| Path := "/v1/users"; Method := "GET";
                                Rule := "operation-id-present";
                                Message := "operation should have operationId";
                                Severity := "error" |} ] |};
     hasErrors := true;
     trace := [ evList "/api/paths"; evRead "/api/paths/v1/users.yaml";
                evParse "/api/paths/v1/users.yaml";
                evRule "/v1/users" "get" "http-methods-rest" None;
                evRule "/v1/users" "get" "operation-id-present"
                  (Some "operation should have operationId") ] |}.

(** Bytes other than the line feed, and other than the separator. *)
Definition notLF (c : ascii) : bool := negb (Ascii.eqb c LF).

(** A byte below 128. *)
Definition asciiByte (c : ascii) : bool := nat_of_ascii c <? 128.

(** A name map whose names hold no line feed. *)
Definition lfFree (m : gmap string string) : Prop :=
  forall k v, m !! k = Some v -> allBytes notLF v = true.

Definition notSlash (c : ascii) : bool := negb (Ascii.eqb c "/").

(** A proper path element: a name other than [.] and [..] without [/]. *)
Definition isElem (e : string) : bool :=
  negb (String.eqb e "") && negb (String.eqb e ".") && negb (String.eqb e "..")
  && allBytes notSlash e.

(** The cleaned absolute path with the given elements. *)
Definition absPath (elems : list string) : string := "/" +:+ strings.Join elems "/".

(** A file system with three schema fragments, for the examples. *)
Definition schemasFS : fsnode :=
  FDir [("api", FDir [
    ("components", FDir [("schemas", FDir [
       ("error.yaml", FRegular "type: object");
       ("pet.yaml", FRegular "$ref: schema:error");
       ("user-account.yaml", FRegular "type: object")])]);
    ("paths", FDir [("v1", FDir [
       ("pets.yaml", FRegular "$ref: ../../components/schemas/pet.yaml");
       ("users.yaml", FRegular "$ref: schema:user-account")])])])].

(** The two tests of the walk on a name. *)
Definition yamlName (name : string) : bool :=
  strings.HasSuffix (strings.ToLower name) ".yaml".

Definition dotted (name : string) : bool := strings.HasPrefix name ".".

(** The walk descends into the directory [name] at [path]: it is the root
    of the walk or its name does not start with a dot. *)
Definition canEnter (root path name : string) : bool :=
  negb (dotted name && negb (String.eqb path root)).

(** [visible root path name d p name' f]: starting at the node [d], known
    as [name] at [path], the walk from [root] comes to the node [f], known
    as [name'] at [p], through directories it descends into. *)
Inductive visible (root : string)
  : string -> string -> fsnode -> string -> string -> fsnode -> Prop :=
| visible_self path name d : visible root path name d path name d
| visible_child path name entries name1 d1 p name' f :
    canEnter root path name = true ->
    In (name1, d1) entries ->
    visible root (filepath.Join path name1) name1 d1 p name' f ->
    visible root path name (FDir entries) p name' f.

(** What a walk from the node [d] may list, and what it has to list. *)
Definition found (root path name : string) (d : fsnode) (p : string) : Prop :=
  exists name' f,
    visible root path name d p name' f /\ IsRegular f = true /\ yamlName name' = true.

Definition wanted (root path name : string) (d : fsnode) (p : string) : Prop :=
  exists name' f,
    visible root path name d p name' f /\ IsRegular f = true /\ yamlName name' = true
    /\ dotted name' = false.

Definition walkSpec (root path name : string) (d : fsnode)
    (files files' : list string) (sig : walkSignal) : Prop :=
  sig <> wsSkipDir
  /\ exists added,
       files' = files ++ added
       /\ (forall p, In p added -> found root path name d p)
       /\ (sig = wsNil -> forall p, wanted root path name d p -> In p added).

(** The listing as the specification words it: every regular file whose
    name ends in [.yaml] or [.yml], whatever the case, leaving out every
    file and every directory whose name starts with a dot. *)
Fixpoint specWalk (isRoot : bool) (path name : string) (d : fsnode) : list string :=
  if negb isRoot && dotted name then []
  else
    match d with
    | FRegular _ =>
        if yamlName name || strings.HasSuffix (strings.ToLower name) ".yml"
        then [path] else []
    | FDir entries =>
        (fix specEntries (entries : list (string * fsnode)) : list string :=
           match entries with
           | [] => []
           | (name1, d1) :: rest =>
               specWalk false (filepath.Join path name1) name1 d1 ++ specEntries rest
           end) entries
    | _ => []
    end.

Definition listYAMLFiles_spec (fs : fsnode) (root : string) : list string :=
  match fsLookup fs root with
  | Some d => if IsDir d then specWalk true root (filepath.Base root) d else []
  | None => []
  end.

(** The file name without its [.yaml] suffix, as [buildNameMap] cuts it. *)
Definition stem (f : string) : string := strings.TrimSuffix (filepath.Base f) ".yaml".

(** One round of the loop of [buildNameMap]. *)
Definition nameStep (m : gmap string string) (f : string) : gmap string string :=
  <[strings.ToLower (filepath.Base f) := pascalCase (stem f)]>
    (<[strings.ToLower (stem f) := pascalCase (stem f)]> m).

(** [k] is one of the two keys under which the file [f] is entered. *)
Definition keyOf (f k : string) : Prop :=
  k = strings.ToLower (stem f) \/ k = strings.ToLower (filepath.Base f).

(** A schemas directory with a fragment two levels down. *)
Definition nestedFS : fsnode :=
  FDir [("api", FDir [("components", FDir [("schemas", FDir [
    ("nested", FDir [("deeper", FDir [("inner-thing.yaml", FRegular "type: object")])]);
    ("user-account.yaml", FRegular "type: object")])])])].

(** ** Configuration helpers *)

Fixpoint firstNonEmpty (vals : list string) : string :=
  match vals with
  | [] => ""
  | v :: rest =>
      if negb (String.eqb (strings.TrimSpace v) "") then v else firstNonEmpty rest
  end.

Definition absJoin (base p : string) : string :=
  if filepath.IsAbs p then filepath.Clean p
  else filepath.Clean (filepath.Join base p).

(** [strings.ReplaceAll(s, old, new)] for one-byte [old] and [new]. *)
Definition ReplaceAllByte (s : string) (old new : ascii) : string :=
  strings.mapBytes (fun c => if Ascii.eqb c old then new else c) s.

Definition guessPackage (dir : string) : string :=
  let base := filepath.Base dir in
  let base := ReplaceAllByte base "-" "_" in
  let base := ReplaceAllByte base "." "_" in
  if String.eqb base "" || String.eqb base "/" || String.eqb base "." then "api"
  else
    match base with
    | String b0 _ =>
        let n := nat_of_ascii b0 in
        if ((n <? 65) || (122 <? n)) || ((90 <? n) && (n <? 97)) then "api" else base
    | "" => "api"
    end.

(** ** External tools and the run *)

(** The fields of [Config] beside those of the composer ([Compose]). *)
Record RunConfig : Type := {
  Compose : Config;
  Cwd : string;
  InputDir : string;
  OutputDir : string;
  RootFile : string;
  OutputTS : string;
  OutputGo : string;
  Redocly : string;
  BundleOut : string;
  RedoclyConfig : string;
  TSGenerator : string;
  GoGenerator : string;
  ValidatePreset : string;
  SkipValidation : bool;
  ValidateStopOnError : bool;
}.

(** The host: [exec.LookPath] (the path found, if any), the outcome of
    running a command ([cmd.Run]), of [os.MkdirAll] and of [os.Create]. *)
Record Host : Type := {
  LookPath : string -> option string;
  cmdRun : string -> list string -> option error;
  MkdirAll : string -> option error;
  Create : string -> option error;
}.

(** What a run does to the outside, in order: the directories it asks
    for, the validation it runs (with the state in which that ends), the
    root file once it is written in full, the lines and the errors printed
    on standard error, and the commands it starts.  Standard output is not
    modelled. *)
Inductive effect : Type :=
| efMkdirAll (dir : string)
| efValidate (st : runState)
| efWriteRoot (path content : string)
| efStderr (line : string)
| efPrintErr (e : error)
| efExec (name : string) (args : list string).

(** A step of the run: its effects and the error it returns. *)
Definition stage : Type := list effect * option error.

Definition stageNil : stage := ([], None).

(** [a], and [b] after it unless [a] returned an error. *)
Definition andThen (a b : stage) : stage :=
  match a with
  | (l, None) => (l ++ fst b, snd b)
  | (l, Some e) => (l, Some e)
  end.

Infix ">>>" := andThen (at level 67, right associativity).

Definition ensureDir (h : Host) (dir : string) : stage :=
  if String.eqb dir "" then ([], Some (errNew "empty dir path"))
  else ([efMkdirAll dir], MkdirAll h dir).

Definition runCmd (h : Host) (name : string) (args : list string) : stage :=
  ([efExec name args], cmdRun h name args).

Definition which (h : Host) (bin : string) : string :=
  match LookPath h bin with
  | Some p => p
  | None => ""
  end.

(** [filepath.Join] of any number of elements. *)
Definition JoinElems (elems : list string) : string :=
  match List.filter (fun e => negb (String.eqb e "")) elems with
  | [] => ""
  | kept => filepath.Clean (strings.Join kept "/")
  end.

Definition findRedocly (h : Host) (fs : fsnode) (cwd : string) : string :=
  if negb (String.eqb (which h "redocly") "") then which h "redocly"
  else
    let local := JoinElems [cwd; "node_modules"; ".bin"; "redocly"] in
    match fsLookup fs local with
    | Some st => if negb (IsDir st) then local else ""
    | None => ""
    end.

Definition tipTS : string :=
  "Tip: install openapi-typescript for single-file TS types: npm i -g openapi-typescript".

Definition tipGo : string :=
  "Tip: install oapi-codegen for single-file Go: go install github.com/deepmap/oapi-codegen/v2/cmd/oapi-codegen@latest".

Definition errNoTSGenerator : error :=
  errNew ("no OpenAPI generator found. Install one of:" +:+ nl
          +:+ " - brew install openapi-generator" +:+ nl
          +:+ " - npm i -g @openapitools/openapi-generator-cli" +:+ nl
          +:+ " - npm i -g openapi-typescript (for single-file types)").

Definition errNoGoGenerator : error :=
  errNew ("no OpenAPI generator found. Install one of:" +:+ nl
          +:+ " - brew install openapi-generator" +:+ nl
          +:+ " - npm i -g @openapitools/openapi-generator-cli" +:+ nl
          +:+ " - go install github.com/deepmap/oapi-codegen/v2/cmd/oapi-codegen@latest").

Definition errNoRedoclyDocs : error :=
  errNew ("redocly CLI not found. Install with:" +:+ nl
          +:+ " - npm i -g @redocly/cli" +:+ nl
          +:+ "Alternatively, install redoc-cli: npm i -g redoc-cli").

Definition errNoRedoclyBundle : error :=
  errNew ("redocly CLI not found. Install with one of:" +:+ nl
          +:+ " - npm i -g @redocly/cli" +:+ nl
          +:+ " - npm i -D @redocly/cli (then ensure node_modules/.bin is present)").

(** The part of [generateTypeScript] that its two generator branches share:
    [generator] builds the command of the branch from the output path. *)
Definition typeScriptWith (h : Host) (c : RunConfig) (generator : string -> stage) : stage :=
  let out := OutputTS c in
  if strings.HasSuffix (strings.ToLower out) ".ts" then
    if negb (String.eqb (which h "openapi-typescript") "")
    then runCmd h "openapi-typescript" [RootPath (Compose c); "-o"; out]
    else ([efStderr tipTS], None) >>> generator (filepath.Dir out)
  else generator out.

Definition generateTypeScript (h : Host) (c : RunConfig) : stage :=
  if String.eqb (OutputTS c) "" then stageNil
  else if negb (String.eqb (which h "openapi") "") then
    typeScriptWith h c (fun out =>
      runCmd h "openapi"
        ["generate"; "-g"; "typescript"; "-i"; RootPath (Compose c); "-o"; out])
  else if negb (String.eqb (which h "openapi-generator") "") then
    typeScriptWith h c (fun out =>
      let gen := TSGenerator c in
      let gen := if String.eqb gen "" then "typescript-fetch" else gen in
      runCmd h "openapi-generator"
        ["generate"; "-g"; gen; "-i"; RootPath (Compose c); "-o"; out])
  else ([], Some errNoTSGenerator).

Definition oapiCodegen (h : Host) (c : RunConfig) (out : string) : stage :=
  let pkg := guessPackage (filepath.Dir out) in
  runCmd h "oapi-codegen"
    ["-generate"; "types,client,server"; "-o"; out; "-package"; pkg; RootPath (Compose c)].

(** The two generator branches of [generateGo], which differ in the name of
    the executable. *)
Definition goWith (h : Host) (c : RunConfig) (exe : string) : stage :=
  let out := OutputGo c in
  let generator := fun out =>
    let gen := GoGenerator c in
    let gen := if String.eqb gen "" then "go" else gen in
    runCmd h exe ["generate"; "-g"; gen; "-i"; RootPath (Compose c); "-o"; out] in
  if strings.HasSuffix (strings.ToLower out) ".go" then
    if negb (String.eqb (which h "oapi-codegen") "")
    then oapiCodegen h c out
    else ([efStderr tipGo], None) >>> generator (filepath.Dir out)
  else generator out.

Definition generateGo (h : Host) (c : RunConfig) : stage :=
  if String.eqb (OutputGo c) "" then stageNil
  else if negb (String.eqb (which h "openapi") "") then goWith h c "openapi"
  else if negb (String.eqb (which h "openapi-generator") "") then goWith h c "openapi-generator"
  else if negb (String.eqb (which h "oapi-codegen") "") then
    let out := OutputGo c in
    if negb (strings.HasSuffix (strings.ToLower out) ".go") then
      match ensureDir h out with
      | (l, None) => (l, None) >>> oapiCodegen h c (filepath.Join out "api.gen.go")
      | (l, Some _) => (l, None) >>> oapiCodegen h c out
      end
    else ensureDir h (filepath.Dir out) >>> oapiCodegen h c out
  else ([], Some errNoGoGenerator).

Definition buildDocsHTML (h : Host) (fs : fsnode) (c : RunConfig) : stage :=
  if String.eqb (Redocly c) "" then stageNil
  else
    let input := BundleOut c in
    let input := if String.eqb (strings.TrimSpace input) "" then RootPath (Compose c) else input in
    let exe := findRedocly h fs (Cwd c) in
    if negb (String.eqb exe "") then
      ensureDir h (filepath.Dir (Redocly c)) >>>
      (let args := ["build-docs"; input; "--output"; Redocly c] in
       let args := if negb (String.eqb (RedoclyConfig c) "")
                   then args ++ ["--config"; RedoclyConfig c] else args in
       runCmd h exe args)
    else if negb (String.eqb (which h "redoc-cli") "") then
      ensureDir h (filepath.Dir (Redocly c)) >>>
      runCmd h "redoc-cli" ["build"; input; "-o"; Redocly c]
    else ([], Some errNoRedoclyDocs).

Definition bundleWithRedocly (h : Host) (fs : fsnode) (c : RunConfig) : stage :=
  if String.eqb (BundleOut c) "" then stageNil
  else
    let exe := findRedocly h fs (Cwd c) in
    if String.eqb exe "" then ([], Some errNoRedoclyBundle)
    else
      ensureDir h (filepath.Dir (BundleOut c)) >>>
      (let args := ["bundle"; RootPath (Compose c); "-o"; BundleOut c] in
       let args := if negb (String.eqb (RedoclyConfig c) "")
                   then args ++ ["--config"; RedoclyConfig c] else args in
       runCmd h exe args).

(** The validation step of [run]. *)
Definition validateStage (Unmarshal : string -> error + ymap) (fs : fsnode) (c : RunConfig)
  : stage :=
  if negb (SkipValidation c) && negb (String.eqb (ValidatePreset c) "") then
    let validationCfg := {| Preset := ValidatePreset c;
                            StopOnError := ValidateStopOnError c;
                            Results := [] |} in
    match validatePaths Unmarshal fs (Compose c) validationCfg [] with
    | (st, Some e) => ([efValidate st], Some (errWrap "validation failed: " e))
    | (st, None) => ([efValidate st], None)
    end
  else stageNil.

(** The composition step of [run]: [writeRootJoinedYAML] or [writeRootYAML],
    which differ after the root file is created, with what [run] makes of
    their error.  Flushing the text is taken to succeed. *)
Definition writeStage (h : Host) (fs : fsnode) (c : RunConfig) : stage :=
  let cfg := Compose c in
  let wrap := if Join cfg then "building joined root YAML: "
              else "building reference-style root YAML: " in
  match ensureDir h (filepath.Dir (RootPath cfg)) with
  | (l, Some e) => (l, Some (errWrap wrap e))
  | (l, None) =>
      match listYAMLFiles fs (PathsDir cfg) with
      | (_, Some e) => (l, Some (errWrap wrap e))
      | (paths, None) =>
          match listYAMLFiles fs (SchemasDir cfg) with
          | (_, Some e) => (l, Some (errWrap wrap e))
          | (schemas, None) =>
              match listYAMLFiles fs (ParamsDir cfg) with
              | (_, Some e) => (l, Some (errWrap wrap e))
              | (params, None) =>
                  match Create h (RootPath cfg) with
                  | Some e => (l, Some (errWrap wrap e))
                  | None =>
                      if Join cfg then
                        match composeJoined fs cfg paths schemas params with
                        | inl e => (l, Some (errWrap wrap e))
                        | inr content => (l ++ [efWriteRoot (RootPath cfg) content], None)
                        end
                      else
                        (l ++ [efWriteRoot (RootPath cfg)
                                 (composeRefs cfg paths schemas params)], None)
                  end
              end
          end
      end
  end.

Definition run (Unmarshal : string -> error + ymap) (h : Host) (fs : fsnode) (c : RunConfig)
  : stage :=
  ensureDir h (OutputDir c) >>>
  validateStage Unmarshal fs c >>>
  writeStage h fs c >>>
  generateTypeScript h c >>>
  generateGo h c >>>
  bundleWithRedocly h fs c >>>
  buildDocsHTML h fs c.

(** ** The configuration *)

(** The values of the command-line flags once [flag.Parse] has returned,
    under the names of the variables that hold them. *)
Record Flags : Type := {
  inputDirFlag : string;
  inputDirFlagS : string;
  outputDirFlag : string;
  outputDirFlagS : string;
  rootFileFlag : string;
  rootFileFlagS : string;
  outputTS : string;
  outputGo : string;
  redoclyOut : string;
  bundleOut : string;
  redoclyCfg : string;
  tsGen : string;
  goGen : string;
  joinOutput : bool;
  allDo : bool;
  validatePreset : string;
  skipValidation : bool;
  validateStopOnError : bool;
  listPresets : bool;
}.

Definition errMissingInput : error := errNew "missing required flag: --input is required".

(** [buildConfig] after [flag.Parse]: [cwd] is what [os.Getwd] returned and
    [fs] answers [os.Stat].  The pair [(None, None)] is the return
    [nil, nil] of a request to list the presets. *)
Definition buildConfig (fs : fsnode) (cwd : string) (fl : Flags)
  : option RunConfig * option error :=
  if listPresets fl then (None, None)
  else
    let inputDir := firstNonEmpty [inputDirFlag fl; inputDirFlagS fl] in
    let outputDir := firstNonEmpty [outputDirFlag fl; outputDirFlagS fl] in
    if String.eqb (strings.TrimSpace inputDir) "" then (None, Some errMissingInput)
    else
      let outputDir :=
        if String.eqb (strings.TrimSpace outputDir) "" then inputDir else outputDir in
      let rootFile := firstNonEmpty [rootFileFlag fl; rootFileFlagS fl] in
      let rootFile :=
        if String.eqb (strings.TrimSpace rootFile) "" then "root.yaml" else rootFile in
      let inputDir := absJoin cwd inputDir in
      let outputDir := absJoin cwd outputDir in
      let rootPath := absJoin outputDir rootFile in
      let redoclyConfig := strings.TrimSpace (redoclyCfg fl) in
      let redoclyConfig :=
        if String.eqb redoclyConfig "" then
          let def := filepath.Join cwd "redocly.yaml" in
          match fsLookup fs def with
          | Some st => if negb (IsDir st) then def else redoclyConfig
          | None => redoclyConfig
          end
        else redoclyConfig in
      let bundle := strings.TrimSpace (bundleOut fl) in
      let docs := strings.TrimSpace (redoclyOut fl) in
      let bundle :=
        if allDo fl && String.eqb bundle ""
        then absJoin cwd (filepath.Join "dist" "openapi.yaml") else bundle in
      let docs :=
        if allDo fl && String.eqb docs ""
        then absJoin cwd (filepath.Join "dist" "index.html") else docs in
      (Some {| Compose := {| RootPath := rootPath;
                             PathsDir := filepath.Join inputDir "paths";
                             SchemasDir := JoinElems [inputDir; "components"; "schemas"];
                             ParamsDir := JoinElems [inputDir; "components"; "parameters"];
                             Join := joinOutput fl |};
               Cwd := cwd;
               InputDir := inputDir;
               OutputDir := outputDir;
               RootFile := rootFile;
               OutputTS := strings.TrimSpace (outputTS fl);
               OutputGo := strings.TrimSpace (outputGo fl);
               Redocly := docs;
               BundleOut := bundle;
               RedoclyConfig := redoclyConfig;
               TSGenerator := strings.TrimSpace (tsGen fl);
               GoGenerator := strings.TrimSpace (goGen fl);
               ValidatePreset := strings.TrimSpace (validatePreset fl);
               SkipValidation := skipValidation fl;
               ValidateStopOnError := validateStopOnError fl |}, None).

(** ** Notions used in the further statements *)

(** The result that [validatePaths] records for a rule evaluation. *)
Definition resultOf (e : event) : list ValidationResult :=
  match e with
  | evRule path method rule (Some msg) =>
      [ {| Path := path; Method := strings.ToUpper method; Rule := rule;
           Message := msg; Severity := "error" |} ]
  | _ => []
  end.

Definition resultsOf (tr : list event) : list ValidationResult := flat_map resultOf tr.

Definition isSeparator (c : ascii) : bool :=
  Ascii.eqb c "-" || Ascii.eqb c "_" || Ascii.eqb c " ".

Definition isLetter (c : ascii) : bool := strings.isUpper c || strings.isLower c.

Definition isExec (ef : effect) : bool :=
  match ef with efExec _ _ => true | _ => false end.

Definition isWrite (ef : effect) : bool :=
  match ef with efWriteRoot _ _ => true | _ => false end.

(** The two lists part at their first elements. *)
Definition diverge (b t : list string) : Prop :=
  match b, t with
  | x :: _, y :: _ => String.eqb x y = false
  | _, _ => True
  end.


(** From [st] to [st'] the events [pre] were logged, and the results
    recorded are those of the failed evaluations among them, in order;
    the preset and the stop flag are untouched. *)
Definition ledgerStep (st st' : runState) (pre : list event) : Prop :=
  trace st' = trace st ++ pre
  /\ Results (vcfg st') = Results (vcfg st) ++ resultsOf pre
  /\ Preset (vcfg st') = Preset (vcfg st)
  /\ StopOnError (vcfg st') = StopOnError (vcfg st)
  /\ hasErrors st' = hasErrors st || match resultsOf pre with [] => false | _ => true end.

(** Bytes other than the two braces. *)
Definition notOpen (c : ascii) : bool := negb (Ascii.eqb c "{").
Definition notClose (c : ascii) : bool := negb (Ascii.eqb c "}").

(** Bytes other than the upper-case letters A to Z. *)
Definition notUpper (c : ascii) : bool := negb (strings.isUpper c).

(** Bytes other than the dash, the dot and the slash. *)
Definition pkgByte (c : ascii) : bool :=
  negb (Ascii.eqb c "-") && negb (Ascii.eqb c ".") && negb (Ascii.eqb c "/").

(** A configuration made of nothing but the flags [--input] and [--all]. *)
Definition plainFlags (input : string) (all : bool) : Flags :=
  {| inputDirFlag := input; inputDirFlagS := ""; outputDirFlag := ""; outputDirFlagS := "";
     rootFileFlag := ""; rootFileFlagS := ""; outputTS := ""; outputGo := "";
     redoclyOut := ""; bundleOut := ""; redoclyCfg := "";
     tsGen := "typescript-fetch"; goGen := "go"; joinOutput := false; allDo := all;
     validatePreset := ""; skipValidation := false; validateStopOnError := false;
     listPresets := false |}.

(** Every rule of [rules] passes on every operation of the fragment
    [pathSpec] (entries that are not maps are not operations). *)
Definition opsPass (rules : list ValidationRule.t) (apiPath : string) (pathSpec : ymap)
  : Prop :=
  forall method operation rule,
    In (method, YMap operation) pathSpec -> In rule rules ->
    ValidationRule.Validate rule apiPath method operation = None.

(** The fragment [pathFile] gives the run nothing to report: it has no
    path key, or it can be read and decoded and every rule passes on it. *)
Definition fileOK (Unmarshal : string -> error + ymap) (fs : fsnode) (cfg : Config)
    (rules : list ValidationRule.t) (pathFile : string) : Prop :=
  buildPathKey (PathsDir cfg) pathFile = ""
  \/ exists content pathSpec,
       ReadFile fs pathFile = inr content /\ Unmarshal content = inr pathSpec
       /\ opsPass rules (buildPathKey (PathsDir cfg) pathFile) pathSpec.

(** A decoder for one complete operation, and a file system holding it. *)
Definition fullUnmarshal (content : string) : error + ymap :=
  if String.eqb content "get: {operationId: listUsers, summary: List users, responses: {200: {}}}"
  then inr [("get", YMap [("operationId", YOther); ("summary", YOther);
                          ("responses", YMap [("200", YOther)])])]
  else inl (errNew "yaml: unsupported document").

Definition fullFS : fsnode :=
  usersFS "get: {operationId: listUsers, summary: List users, responses: {200: {}}}" [].

(** An effect that neither starts a command nor writes the root file. *)
Definition quiet (ef : effect) : bool := negb (isExec ef) && negb (isWrite ef).

(** The effects of the tool stages: directories, hints and commands. *)
Definition toolEffect (ef : effect) : bool :=
  match ef with
  | efMkdirAll _ | efStderr _ | efExec _ _ => true
  | efValidate _ | efWriteRoot _ _ | efPrintErr _ => false
  end.

Definition execCount (l : list effect) : nat := length (List.filter isExec l).

(** A stage that has only tool effects, starts at most [n] commands, and
    hands each of them the root file or the bundle. *)
Definition toolStage (c : RunConfig) (n : nat) (s : stage) : Prop :=
  Forall (fun ef => toolEffect ef = true) (fst s)
  /\ execCount (fst s) <= n
  /\ forall name args,
       In (efExec name args) (fst s) ->
       In (RootPath (Compose c)) args \/ (BundleOut c <> "" /\ In (BundleOut c) args).

(** The validation that [run] asks for. *)
Definition runValidation (c : RunConfig) : ValidationConfig :=
  {| Preset := ValidatePreset c; StopOnError := ValidateStopOnError c; Results := [] |}.

(** A host without tools on which directories and files can be made. *)
Definition bareHost : Host :=
  {| LookPath := fun _ => None; cmdRun := fun _ _ => None;
     MkdirAll := fun _ => None; Create := fun _ => None |}.

(** A configuration of the restful example: validate, then compose. *)
Definition usersRun : RunConfig :=
  {| Compose := apiCfg; Cwd := "/"; InputDir := "/api"; OutputDir := "/api";
     RootFile := "root.yaml"; OutputTS := ""; OutputGo := ""; Redocly := "";
     BundleOut := ""; RedoclyConfig := ""; TSGenerator := "typescript-fetch";
     GoGenerator := "go"; ValidatePreset := "restful"; SkipValidation := false;
     ValidateStopOnError := true |}.

(** The component name the rewriter gives to the capture [cap] of a file
    reference: the name the map has for it, if any and not empty, else its
    Pascal-case form. *)
Definition chosenName (m : gmap string string) (cap : string) : string :=
  if String.eqb (mapGet m (strings.ToLower cap)) "" then pascalCase cap
  else mapGet m (strings.ToLower cap).

(** An extension that the two path patterns accept. *)
Definition yamlExt (ext : string) : Prop :=
  strings.ToLower ext = ".yaml" \/ strings.ToLower ext = ".yml".

(** A flag value that counts as not given. *)
Definition blank (v : string) : Prop := strings.TrimSpace v = "".

(** What [flag.Parse], called first by [buildConfig], makes of the command
    line: the values of the flags, or an exit of its own, the default flag
    set having the error handling [ExitOnError]: status 0 when help is asked
    for ([-h], [-help]) and status 2 when a flag does not parse. *)
Inductive parseResult : Type :=
| parsed (fl : Flags)
| parseHelp
| parseFailed.

(** [main]: the effects and the exit status.  The usage text, which
    [flag.Parse] prints before its exits and [buildConfig] when the input
    flag is missing, is not modelled. *)
Definition main (Unmarshal : string -> error + ymap) (h : Host) (fs : fsnode)
    (cwd : string) (cl : parseResult) : list effect * nat :=
  match cl with
  | parseHelp => ([], 0)
  | parseFailed => ([], 2)
  | parsed fl =>
      match buildConfig fs cwd fl with
      | (_, Some e) => ([efPrintErr e], 1)
      | (None, None) => ([], 0)
      | (Some cfg, None) =>
          match run Unmarshal h fs cfg with
          | (l, Some e) => (l ++ [efPrintErr e], 1)
          | (l, None) => (l, 0)
          end
      end
  end.

(** A tree in which every entry of every directory has a proper name. *)
Inductive properTree : fsnode -> Prop :=
| proper_regular content : properTree (FRegular content)
| proper_other : properTree FOther
| proper_unreadable : properTree FDirUnreadable
| proper_dir entries :
    Forall (fun en => isElem (fst en) = true /\ properTree (snd en)) entries ->
    properTree (FDir entries).

(** The paths directory of the restful example. *)
Definition usersPaths : fsnode :=
  FDir [("v1", FDir [("users.yaml", FRegular "get: {}")])].

(** The root file is among the arguments. *)
#[local] Ltac root_arg := left; cbn [In]; repeat (first [left; reflexivity | right]).

(** ** Notions used for the composed document *)

(** The texts of a list, one after the other. *)
Definition textOf (l : list string) : string := fold_right String.append "" l.











(** * Properties *)

(** ** The model on concrete inputs *)

Example buildPathKey_ex1 :
  buildPathKey "/api/paths" "/api/paths/v1/foo/list-items.yaml" = "/v1/foo/listItems".
Proof. vm_compute. reflexivity. Qed.

Example buildPathKey_ex2 :
  buildPathKey "paths" "paths/v1/health-check.yaml" = "/v1/healthCheck".
Proof. vm_compute. reflexivity. Qed.

Example buildPathKey_ex3 :
  buildPathKey "/api/paths/" "/api/paths/../paths/./ping.yaml" = "/ping".
Proof. vm_compute. reflexivity. Qed.

(** The path functions on the cases of the tables in Go's own tests. *)
Example Clean_cases : map filepath.Clean
  ["abc//def//ghi"; "abc/./def"; "/./abc/def"; "abc/.."; "abc/def/ghi/../jkl";
   "abc/def/../ghi/../jkl"; "abc/def/.."; "abc/def/../.."; "/abc/def/../..";
   "abc/def/../../.."; "/abc/def/../../.."; "abc/def/../../../ghi/jkl/../../../mno";
   "abc/./../def"; "abc//./../def"; "abc/../../././../def"; "//abc"; "///abc";
   "abc/"; ""; "/"; ".."; "../.."; "../../abc"; "/abc/"]
  = ["abc/def/ghi"; "abc/def"; "/abc/def"; "."; "abc/def/jkl";
     "abc/jkl"; "abc"; "."; "/";
     ".."; "/"; "../../mno";
     "def"; "def"; "../../def"; "/abc"; "/abc";
     "abc"; "."; "/"; ".."; "../.."; "../../abc"; "/abc"].
Proof. vm_compute. reflexivity. Qed.

Example Rel_cases : map (fun bt => filepath.Rel (fst bt) (snd bt))
  [("a/b", "a/b"); ("a/b/.", "a/b"); ("a/b", "a/b/."); ("./a/b", "a/b");
   ("ab/cd", "ab/cde"); ("ab/cd", "ab/c"); ("a/b", "a/b/c/d"); ("a/b", "a/b/../c");
   ("a/b/../c", "a/b"); ("a/b/c", "a/c/d"); ("a/b", "c/d"); ("a/b/c/d", "a/b");
   ("a/b/c/d", "a/b/"); ("../../a/b", "../../a/b/c/d"); ("/a/b", "/a/b");
   ("/ab/cd", "/ab/cde"); ("/a/b", "/c/d"); ("/../../a/b", "/../../a/b/c/d");
   (".", "a/b"); (".", ".."); ("..", "."); ("..", "a"); ("../..", "..");
   ("a", "/a"); ("/a", "a")]
  = [Some "."; Some "."; Some "."; Some ".";
     Some "../cde"; Some "../c"; Some "c/d"; Some "../c";
     Some "../b"; Some "../../c/d"; Some "../../c/d"; Some "../..";
     Some "../.."; Some "c/d"; Some ".";
     Some "../cde"; Some "../../c/d"; Some "c/d";
     Some "a/b"; Some ".."; None; None; None;
     None; None].
Proof. vm_compute. reflexivity. Qed.

Example Base_Dir_cases :
  (map filepath.Base [""; "."; "/."; "/"; "////"; "x/"; "abc"; "abc/def"; "a/b/.x"; "a/b/c.x"],
   map filepath.Dir [""; "."; "/."; "/"; "/foo"; "x/"; "abc"; "abc/def"; "a/b/.x"; "a/b/c.x"])
  = (["."; "."; "."; "/"; "/"; "x"; "abc"; "def"; ".x"; "c.x"],
     ["."; "."; "/"; "/"; "/"; "x"; "."; "abc"; "a/b"; "a/b"]).
Proof. vm_compute. reflexivity. Qed.

Example strings_cases :
  (strings.Split "a,b,,c" ",", strings.Split "" ",", strings.Join ["a"; "b"; ""] "/",
   strings.TrimSpace "  a b  ", strings.Trim "//v1/x//" "/", strings.Index "a $ref: b" "$ref:",
   strings.Index "abc" "$ref:", strings.TrimSuffix "a.yaml.yaml" ".yaml",
   strings.TrimSuffix "A.YAML" ".yaml", strings.ToLower "Ping.YAML", strings.ToUpper "get{}")
  = (["a"; "b"; ""; "c"], [""], "a/b/", "a b", "v1/x", Some 2, None, "a.yaml", "A.YAML",
     "ping.yaml", "GET{}").
Proof. vm_compute. reflexivity. Qed.

Example names_cases :
  (map kebabToCamel ["list-items"; "health_check"; "get user by-id"; "-x"; "a--b"; ""],
   map pascalCase ["user-account"; "UserAccount"; "user_id"; ""],
   map (matchComponentPath "schemas")
     ["../components/schemas/user-account.yaml"; "schemas/Pet.YML"; "xschemas/pet.yaml";
      "schemas/a b.yaml"; "schemas/.yaml"; "Components/Schemas/x.y.yaml"; "schemas/pet.json"],
   map (fun s => scanParams s None) ["/v1/users/{userId}/cars/{id}"; "/{}/{a{b}/{c"])
  = (["listItems"; "healthCheck"; "getUserById"; "X"; "aB"; ""],
     ["UserAccount"; "UserAccount"; "UserId"; ""],
     [Some "user-account"; Some "Pet"; None; None; None; Some "x.y"; None],
     [["userId"; "id"]; ["a{b"]]).
Proof. vm_compute. reflexivity. Qed.

Example listYAMLFiles_ex1 :
  listYAMLFiles exampleFS "/api/paths"
  = (["/api/paths/.hidden.yaml"; "/api/paths/v1/Ping.YAML"; "/api/paths/v1/users.yaml"], None).
Proof. vm_compute. reflexivity. Qed.

Example listYAMLFiles_ex2 :
  (listYAMLFiles exampleFS "/api/components/parameters",
   listYAMLFiles exampleFS "/api/root.yaml",
   listYAMLFiles exampleFS "/api/locked")
  = (([], None), ([], None), (["/api/locked/a.yaml"], Some (errOS "open" "/api/locked/sub"))).
Proof. vm_compute. reflexivity. Qed.

Example rewriteRefs_ex1 :
  rewriteRefs ("a:" +:+ nl +:+ "  $ref: schema:user-account" +:+ nl
               +:+ "  - $ref: 'param:user-id'" +:+ nl
               +:+ "  $ref: ../components/schemas/user_account.yaml" +:+ nl
               +:+ "  $ref: #/components/schemas/Foo" +:+ nl
               +:+ "  $ref: https://x/y.json")
     {[ "user_account" := "Account" ]} ∅
  = "a:" +:+ nl +:+ "  $ref: #/components/schemas/UserAccount" +:+ nl
     +:+ "  - $ref: #/components/parameters/UserId" +:+ nl
     +:+ "  $ref: #/components/schemas/Account" +:+ nl
     +:+ "  $ref: #/components/schemas/Foo" +:+ nl
     +:+ "  $ref: https://x/y.json".
Proof. vm_compute. reflexivity. Qed.

Example indentText_ex :
  indentText ("get:" +:+ nl +:+ nl +:+ "  x: 1" +:+ nl +:+ nl) 4
  = "    get:" +:+ nl +:+ nl +:+ "      x: 1" +:+ nl.
Proof. vm_compute. reflexivity. Qed.

Example validatePaths_ex1 :
  let '(st, err) := validatePaths exampleUnmarshal
                      (usersFS "get: {summary: List users}" brokenFragment) apiCfg
                      (vcfgOf "restful" true) [] in
  (map Rule (Results (vcfg st)), err, length (trace st))
  = (["operation-id-present"], Some errStopped, 5).
Proof. vm_compute. reflexivity. Qed.

Example validatePaths_ex2 :
  let '(st, err) := validatePaths exampleUnmarshal accountFS apiCfg
                      (vcfgOf "google" false) [] in
  (map (fun r => (Path r, Method r, Rule r, Message r)) (Results (vcfg st)), err)
  = ([("/v1/account/{accountId}", "GET", "collection-names-plural",
       "collection name 'account' should be plural: 'accounts'");
      ("/v1/account/{accountId}", "GET", "operation-id-present",
       "operation should have operationId");
      ("/v1/account/{accountId}", "GET", "operation-summary-present",
       "operation should have summary");
      ("/v1/account/{accountId}", "GET", "response-200-present",
       "GET operation should have responses defined")], Some errFailed).
Proof. vm_compute. reflexivity. Qed.

(** ** Rule [http-methods-rest] *)

Lemma validMethods_lookup (m : string) :
  default false (validMethods !! m) = true <-> In m restMethods.
Proof.
  unfold validMethods, restMethods.
  rewrite !lookup_insert, lookup_singleton.
  repeat case_decide; subst; simpl; intuition (try discriminate; congruence).
Qed.

(** C10: the rule accepts a method exactly when its lower-cased form is one
    of get, post, put, patch, delete, head, options, although the
    description the two presets attach to the rule names five of them. *)
Theorem C10_http_methods_allow_list :
  (forall path method operation,
     validateHTTPMethods path method operation = None
     <-> In (strings.ToLower method) restMethods)
  /\ map ValidationRule.Description
       (rulesNamed "http-methods-rest" (presetRules "google" ++ presetRules "restful"))
     = [ "Use standard HTTP methods (GET, POST, PUT, PATCH, DELETE)";
         "Use standard HTTP methods (GET, POST, PUT, PATCH, DELETE)" ]
  /\ map (fun r => ValidationRule.Validate r "/v1/users" "HEAD" [])
       (rulesNamed "http-methods-rest" (presetRules "google" ++ presetRules "restful"))
     = [None; None]
  /\ validateHTTPMethods "/v1/users" "Options" [] = None
  /\ validateHTTPMethods "/v1/users" "TRACE" []
     = Some "invalid HTTP method 'TRACE', should be one of: GET, POST, PUT, PATCH, DELETE, HEAD, OPTIONS".
Proof.
  split; [|repeat split; vm_compute; reflexivity].
  intros path method operation. unfold validateHTTPMethods.
  rewrite <- validMethods_lookup.
  destruct (default false (validMethods !! strings.ToLower method)); simpl;
    split; congruence.
Qed.

(** ** Byte strings *)

Lemma str_app_cons (c : ascii) (a b : string) : String c a +:+ b = String c (a +:+ b).
Proof. reflexivity. Qed.

Lemma str_app_nil_l (a : string) : "" +:+ a = a.
Proof. reflexivity. Qed.

Lemma str_app_nil_r (a : string) : a +:+ "" = a.
Proof. induction a as [|c a IH]; [reflexivity|]. rewrite str_app_cons, IH. reflexivity. Qed.

Lemma str_app_assoc (a b c : string) : (a +:+ b) +:+ c = a +:+ (b +:+ c).
Proof.
  induction a as [|x a IH]; [reflexivity|]. rewrite !str_app_cons, IH. reflexivity.
Qed.

Lemma str_length_app (a b : string) :
  String.length (a +:+ b) = String.length a + String.length b.
Proof.
  induction a as [|c a IH]; [reflexivity|]. rewrite str_app_cons. simpl. rewrite IH. reflexivity.
Qed.

Lemma str_drop_app (a b : string) : strings.drop (String.length a) (a +:+ b) = b.
Proof. induction a as [|c a IH]; [reflexivity|]. rewrite str_app_cons. simpl. exact IH. Qed.

Lemma str_take_app (a b : string) : strings.take (String.length a) (a +:+ b) = a.
Proof.
  induction a as [|c a IH]; [destruct b; reflexivity|].
  rewrite str_app_cons. simpl. rewrite IH. reflexivity.
Qed.

Lemma HasSuffix_app (a b : string) : strings.HasSuffix (a +:+ b) b = true.
Proof.
  unfold strings.HasSuffix. rewrite str_length_app.
  replace (String.length a + String.length b - String.length b) with (String.length a) by lia.
  rewrite str_drop_app, String.eqb_refl.
  apply andb_true_iff. split; [apply Nat.leb_le; lia | reflexivity].
Qed.

Lemma TrimSuffix_app (a b : string) : strings.TrimSuffix (a +:+ b) b = a.
Proof.
  unfold strings.TrimSuffix. rewrite HasSuffix_app, str_length_app.
  replace (String.length a + String.length b - String.length b) with (String.length a) by lia.
  apply str_take_app.
Qed.

Lemma str_take_drop n s : strings.take n s +:+ strings.drop n s = s.
Proof.
  revert n. induction s as [|c s IH]; intros [|n]; try reflexivity.
  cbn [strings.take strings.drop]. rewrite str_app_cons, IH. reflexivity.
Qed.

Lemma HasSuffix_inv s suf :
  strings.HasSuffix s suf = true ->
  s = strings.take (String.length s - String.length suf) s +:+ suf.
Proof.
  unfold strings.HasSuffix. set (n := String.length s - String.length suf).
  intros [_ Heq]%andb_true_iff. apply String.eqb_eq in Heq.
  rewrite <- Heq. symmetry. apply str_take_drop.
Qed.

Lemma mapBytes_app f a b :
  strings.mapBytes f (a +:+ b) = strings.mapBytes f a +:+ strings.mapBytes f b.
Proof.
  induction a as [|c a IH]; [reflexivity|].
  rewrite str_app_cons. cbn [strings.mapBytes]. rewrite IH, str_app_cons. reflexivity.
Qed.

Lemma mapBytes_length f s : String.length (strings.mapBytes f s) = String.length s.
Proof. induction s as [|c s IH]; [reflexivity|]. cbn. rewrite IH. reflexivity. Qed.

Lemma mapBytes_drop f n s :
  strings.drop n (strings.mapBytes f s) = strings.mapBytes f (strings.drop n s).
Proof.
  revert n. induction s as [|c s IH]; intros [|n]; try reflexivity.
  cbn [strings.mapBytes strings.drop]. apply IH.
Qed.

Lemma str_app_inj_len a b x y :
  a +:+ x = b +:+ y -> String.length x = String.length y -> a = b /\ x = y.
Proof.
  revert b. induction a as [|c a IH]; intros [|d b]; rewrite ?str_app_nil_l, ?str_app_cons.
  - intros H _. split; [reflexivity | exact H].
  - intros H Hlen. apply (f_equal String.length) in H. cbn [String.length] in H.
    rewrite str_length_app in H. lia.
  - intros H Hlen. apply (f_equal String.length) in H. cbn [String.length] in H.
    rewrite str_length_app in H. lia.
  - intros [= <- H] Hlen. destruct (IH b H Hlen) as [-> ->]. split; reflexivity.
Qed.

(** ** Rule [collection-names-plural] *)

Lemma find_singular (s : string) :
  List.find (fun singular => String.eqb s singular) singularWords
  = if existsb (String.eqb s) singularWords then Some s else None.
Proof.
  induction singularWords as [|w ws IH]; [reflexivity|].
  simpl. destruct (String.eqb_spec s w) as [->|]; [reflexivity | exact IH].
Qed.

Lemma pluralLoop_find (segments : list string) :
  pluralLoop segments
  = match List.find flagged segments with
    | Some segment => Some (pluralMessage segment (makePlural (strings.ToLower segment)))
    | None => None
    end.
Proof.
  induction segments as [|segment rest IH]; [reflexivity|].
  cbn [pluralLoop List.find]. unfold flagged at 1.
  destruct (isParamSegment segment); [exact IH|].
  destruct (isVersionSegment segment); [exact IH|].
  rewrite find_singular. cbn [negb andb].
  destruct (existsb _ singularWords); [reflexivity | exact IH].
Qed.

Lemma flagged_spec (segment : string) :
  flagged segment = true
  <-> isParamSegment segment = false /\ isVersionSegment segment = false
      /\ In (strings.ToLower segment) singularWords.
Proof.
  unfold flagged. rewrite !andb_true_iff, !negb_true_iff, existsb_exists.
  split.
  - intros [[Hp Hv] [w [Hw He]]]. apply String.eqb_eq in He. subst w. auto.
  - intros (Hp & Hv & Hw). repeat split; trivial.
    exists (strings.ToLower segment). split; [exact Hw | apply String.eqb_refl].
Qed.

(** C9: the rule reports the first path segment that is neither a
    [{param}] placeholder nor a version segment and that is, up to case, one
    of the singular nouns; the message proposes the plural made by the
    suffix rules (a final y becomes ies; after s, ch or sh comes es;
    otherwise s).  With the google preset the path /v1/account/{accountId}
    draws a collection-names-plural violation proposing accounts. *)
Theorem C9_collection_names_plural :
  (forall path method operation,
     validatePluralCollections path method operation
     = match List.find flagged (pathSegments path) with
       | Some segment =>
           Some (pluralMessage segment (makePlural (strings.ToLower segment)))
       | None => None
       end)
  /\ (forall segment,
        flagged segment = true
        <-> isParamSegment segment = false /\ isVersionSegment segment = false
            /\ In (strings.ToLower segment) singularWords)
  /\ (forall stem, makePlural (stem +:+ "y") = stem +:+ "ies")
  /\ (forall word,
        strings.HasSuffix word "y" = false ->
        makePlural word
        = if strings.HasSuffix word "s" || strings.HasSuffix word "ch"
             || strings.HasSuffix word "sh"
          then word +:+ "es" else word +:+ "s")
  /\ (forall method operation,
        validatePluralCollections "/v1/account/{accountId}" method operation
        = Some "collection name 'account' should be plural: 'accounts'")
  /\ (forall stop,
        let '(st, err) := validatePaths exampleUnmarshal accountFS apiCfg
                            (vcfgOf "google" stop) [] in
        head (map (fun r => (Path r, Method r, Rule r, Message r)) (Results (vcfg st)))
        = Some ("/v1/account/{accountId}", "GET", "collection-names-plural",
                "collection name 'account' should be plural: 'accounts'")).
Proof.
  split; [|split; [|split; [|split; [|split]]]].
  - intros path method operation. apply pluralLoop_find.
  - apply flagged_spec.
  - intros stem. unfold makePlural. rewrite HasSuffix_app, TrimSuffix_app. reflexivity.
  - intros word Hy. unfold makePlural. rewrite Hy. reflexivity.
  - intros method operation. vm_compute. reflexivity.
  - intros [|]; vm_compute; reflexivity.
Qed.

Lemma C9_witness :
  flagged "Account" = true
  /\ (isParamSegment "Account" = false /\ isVersionSegment "Account" = false
      /\ In (strings.ToLower "Account") singularWords)
  /\ strings.HasSuffix "bus" "y" = false
  /\ makePlural "bus" = "buses".
Proof.
  split; [reflexivity|]. split.
  - exact (proj1 (proj1 (proj2 C9_collection_names_plural) "Account") eq_refl).
  - split; [reflexivity|].
    exact (proj1 (proj2 (proj2 (proj2 C9_collection_names_plural))) "bus" eq_refl).
Defined.

Lemma walkDir_unfold {St} (fn : string -> string -> bool -> bool -> option error -> St -> St * walkSignal)
    path name d st :
  walkDir fn path name d st
  = let '(st, sig) := fn path name (IsDir d) (IsRegular d) None st in
    match sig with
    | wsNil =>
        match d with
        | FDir entries => walkEntries fn path entries st
        | FDirUnreadable =>
            let '(st, sig) := fn path name true false (Some (errOS "open" path)) st in
            match sig with
            | wsErr e => (st, wsErr e)
            | _ => (st, wsNil)
            end
        | _ => (st, wsNil)
        end
    | wsSkipDir => (st, if IsDir d then wsNil else wsSkipDir)
    | wsErr e => (st, wsErr e)
    end.
Proof.
  destruct d as [content| |entries|]; try reflexivity.
  cbn [walkDir]. destruct (fn path name _ _ None st) as [st1 [| |e]]; try reflexivity.
  generalize st1. clear.
  induction entries as [|[name1 d1] rest IH]; intros st1; [reflexivity|].
  cbn [walkEntries].
  destruct (walkDir fn (filepath.Join path name1) name1 d1 st1) as [st2 [| |e]];
    [apply IH | reflexivity | reflexivity].
Qed.

Lemma yamlWalkFn_err root path name isDir isRegular err files files' e :
  yamlWalkFn root path name isDir isRegular err files = (files', wsErr e) ->
  err = Some e.
Proof.
  unfold yamlWalkFn. destruct err as [e0|].
  - intros [= _ ->]. reflexivity.
  - destruct (_ && _); [discriminate|]. destruct (_ && _); discriminate.
Qed.

Lemma walkDir_yaml_err root d :
  forall path name files files' e,
    walkDir (yamlWalkFn root) path name d files = (files', wsErr e) -> isOSError e.
Proof.
  induction d as [content| |entries IH|] using fsnode_tree_ind;
    intros path name files files' e; rewrite walkDir_unfold.
  - destruct (yamlWalkFn _ _ _ _ _ None files) as [f1 [| |e1]] eqn:E; try discriminate.
    apply yamlWalkFn_err in E. discriminate.
  - destruct (yamlWalkFn _ _ _ _ _ None files) as [f1 [| |e1]] eqn:E; try discriminate.
    apply yamlWalkFn_err in E. discriminate.
  - destruct (yamlWalkFn _ _ _ _ _ None files) as [f1 [| |e1]] eqn:E;
      [| discriminate | apply yamlWalkFn_err in E; discriminate].
    clear E. revert f1.
    induction IH as [|[name1 d1] rest Hd1 _ IHrest]; intros f1; [discriminate|].
    cbn [walkEntries].
    destruct (walkDir _ _ name1 d1 f1) as [f2 [| |e2]] eqn:E2.
    + apply IHrest.
    + discriminate.
    + intros [= _ <-]. exact (Hd1 _ _ _ _ _ E2).
  - destruct (yamlWalkFn _ _ _ _ _ None files) as [f1 [| |e1]] eqn:E;
      [| discriminate | apply yamlWalkFn_err in E; discriminate].
    destruct (yamlWalkFn _ _ _ _ _ (Some _) f1) as [f2 [| |e2]] eqn:E2; try discriminate.
    apply yamlWalkFn_err in E2. injection E2 as <-. intros [= _ <-]. exact I.
Qed.

Lemma listYAMLFiles_err fs root files e :
  listYAMLFiles fs root = (files, Some e) -> isOSError e.
Proof.
  unfold listYAMLFiles, WalkDir.
  destruct (fsLookup fs root) as [d|]; [|discriminate].
  destruct (IsDir d); [|discriminate].
  destruct (walkDir _ _ _ d []) as [f1 [| |e1]] eqn:E; try discriminate.
  intros [= _ <-]. exact (walkDir_yaml_err _ _ _ _ _ _ _ E).
Qed.

(** ** The run of the engine *)

Lemma quietStep_refl st : quietStep st st.
Proof.
  repeat split. exists []. split; [symmetry; apply app_nil_r | constructor].
Qed.

Lemma quietStep_log st e : passed e -> quietStep st (logEvent st e).
Proof.
  intros He. repeat split. exists [e]. split; [reflexivity|]. repeat constructor. exact He.
Qed.

Lemma quietStep_trans st1 st2 st3 :
  quietStep st1 st2 -> quietStep st2 st3 -> quietStep st1 st3.
Proof.
  intros (Hv1 & Hh1 & pre1 & Ht1 & Hp1) (Hv2 & Hh2 & pre2 & Ht2 & Hp2).
  split; [congruence|]. split; [congruence|].
  exists (pre1 ++ pre2). split.
  - rewrite Ht2, Ht1, <- app_assoc. reflexivity.
  - apply Forall_app. split; assumption.
Qed.

Lemma quiet_haltStep st1 st2 st3 :
  quietStep st1 st2 -> haltStep st2 st3 -> haltStep st1 st3.
Proof.
  intros (Hv1 & Hh1 & pre1 & Ht1 & Hp1) (r & m & pre2 & Ht2 & Hp2 & Hr & Hm & Hs).
  exists r, m, (pre1 ++ pre2). repeat split; trivial.
  - rewrite Ht2, Ht1, <- !app_assoc. reflexivity.
  - apply Forall_app. split; assumption.
  - rewrite Hr, Hv1. reflexivity.
Qed.

Lemma runRules_stop rules apiPath method operation :
  forall st st' err,
    StopOnError (vcfg st) = true ->
    runRules rules apiPath method operation st = (st', err) ->
    (err = None /\ quietStep st st') \/ (err = Some errStopped /\ haltStep st st').
Proof.
  induction rules as [|rule rest IH]; intros st st' err Hstop; cbn [runRules].
  - intros [= <- <-]. left. split; [reflexivity | apply quietStep_refl].
  - destruct (ValidationRule.Validate rule apiPath method operation) as [msg|] eqn:Hout.
    + cbn [recordResult logEvent vcfg StopOnError]. rewrite Hstop.
      intros [= <- <-]. right. split; [reflexivity|].
      eexists {| Path := apiPath; Method := strings.ToUpper method;
                 Rule := ValidationRule.Name rule; Message := msg; Severity := "error" |},
        method, [].
      cbn. repeat split. constructor.
    + intros Hrun. apply IH in Hrun; [|exact Hstop].
      assert (Hq : quietStep st
                (logEvent st (evRule apiPath method (ValidationRule.Name rule) None)))
        by (apply quietStep_log; exact I).
      destruct Hrun as [[-> Hq']|[-> Hh]].
      * left. split; [reflexivity | eapply quietStep_trans; eassumption].
      * right. split; [reflexivity | eapply quiet_haltStep; eassumption].
Qed.

Lemma runMethods_stop rules apiPath pathSpec :
  forall st st' err,
    StopOnError (vcfg st) = true ->
    runMethods rules apiPath pathSpec st = (st', err) ->
    (err = None /\ quietStep st st') \/ (err = Some errStopped /\ haltStep st st').
Proof.
  induction pathSpec as [|[method [operation|]] rest IH]; intros st st' err Hstop;
    cbn [runMethods].
  - intros [= <- <-]. left. split; [reflexivity | apply quietStep_refl].
  - destruct (runRules rules apiPath method operation st) as [st1 [e|]] eqn:Hrules;
      apply runRules_stop in Hrules; trivial;
      destruct Hrules as [[He Hq]|[He Hh]]; try discriminate.
    + intros [= <- <-]. right. split; assumption.
    + intros Hrun. apply IH in Hrun.
      * destruct Hrun as [[-> Hq']|[-> Hh]].
        -- left. split; [reflexivity | eapply quietStep_trans; eassumption].
        -- right. split; [reflexivity | eapply quiet_haltStep; eassumption].
      * destruct Hq as [-> _]. exact Hstop.
  - apply IH. exact Hstop.
Qed.

Lemma runFiles_stop Unmarshal fs cfg rules paths :
  forall st st' err,
    StopOnError (vcfg st) = true ->
    runFiles Unmarshal fs cfg rules paths st = (st', err) ->
    ((err = None \/ exists e, err = Some e /\ isWrapped e) /\ quietStep st st')
    \/ (err = Some errStopped /\ haltStep st st').
Proof.
  induction paths as [|pathFile rest IH]; intros st st' err Hstop; cbn [runFiles].
  - intros [= <- <-]. left. split; [left; reflexivity | apply quietStep_refl].
  - destruct (String.eqb _ ""); [apply IH; exact Hstop|].
    assert (Hq1 : quietStep st (logEvent st (evRead pathFile)))
      by (apply quietStep_log; exact I).
    destruct (ReadFile fs pathFile) as [e|content].
    { intros [= <- <-]. left. split; [right; eexists; split; [reflexivity | exact I] | exact Hq1]. }
    assert (Hq2 : quietStep st (logEvent (logEvent st (evRead pathFile)) (evParse pathFile)))
      by (eapply quietStep_trans; [exact Hq1 | apply quietStep_log; exact I]).
    destruct (Unmarshal content) as [e|pathSpec].
    { intros [= <- <-]. left. split; [right; eexists; split; [reflexivity | exact I] | exact Hq2]. }
    destruct (runMethods rules _ pathSpec _) as [st1 [e|]] eqn:Hm;
      apply runMethods_stop in Hm; trivial;
      destruct Hm as [[He Hq]|[He Hh]]; try discriminate.
    + intros [= <- <-]. right. split; [exact He | eapply quiet_haltStep; eassumption].
    + intros Hrun. apply IH in Hrun.
      * destruct Hrun as [[He' Hq']|[-> Hh]].
        -- left. split; [exact He'|].
           eapply quietStep_trans; [exact Hq2 | eapply quietStep_trans; eassumption].
        -- right. split; [reflexivity|].
           eapply quiet_haltStep; [eapply quietStep_trans; eassumption | exact Hh].
      * destruct Hq as [-> _]. exact Hstop.
Qed.

(** C8: with a preset name that is not in the preset table the run returns
    the unknown-preset error at once: the trace is the one handed in (no
    listing, no read, no decoding, no rule evaluation) and the configuration
    is untouched, whatever the file system holds. *)
Theorem C8_unknown_preset_immediate :
  forall Unmarshal fs cfg validationCfg tr,
    ValidationPresets !! Preset validationCfg = None ->
    validatePaths Unmarshal fs cfg validationCfg tr
    = ({| vcfg := validationCfg; hasErrors := false; trace := tr |},
       Some (errNew ("unknown validation preset: " +:+ Preset validationCfg))).
Proof.
  intros Unmarshal fs cfg validationCfg tr Hnone.
  unfold validatePaths. rewrite Hnone. reflexivity.
Qed.

Lemma C8_witness :
  ValidationPresets !! Preset (vcfgOf "strict" true) = None
  /\ validatePaths exampleUnmarshal (usersFS "get: {}" []) apiCfg (vcfgOf "strict" true) []
     = ({| vcfg := vcfgOf "strict" true; hasErrors := false; trace := [] |},
        Some (errNew "unknown validation preset: strict")).
Proof.
  split; [vm_compute; reflexivity|].
  apply (C8_unknown_preset_immediate exampleUnmarshal (usersFS "get: {}" []) apiCfg
           (vcfgOf "strict" true) []).
  vm_compute. reflexivity.
Defined.

Lemma growStep_refl st : growStep st st.
Proof.
  exists []. rewrite app_nil_r, orb_false_r. repeat split.
Qed.

Lemma growStep_log st e : growStep st (logEvent st e).
Proof.
  exists []. cbn. rewrite app_nil_r, orb_false_r. repeat split.
Qed.

Lemma growStep_trans st1 st2 st3 : growStep st1 st2 -> growStep st2 st3 -> growStep st1 st3.
Proof.
  intros (rs1 & Hr1 & Hs1 & Hh1) (rs2 & Hr2 & Hs2 & Hh2).
  exists (rs1 ++ rs2). split; [|split].
  - rewrite Hr2, Hr1, <- app_assoc. reflexivity.
  - congruence.
  - rewrite Hh2, Hh1. destruct rs1, rs2, (hasErrors st1); reflexivity.
Qed.

Lemma runRules_nostop rules apiPath method operation :
  forall st st' err,
    StopOnError (vcfg st) = false ->
    runRules rules apiPath method operation st = (st', err) ->
    err = None /\ growStep st st'.
Proof.
  induction rules as [|rule rest IH]; intros st st' err Hstop; cbn [runRules].
  - intros [= <- <-]. split; [reflexivity | apply growStep_refl].
  - destruct (ValidationRule.Validate rule apiPath method operation) as [msg|].
    + cbn [recordResult logEvent vcfg StopOnError]. rewrite Hstop.
      intros Hrun. apply IH in Hrun; [|exact Hstop].
      destruct Hrun as [-> Hg]. split; [reflexivity|].
      refine (growStep_trans _ _ _ _ Hg).
      eexists [_]. cbn. rewrite orb_true_r. repeat split.
    + intros Hrun. apply IH in Hrun; [|exact Hstop].
      destruct Hrun as [-> Hg]. split; [reflexivity|].
      refine (growStep_trans _ _ _ _ Hg). exists []. cbn.
      rewrite app_nil_r, orb_false_r. repeat split.
Qed.

Lemma runMethods_nostop rules apiPath pathSpec :
  forall st st' err,
    StopOnError (vcfg st) = false ->
    runMethods rules apiPath pathSpec st = (st', err) ->
    err = None /\ growStep st st'.
Proof.
  induction pathSpec as [|[method [operation|]] rest IH]; intros st st' err Hstop;
    cbn [runMethods].
  - intros [= <- <-]. split; [reflexivity | apply growStep_refl].
  - destruct (runRules rules apiPath method operation st) as [st1 e] eqn:Hrules.
    apply runRules_nostop in Hrules; [|exact Hstop]. destruct Hrules as [-> Hg].
    intros Hrun. apply IH in Hrun.
    + destruct Hrun as [-> Hg']. split; [reflexivity | eapply growStep_trans; eassumption].
    + destruct Hg as (rs & _ & -> & _). exact Hstop.
  - apply IH. exact Hstop.
Qed.

Lemma runFiles_nostop Unmarshal fs cfg rules paths :
  forall st st' err,
    StopOnError (vcfg st) = false ->
    runFiles Unmarshal fs cfg rules paths st = (st', err) ->
    (err = None \/ exists e, err = Some e /\ isWrapped e) /\ growStep st st'.
Proof.
  induction paths as [|pathFile rest IH]; intros st st' err Hstop; cbn [runFiles].
  - intros [= <- <-]. split; [left; reflexivity | apply growStep_refl].
  - destruct (String.eqb _ ""); [apply IH; exact Hstop|].
    pose proof growStep_log as Hg0.
    destruct (ReadFile fs pathFile) as [e|content].
    { intros [= <- <-]. split; [right; eexists; split; [reflexivity | exact I] | apply Hg0]. }
    destruct (Unmarshal content) as [e|pathSpec].
    { intros [= <- <-]. split; [right; eexists; split; [reflexivity | exact I]|].
      eapply growStep_trans; apply Hg0. }
    destruct (runMethods rules _ pathSpec _) as [st1 e] eqn:Hm.
    apply runMethods_nostop in Hm; [|exact Hstop]. destruct Hm as [-> Hg].
    intros Hrun. apply IH in Hrun.
    + destruct Hrun as [He Hg']. split; [exact He|].
      eapply growStep_trans; [apply Hg0|].
      eapply growStep_trans; [apply Hg0|].
      eapply growStep_trans; eassumption.
    + destruct Hg as (rs & _ & -> & _). exact Hstop.
Qed.

(** C7: with stop-on-error the run never ends in the error of a completed
    run with violations.  Either it ends in the stopped-early error, and then
    exactly one result was recorded, for the last rule evaluation of the
    trace, every evaluation before it having passed; or it ends otherwise
    and no result was recorded.  Without stop-on-error the stopped-early
    error is never returned, and the error of a completed run comes with at
    least one result.  The restful preset on /v1/users whose GET operation
    lacks an operationId records the one result operation-id-present and,
    with stop-on-error, leaves the next fragment unread. *)
Theorem C7_stop_on_first_violation :
  (forall Unmarshal fs cfg validationCfg tr st err,
     StopOnError validationCfg = true ->
     validatePaths Unmarshal fs cfg validationCfg tr = (st, err) ->
     err <> Some errFailed
     /\ ((err = Some errStopped
          /\ exists r m pre,
               Results (vcfg st) = Results validationCfg ++ [r]
               /\ trace st = tr ++ pre ++ [evRule (Path r) m (Rule r) (Some (Message r))]
               /\ Forall passed pre
               /\ Method r = strings.ToUpper m /\ Severity r = "error")
         \/ (err <> Some errStopped
             /\ Results (vcfg st) = Results validationCfg
             /\ exists pre, trace st = tr ++ pre /\ Forall passed pre)))
  /\ (forall Unmarshal fs cfg validationCfg tr st err,
        StopOnError validationCfg = false ->
        validatePaths Unmarshal fs cfg validationCfg tr = (st, err) ->
        err <> Some errStopped
        /\ (err = Some errFailed ->
            exists r rs, Results (vcfg st) = Results validationCfg ++ r :: rs)
        /\ (err = None -> Results (vcfg st) = Results validationCfg))
  /\ errStopped <> errFailed
  /\ (let '(st, err) := validatePaths exampleUnmarshal
                          (usersFS "get: {summary: List users}" brokenFragment) apiCfg
                          (vcfgOf "restful" true) [] in
      (Results (vcfg st), err, trace st))
     = ([ {| Path := "/v1/users"; Method := "GET"; Rule := "operation-id-present";
             Message := "operation should have operationId"; Severity := "error" |} ],
        Some errStopped,
        [ evList "/api/paths"; evRead "/api/paths/v1/users.yaml";
          evParse "/api/paths/v1/users.yaml";
          evRule "/v1/users" "get" "http-methods-rest" None;
          evRule "/v1/users" "get" "operation-id-present"
            (Some "operation should have operationId") ])
  /\ (let '(st, err) := validatePaths exampleUnmarshal
                          (usersFS "get: {summary: List users}" []) apiCfg
                          (vcfgOf "restful" false) [] in
      (map Rule (Results (vcfg st)), err, length (trace st)))
     = (["operation-id-present"], Some errFailed, 7).
Proof.
  split; [|split; [|split; [|split]]].
  - intros Unmarshal fs cfg validationCfg tr st err Hstop. unfold validatePaths.
    destruct (ValidationPresets !! Preset validationCfg) as [preset|].
    2:{ intros [= <- <-]. split; [discriminate|]. right.
        split; [discriminate|]. split; [reflexivity|].
        exists []. split; [symmetry; apply app_nil_r | constructor]. }
    destruct (listYAMLFiles fs (PathsDir cfg)) as [paths [e|]] eqn:Hlist.
    { apply listYAMLFiles_err in Hlist. intros [= <- <-].
      split; [intros [= ->]; exact Hlist|]. right.
      split; [intros [= ->]; exact Hlist|]. split; [reflexivity|].
      exists [evList (PathsDir cfg)]. split; [reflexivity | repeat constructor]. }
    match goal with |- context [runFiles _ _ _ _ _ ?s] => set (st0 := s) end.
    assert (Hq0 : quietStep {| vcfg := validationCfg; hasErrors := false; trace := tr |} st0)
      by (apply quietStep_log; exact I).
    destruct (runFiles _ _ _ _ _ st0) as [st1 [e|]] eqn:Hrun;
      apply runFiles_stop in Hrun; trivial.
    + intros [= <- <-]. destruct Hrun as [[[He|(e0 & [= <-] & Hw)] Hq]|[[= ->] Hh]];
        try discriminate.
      * split; [intros [= ->]; exact Hw|]. right.
        split; [intros [= ->]; exact Hw|].
        destruct (quietStep_trans _ _ _ Hq0 Hq) as (Hv & _ & pre & Ht & Hp).
        split; [rewrite Hv; reflexivity | exists pre; split; assumption].
      * split; [discriminate|]. left. split; [reflexivity|].
        destruct (quiet_haltStep _ _ _ Hq0 Hh) as (r & m & pre & Ht & Hp & Hr & Hm & Hs).
        exists r, m, pre. repeat split; assumption.
    + destruct Hrun as [[_ Hq]|[[=] _]].
      destruct (quietStep_trans _ _ _ Hq0 Hq) as (Hv & Hh & pre & Ht & Hp).
      rewrite Hh. cbn [hasErrors]. intros [= <- <-].
      split; [discriminate|]. right. split; [discriminate|].
      split; [rewrite Hv; reflexivity | exists pre; split; assumption].
  - intros Unmarshal fs cfg validationCfg tr st err Hstop. unfold validatePaths.
    destruct (ValidationPresets !! Preset validationCfg) as [preset|].
    2:{ intros [= <- <-]. repeat split; intros; discriminate. }
    destruct (listYAMLFiles fs (PathsDir cfg)) as [paths [e|]] eqn:Hlist.
    { apply listYAMLFiles_err in Hlist. intros [= <- <-].
      split; [intros [= ->]; destruct Hlist|].
      split; [intros [= ->]; destruct Hlist | intros; discriminate]. }
    destruct (runFiles _ _ _ _ _ _) as [st1 e] eqn:Hrun.
    apply runFiles_nostop in Hrun; [|exact Hstop].
    destruct Hrun as [He (rs & Hr & _ & Hh)]. cbn in Hr, Hh.
    destruct He as [->|(e0 & -> & Hw)].
    + rewrite Hh. destruct rs as [|r rs].
      * intros [= <- <-]. split; [discriminate|]. split; [intros; discriminate|].
        intros _. rewrite Hr. apply app_nil_r.
      * intros [= <- <-]. split; [discriminate|]. split; [|intros; discriminate].
        intros _. exists r, rs. exact Hr.
    + intros [= <- <-].
      split; [intros [= ->]; destruct Hw|].
      split; [intros [= ->]; destruct Hw | intros; discriminate].
  - discriminate.
  - vm_compute. reflexivity.
  - vm_compute. reflexivity.
Qed.

Lemma C7_witness :
  StopOnError (vcfgOf "restful" true) = true
  /\ validatePaths exampleUnmarshal
       (usersFS "get: {summary: List users}" brokenFragment) apiCfg
       (vcfgOf "restful" true) [] = (stoppedRun, Some errStopped)
  /\ Some errStopped <> Some errFailed.
Proof.
  split; [reflexivity|]. split; [vm_compute; reflexivity|].
  apply (proj1 C7_stop_on_first_violation exampleUnmarshal
           (usersFS "get: {summary: List users}" brokenFragment) apiCfg
           (vcfgOf "restful" true) [] stoppedRun (Some errStopped)).
  - reflexivity.
  - vm_compute. reflexivity.
Defined.

(** ** Reference rewriting *)

Lemma HasPrefix_app (p s : string) : strings.HasPrefix (p +:+ s) p = true.
Proof.
  induction p as [|c p IH]; [destruct s; reflexivity|].
  rewrite str_app_cons. cbn [strings.HasPrefix]. rewrite Ascii.eqb_refl. exact IH.
Qed.

Lemma HasPrefix_split (s p : string) :
  strings.HasPrefix s p = true -> s = p +:+ strings.drop (String.length p) s.
Proof.
  revert s. induction p as [|c p IH]; intros s; [reflexivity|].
  destruct s as [|b s]; [discriminate|]. cbn [strings.HasPrefix].
  intros [Hc Hp]%andb_true_iff. apply Ascii.eqb_eq in Hc. subst b.
  rewrite str_app_cons. cbn [String.length strings.drop]. f_equal. apply IH, Hp.
Qed.

Lemma HasPrefix_take (n : nat) (s p : string) :
  strings.HasPrefix (strings.take n s) p = true -> strings.HasPrefix s p = true.
Proof.
  revert n s. induction p as [|c p IH]; intros n s; [destruct s; reflexivity|].
  destruct n as [|n], s as [|b s]; try discriminate.
  cbn [strings.take strings.HasPrefix].
  intros [Hc Hp]%andb_true_iff. rewrite Hc. exact (IH _ _ Hp).
Qed.

Lemma Index_take (s sub : string) (idx : nat) :
  sub <> "" -> strings.Index s sub = Some idx ->
  strings.Index (strings.take idx s) sub = None.
Proof.
  intros Hsub. revert idx. induction s as [|c s IH]; intros idx.
  - destruct sub; [contradiction | discriminate].
  - cbn [strings.Index].
    destruct (strings.HasPrefix (String c s) sub) eqn:Hp.
    + intros [= <-]. destruct sub; [contradiction | reflexivity].
    + destruct (strings.Index s sub) as [k|] eqn:Hk; [|discriminate].
      intros [= <-]. cbn [strings.take strings.Index].
      destruct (strings.HasPrefix (String c (strings.take k s)) sub) eqn:Hp'.
      * apply (HasPrefix_take (S k) (String c s)) in Hp'. congruence.
      * rewrite (IH k eq_refl). reflexivity.
Qed.

Lemma Index_split (s sub : string) (idx : nat) :
  strings.Index s sub = Some idx ->
  s = strings.take idx s +:+ sub +:+ strings.drop (idx + String.length sub) s.
Proof.
  revert idx. induction s as [|c s IH]; intros idx; cbn [strings.Index].
  - destruct (strings.HasPrefix "" sub) eqn:Hp; [|discriminate].
    intros [= <-]. exact (HasPrefix_split _ _ Hp).
  - destruct (strings.HasPrefix (String c s) sub) eqn:Hp.
    + intros [= <-]. exact (HasPrefix_split _ _ Hp).
    + destruct (strings.Index s sub) as [k|] eqn:Hk; [|discriminate].
      intros [= <-]. cbn [strings.take strings.drop Nat.add].
      rewrite str_app_cons. f_equal. exact (IH k eq_refl).
Qed.

(** The marker does not begin inside [left] when [left] holds none. *)
Lemma Index_marker (left after : string) :
  strings.Index left "$ref:" = None ->
  strings.Index (left +:+ "$ref:" +:+ after) "$ref:" = Some (String.length left).
Proof.
  induction left as [|c l IH].
  - intros _. rewrite str_app_nil_l. reflexivity.
  - cbn [strings.Index].
    destruct (strings.HasPrefix (String c l) "$ref:") eqn:Hp; [discriminate|].
    destruct (strings.Index l "$ref:") eqn:Hl; [discriminate|]. intros _.
    rewrite str_app_cons. cbn [strings.Index String.length].
    rewrite (IH eq_refl).
    assert (Hno : strings.HasPrefix (String c (l +:+ "$ref:" +:+ after)) "$ref:" = false).
    { clear IH Hl.
      destruct l as [|c1 [|c2 [|c3 [|c4 l]]]]; cbn in Hp |- *; try exact Hp;
        repeat match goal with
               | |- context [Ascii.eqb ?a ?b] => destruct (Ascii.eqb a b)
               end; reflexivity. }
    rewrite Hno. reflexivity.
Qed.

Lemma TrimRightFunc_keep f c s :
  f c = false -> strings.TrimRightFunc f (String c s) = String c (strings.TrimRightFunc f s).
Proof.
  intros Hc. cbn [strings.TrimRightFunc]. rewrite Hc.
  destruct (strings.TrimRightFunc f s); reflexivity.
Qed.

Lemma TrimRightFunc_cons f c s b t :
  strings.TrimRightFunc f s = String b t ->
  strings.TrimRightFunc f (String c s) = String c (String b t).
Proof. intros H. cbn [strings.TrimRightFunc]. rewrite H. reflexivity. Qed.

Lemma TrimRightFunc_idem f s :
  strings.TrimRightFunc f (strings.TrimRightFunc f s) = strings.TrimRightFunc f s.
Proof.
  induction s as [|c s IH]; [reflexivity|].
  destruct (strings.TrimRightFunc f s) as [|b t] eqn:Ht.
  - cbn [strings.TrimRightFunc]. rewrite Ht.
    destruct (f c) eqn:Hc; [reflexivity|]. cbn. rewrite Hc. reflexivity.
  - rewrite (TrimRightFunc_cons f c s b t Ht).
    apply TrimRightFunc_cons. exact IH.
Qed.

Lemma TrimLeftFunc_idem f s :
  strings.TrimLeftFunc f (strings.TrimLeftFunc f s) = strings.TrimLeftFunc f s.
Proof.
  induction s as [|c s IH]; [reflexivity|].
  cbn [strings.TrimLeftFunc]. destruct (f c) eqn:Hc; [exact IH|].
  cbn [strings.TrimLeftFunc]. rewrite Hc. reflexivity.
Qed.

Lemma TrimLeft_TrimRight f s :
  strings.TrimLeftFunc f (strings.TrimRightFunc f s)
  = strings.TrimRightFunc f (strings.TrimLeftFunc f s).
Proof.
  induction s as [|c s IH]; [reflexivity|].
  destruct (f c) eqn:Hc.
  - cbn [strings.TrimLeftFunc strings.TrimRightFunc]. rewrite Hc, <- IH.
    destruct (strings.TrimRightFunc f s); [reflexivity|].
    cbn [strings.TrimLeftFunc]. rewrite Hc. reflexivity.
  - rewrite TrimRightFunc_keep by exact Hc.
    cbn [strings.TrimLeftFunc]. rewrite Hc.
    rewrite TrimRightFunc_keep by exact Hc. reflexivity.
Qed.

Lemma TrimSpace_idem s : strings.TrimSpace (strings.TrimSpace s) = strings.TrimSpace s.
Proof.
  unfold strings.TrimSpace.
  rewrite TrimLeft_TrimRight, TrimLeftFunc_idem, TrimRightFunc_idem. reflexivity.
Qed.

Lemma TrimSpace_TrimRight s :
  strings.TrimSpace (strings.TrimRightFunc strings.isSpace s) = strings.TrimSpace s.
Proof.
  unfold strings.TrimSpace. rewrite TrimLeft_TrimRight, TrimRightFunc_idem. reflexivity.
Qed.

Lemma TrimSpace_keep c s :
  strings.isSpace c = false ->
  strings.TrimSpace (String c s) = String c (strings.TrimRightFunc strings.isSpace s).
Proof.
  intros Hc. unfold strings.TrimSpace. cbn [strings.TrimLeftFunc]. rewrite Hc.
  apply TrimRightFunc_keep, Hc.
Qed.

Lemma stripQuotes_keep s c t :
  strings.TrimSpace s = String c t ->
  Ascii.eqb c dquote = false -> Ascii.eqb c squote = false ->
  stripQuotes s = String c t.
Proof.
  intros Hs Hd Hq. unfold stripQuotes. rewrite Hs.
  destruct (2 <=? _); [|reflexivity].
  change (String.get 0 (String c t)) with (Some c).
  match goal with
  | |- context [String.get ?n ?u] => destruct (String.get n u); [|reflexivity]
  end.
  rewrite Hd, Hq. reflexivity.
Qed.

Lemma drop_add_app (a b : string) (n : nat) :
  strings.drop (String.length a + n) (a +:+ b) = strings.drop n b.
Proof.
  induction a as [|c a IH]; [reflexivity|]. rewrite str_app_cons. exact IH.
Qed.

Lemma rewriteLine_marker sm pm left after :
  strings.Index left "$ref:" = None ->
  rewriteLine sm pm (left +:+ "$ref:" +:+ after)
  = rewriteAt sm pm (left +:+ "$ref:" +:+ after) left (strings.TrimSpace after).
Proof.
  intros Hleft. unfold rewriteLine.
  rewrite (Index_marker left after Hleft), str_take_app, drop_add_app. reflexivity.
Qed.

Lemma refValue_marker left after :
  strings.Index left "$ref:" = None ->
  refValue (left +:+ "$ref:" +:+ after) = Some (stripQuotes (strings.TrimSpace after)).
Proof.
  intros Hleft. unfold refValue.
  rewrite (Index_marker left after Hleft), drop_add_app. reflexivity.
Qed.

(** The line behind a trimmed value that starts with a byte which is
    neither blank nor a quote. *)
Lemma value_keep c t after :
  strings.isSpace c = false ->
  Ascii.eqb c dquote = false -> Ascii.eqb c squote = false ->
  strings.TrimSpace after = String c t ->
  stripQuotes (strings.TrimSpace after) = String c t.
Proof.
  intros Hc Hd Hq Ht. apply stripQuotes_keep; trivial.
  rewrite TrimSpace_idem. exact Ht.
Qed.

Lemma rewriteAt_value sm pm ln left rest :
  stripQuotes rest <> "" ->
  rewriteAt sm pm ln left rest
  = let val := stripQuotes rest in
    if strings.HasPrefix val "#/components/" then ln
    else if strings.HasPrefix (strings.ToLower val) "schema:"
         then left +:+ "$ref: #/components/schemas/"
              +:+ pascalCase (strings.TrimSpace (strings.drop 7 val))
         else if strings.HasPrefix (strings.ToLower val) "param:"
              then left +:+ "$ref: #/components/parameters/"
                   +:+ pascalCase (strings.TrimSpace (strings.drop 6 val))
              else rewriteAt sm pm ln left rest.
Proof.
  intros Hval. unfold rewriteAt.
  destruct (String.eqb_spec rest "") as [->|_]; [exfalso; apply Hval; reflexivity|].
  cbn zeta.
  destruct (strings.HasPrefix (stripQuotes rest) "#/components/"); [reflexivity|].
  destruct (strings.HasPrefix _ "schema:"); [reflexivity|].
  destruct (strings.HasPrefix _ "param:"); reflexivity.
Qed.

Lemma rewriteLine_schema sm pm ln idx name :
  strings.Index ln "$ref:" = Some idx ->
  refValue ln = Some ("schema:" +:+ name) ->
  rewriteLine sm pm ln
  = strings.take idx ln +:+ "$ref: #/components/schemas/"
    +:+ pascalCase (strings.TrimSpace name).
Proof.
  intros Hidx. unfold refValue, rewriteLine. rewrite Hidx.
  cbn [String.length]. intros [= Hval].
  rewrite rewriteAt_value by (rewrite Hval; discriminate).
  cbn zeta. rewrite Hval. reflexivity.
Qed.

Lemma rewriteLine_param sm pm ln idx name :
  strings.Index ln "$ref:" = Some idx ->
  refValue ln = Some ("param:" +:+ name) ->
  rewriteLine sm pm ln
  = strings.take idx ln +:+ "$ref: #/components/parameters/"
    +:+ pascalCase (strings.TrimSpace name).
Proof.
  intros Hidx. unfold refValue, rewriteLine. rewrite Hidx.
  cbn [String.length]. intros [= Hval].
  rewrite rewriteAt_value by (rewrite Hval; discriminate).
  cbn zeta. rewrite Hval. reflexivity.
Qed.

(** C5: a line whose reference value, trimmed and unquoted, is
    [schema:<name>] becomes the text before the marker followed by
    [$ref: #/components/schemas/<Name>], and one whose value is
    [param:<name>] becomes that text followed by
    [$ref: #/components/parameters/<Name>], where [<Name>] is the PascalCase
    form of the trimmed name; in particular for a line written
    [left $ref: schema:<name>].  So schema:user-account yields
    [$ref: #/components/schemas/UserAccount] and param:user-id yields
    [$ref: #/components/parameters/UserId]. *)
Theorem C5_pseudo_references :
  (forall sm pm ln idx name,
     strings.Index ln "$ref:" = Some idx ->
     refValue ln = Some ("schema:" +:+ name) ->
     rewriteLine sm pm ln
     = strings.take idx ln +:+ "$ref: #/components/schemas/"
       +:+ pascalCase (strings.TrimSpace name))
  /\ (forall sm pm ln idx name,
        strings.Index ln "$ref:" = Some idx ->
        refValue ln = Some ("param:" +:+ name) ->
        rewriteLine sm pm ln
        = strings.take idx ln +:+ "$ref: #/components/parameters/"
          +:+ pascalCase (strings.TrimSpace name))
  /\ (forall sm pm left name,
     strings.Index left "$ref:" = None ->
     rewriteLine sm pm (left +:+ "$ref: schema:" +:+ name)
     = left +:+ "$ref: #/components/schemas/" +:+ pascalCase (strings.TrimSpace name))
  /\ (forall sm pm left name,
        strings.Index left "$ref:" = None ->
        rewriteLine sm pm (left +:+ "$ref: param:" +:+ name)
        = left +:+ "$ref: #/components/parameters/" +:+ pascalCase (strings.TrimSpace name))
  /\ (forall sm pm,
        rewriteRefs "$ref: schema:user-account" sm pm = "$ref: #/components/schemas/UserAccount")
  /\ (forall sm pm,
        rewriteRefs "$ref: param:user-id" sm pm = "$ref: #/components/parameters/UserId")
  /\ (forall sm pm,
        rewriteRefs ("schema:" +:+ nl +:+ "  $ref: schema:user-account" +:+ nl
                     +:+ "  - $ref: param:user-id" +:+ nl) sm pm
        = "schema:" +:+ nl +:+ "  $ref: #/components/schemas/UserAccount" +:+ nl
          +:+ "  - $ref: #/components/parameters/UserId" +:+ nl).
Proof.
  split; [exact rewriteLine_schema|]. split; [exact rewriteLine_param|].
  split; [|split; [|split; [|split]]].
  - intros sm pm left name Hleft.
    change (left +:+ "$ref: schema:" +:+ name)
      with (left +:+ "$ref:" +:+ String " " (String "s" ("chema:" +:+ name))).
    rewrite (rewriteLine_marker sm pm left _ Hleft).
    assert (Hrest : strings.TrimSpace (String " " (String "s" ("chema:" +:+ name)))
                    = String "s" ("chema:" +:+ strings.TrimRightFunc strings.isSpace name)).
    { unfold strings.TrimSpace. cbn [strings.TrimLeftFunc strings.isSpace].
      rewrite !str_app_cons, str_app_nil_l.
      rewrite !TrimRightFunc_keep by reflexivity. reflexivity. }
    unfold rewriteAt.
    rewrite (value_keep "s" _ _ eq_refl eq_refl eq_refl Hrest), Hrest.
    rewrite !str_app_cons, str_app_nil_l.
    cbn [String.eqb strings.HasPrefix strings.ToLower strings.mapBytes String.length
         strings.drop Ascii.eqb andb Bool.eqb].
    change (strings.HasPrefix _ "") with true. cbn iota.
    rewrite TrimSpace_TrimRight. reflexivity.
  - intros sm pm left name Hleft.
    change (left +:+ "$ref: param:" +:+ name)
      with (left +:+ "$ref:" +:+ String " " (String "p" ("aram:" +:+ name))).
    rewrite (rewriteLine_marker sm pm left _ Hleft).
    assert (Hrest : strings.TrimSpace (String " " (String "p" ("aram:" +:+ name)))
                    = String "p" ("aram:" +:+ strings.TrimRightFunc strings.isSpace name)).
    { unfold strings.TrimSpace. cbn [strings.TrimLeftFunc strings.isSpace].
      rewrite !str_app_cons, str_app_nil_l.
      rewrite !TrimRightFunc_keep by reflexivity. reflexivity. }
    unfold rewriteAt.
    rewrite (value_keep "p" _ _ eq_refl eq_refl eq_refl Hrest), Hrest.
    rewrite !str_app_cons, str_app_nil_l.
    cbn [String.eqb strings.HasPrefix strings.ToLower strings.mapBytes String.length
         strings.drop Ascii.eqb andb Bool.eqb].
    change (strings.HasPrefix _ "") with true. cbn iota.
    rewrite TrimSpace_TrimRight. reflexivity.
  - intros sm pm. vm_compute. reflexivity.
  - intros sm pm. vm_compute. reflexivity.
  - intros sm pm. vm_compute. reflexivity.
Qed.

Lemma C5_witness :
  strings.Index "  - " "$ref:" = None
  /\ rewriteLine ∅ ∅ "  - $ref: schema:user-account  "
     = "  - $ref: #/components/schemas/UserAccount".
Proof.
  split; [reflexivity|].
  exact (proj1 (proj2 (proj2 C5_pseudo_references)) ∅ ∅ "  - " "user-account  " eq_refl).
Defined.

(** *** Lines that are already canonical *)

Lemma canonical_fixed sm pm ln : canonical ln -> rewriteLine sm pm ln = ln.
Proof.
  intros (val & Hval & Hpre). unfold refValue in Hval. unfold rewriteLine.
  destruct (strings.Index ln "$ref:") as [idx|]; [|reflexivity].
  injection Hval as Hval. subst val. unfold rewriteAt.
  destruct (String.eqb _ ""); [reflexivity|].
  cbn [String.length] in Hpre |- *. rewrite Hpre. reflexivity.
Qed.

Lemma canonical_pointer left tail :
  strings.Index left "$ref:" = None ->
  canonical (left +:+ "$ref: #/components/" +:+ tail).
Proof.
  intros Hleft.
  change (left +:+ "$ref: #/components/" +:+ tail)
    with (left +:+ "$ref:" +:+ String " " (String "#" ("/components/" +:+ tail))).
  assert (Hrest : strings.TrimSpace (String " " (String "#" ("/components/" +:+ tail)))
                  = String "#" ("/components/" +:+ strings.TrimRightFunc strings.isSpace tail)).
  { unfold strings.TrimSpace. cbn [strings.TrimLeftFunc strings.isSpace].
    rewrite !str_app_cons, str_app_nil_l.
    rewrite !TrimRightFunc_keep by reflexivity. reflexivity. }
  eexists. split.
  - rewrite (refValue_marker left _ Hleft).
    rewrite (value_keep "#" _ _ eq_refl eq_refl eq_refl Hrest). reflexivity.
  - apply (HasPrefix_app "#/components/").
Qed.

Lemma rewriteAt_cases sm pm ln left rest :
  rewriteAt sm pm ln left rest = ln
  \/ exists tail, rewriteAt sm pm ln left rest = left +:+ "$ref: #/components/" +:+ tail.
Proof.
  unfold rewriteAt.
  destruct (String.eqb rest ""); [left; reflexivity|].
  destruct (strings.HasPrefix (stripQuotes rest) "#/components/"); [left; reflexivity|].
  destruct (strings.HasPrefix _ "schema:"); [right; eexists ("schemas/" +:+ _); reflexivity|].
  destruct (strings.HasPrefix _ "param:"); [right; eexists ("parameters/" +:+ _); reflexivity|].
  destruct (reSchemaPath _); [right; eexists ("schemas/" +:+ _); reflexivity|].
  destruct (reParamPath _); [right; eexists ("parameters/" +:+ _); reflexivity|].
  left. reflexivity.
Qed.

Lemma rewriteLine_cases sm pm ln :
  rewriteLine sm pm ln = ln \/ canonical (rewriteLine sm pm ln).
Proof.
  unfold rewriteLine.
  destruct (strings.Index ln "$ref:") as [idx|] eqn:Hidx; [|left; reflexivity].
  destruct (rewriteAt_cases sm pm ln (strings.take idx ln)
              (strings.TrimSpace (strings.drop (idx + String.length "$ref:") ln)))
    as [->|[tail ->]]; [left; reflexivity|].
  right. apply canonical_pointer. apply (Index_take ln "$ref:" idx); [discriminate | exact Hidx].
Qed.

Lemma rewriteLine_idem sm pm ln :
  rewriteLine sm pm (rewriteLine sm pm ln) = rewriteLine sm pm ln.
Proof.
  destruct (rewriteLine_cases sm pm ln) as [H|Hc].
  - rewrite !H. reflexivity.
  - apply canonical_fixed, Hc.
Qed.

(** *** Lines and line feeds *)

Lemma allBytes_app p a b :
  allBytes p (a +:+ b) = allBytes p a && allBytes p b.
Proof.
  induction a as [|c a IH]; [reflexivity|].
  rewrite str_app_cons. cbn [allBytes]. rewrite IH, andb_assoc. reflexivity.
Qed.

Lemma allBytes_impl (p q : ascii -> bool) s :
  (forall c, p c = true -> q c = true) -> allBytes p s = true -> allBytes q s = true.
Proof.
  intros Hpq. induction s as [|c s IH]; [reflexivity|]. cbn [allBytes].
  intros [Hc Hs]%andb_true_iff. rewrite (Hpq c Hc), (IH Hs). reflexivity.
Qed.

Lemma allBytes_take p n s : allBytes p s = true -> allBytes p (strings.take n s) = true.
Proof.
  revert n. induction s as [|c s IH]; intros [|n]; try reflexivity.
  cbn [allBytes strings.take]. intros [Hc Hs]%andb_true_iff. rewrite Hc. exact (IH n Hs).
Qed.

Lemma allBytes_drop p n s : allBytes p s = true -> allBytes p (strings.drop n s) = true.
Proof.
  revert n. induction s as [|c s IH]; intros [|n]; try (intros H; exact H).
  cbn [allBytes strings.drop]. intros [Hc Hs]%andb_true_iff. exact (IH n Hs).
Qed.

Lemma allBytes_TrimLeft p f s :
  allBytes p s = true -> allBytes p (strings.TrimLeftFunc f s) = true.
Proof.
  induction s as [|c s IH]; [reflexivity|]. cbn [strings.TrimLeftFunc].
  destruct (f c); [|intros H; exact H].
  cbn [allBytes]. intros [_ Hs]%andb_true_iff. exact (IH Hs).
Qed.

Lemma allBytes_TrimRight p f s :
  allBytes p s = true -> allBytes p (strings.TrimRightFunc f s) = true.
Proof.
  induction s as [|c s IH]; [reflexivity|]. cbn [strings.TrimRightFunc allBytes].
  intros [Hc Hs]%andb_true_iff. specialize (IH Hs).
  destruct (strings.TrimRightFunc f s).
  - destruct (f c); [reflexivity|]. cbn. rewrite Hc. reflexivity.
  - cbn [allBytes] in IH |- *. rewrite Hc. exact IH.
Qed.

Lemma allBytes_TrimSpace p s :
  allBytes p s = true -> allBytes p (strings.TrimSpace s) = true.
Proof. intros H. apply allBytes_TrimRight, allBytes_TrimLeft, H. Qed.

Lemma allBytes_stripQuotes p s :
  allBytes p s = true -> allBytes p (stripQuotes s) = true.
Proof.
  intros H. apply (allBytes_TrimSpace p) in H. unfold stripQuotes.
  destruct (2 <=? _); [|exact H].
  destruct (String.get 0 _); [|exact H]. destruct (String.get _ _); [|exact H].
  destruct (_ || _); [|exact H]. apply allBytes_take, allBytes_drop, H.
Qed.

Lemma notLF_toUpperByte c : notLF c = true -> notLF (strings.toUpperByte c) = true.
Proof. destruct c as [[] [] [] [] [] [] [] []]; intros H; try exact H; reflexivity. Qed.

Lemma allBytes_ToUpper s :
  allBytes notLF s = true -> allBytes notLF (strings.ToUpper s) = true.
Proof.
  induction s as [|c s IH]; [reflexivity|].
  cbn [allBytes strings.ToUpper strings.mapBytes]. intros [Hc Hs]%andb_true_iff.
  rewrite (notLF_toUpperByte c Hc). exact (IH Hs).
Qed.

Lemma byteString_cases c :
  (asciiByte c = true /\ byteString c = String c "")
  \/ (asciiByte c = false
      /\ allBytes (fun b => negb (asciiByte b)) (byteString c) = true).
Proof.
  destruct c as [[] [] [] [] [] [] [] []];
    first [left; split; reflexivity | right; split; reflexivity].
Qed.

Lemma upperOfByte_cases c :
  (asciiByte c = true /\ upperOfByte c = String (strings.toUpperByte c) "")
  \/ (asciiByte c = false
      /\ allBytes (fun b => negb (asciiByte b)) (upperOfByte c) = true).
Proof.
  destruct c as [[] [] [] [] [] [] [] []];
    first [left; split; reflexivity | right; split; reflexivity].
Qed.

Lemma upperOfFirst_cases c :
  (asciiByte c = true /\ upperOfFirst (String c "") = String (strings.toUpperByte c) "")
  \/ (asciiByte c = false /\ upperOfFirst (String c "") = runeError).
Proof.
  unfold upperOfFirst, asciiByte. destruct (nat_of_ascii c <? 128); [left | right]; split; reflexivity.
Qed.

(** A class of bytes that holds every byte from 128 on and is closed under
    the upper-casing of ASCII letters is kept by the case conversions. *)
Lemma byteString_keeps (p : ascii -> bool) c :
  (forall b, asciiByte b = false -> p b = true) ->
  p c = true -> allBytes p (byteString c) = true.
Proof.
  intros Hhigh Hc. destruct (byteString_cases c) as [[_ ->]|[_ Hall]].
  - cbn. rewrite Hc. reflexivity.
  - refine (allBytes_impl _ _ _ _ Hall). intros b Hb. apply Hhigh, negb_true_iff, Hb.
Qed.

Lemma upperOfByte_keeps (p : ascii -> bool) c :
  (forall b, asciiByte b = false -> p b = true) ->
  (forall b, p b = true -> p (strings.toUpperByte b) = true) ->
  p c = true -> allBytes p (upperOfByte c) = true.
Proof.
  intros Hhigh Hup Hc. destruct (upperOfByte_cases c) as [[_ ->]|[_ Hall]].
  - cbn. rewrite (Hup c Hc). reflexivity.
  - refine (allBytes_impl _ _ _ _ Hall). intros b Hb. apply Hhigh, negb_true_iff, Hb.
Qed.

Lemma kebabLoop_keeps (p : ascii -> bool) s :
  (forall b, asciiByte b = false -> p b = true) ->
  (forall b, p b = true -> p (strings.toUpperByte b) = true) ->
  forall out up,
    allBytes p out = true -> allBytes p s = true ->
    allBytes p (kebabLoop s out up) = true.
Proof.
  intros Hhigh Hup. induction s as [|c s IH]; intros out up Hout; [intros _; exact Hout|].
  cbn [allBytes kebabLoop]. intros [Hc Hs]%andb_true_iff.
  destruct (_ || _); [exact (IH _ _ Hout Hs)|].
  destruct up; apply IH; try exact Hs; rewrite allBytes_app, Hout; cbn [andb].
  - exact (upperOfByte_keeps p c Hhigh Hup Hc).
  - exact (byteString_keeps p c Hhigh Hc).
Qed.

Lemma pascalCase_keeps (p : ascii -> bool) s :
  (forall b, asciiByte b = false -> p b = true) ->
  (forall b, p b = true -> p (strings.toUpperByte b) = true) ->
  allBytes p s = true -> allBytes p (pascalCase s) = true.
Proof.
  intros Hhigh Hup Hs. unfold pascalCase.
  assert (Hk : allBytes p (kebabToCamel s) = true)
    by (apply kebabLoop_keeps; [exact Hhigh | exact Hup | reflexivity | exact Hs]).
  destruct (String.eqb _ ""); [exact Hk|].
  destruct (kebabToCamel s) as [|c rest]; [reflexivity|].
  change (strings.take 1 (String c rest)) with (String c "").
  change (strings.drop 1 (String c rest)) with rest.
  cbn [allBytes] in Hk. apply andb_true_iff in Hk as [Hc Hrest].
  rewrite allBytes_app, Hrest, andb_true_r.
  destruct (upperOfFirst_cases c) as [[_ ->]|[_ ->]].
  - cbn. rewrite (Hup c Hc). reflexivity.
  - cbn. rewrite !Hhigh by reflexivity. reflexivity.
Qed.

Lemma notLF_high b : asciiByte b = false -> notLF b = true.
Proof. destruct b as [[] [] [] [] [] [] [] []]; intros H; try discriminate H; reflexivity. Qed.

Lemma allBytes_kebabLoop s :
  forall out up,
    allBytes notLF out = true -> allBytes notLF s = true ->
    allBytes notLF (kebabLoop s out up) = true.
Proof. exact (kebabLoop_keeps notLF s notLF_high notLF_toUpperByte). Qed.

Lemma allBytes_pascalCase s :
  allBytes notLF s = true -> allBytes notLF (pascalCase s) = true.
Proof. exact (pascalCase_keeps notLF s notLF_high notLF_toUpperByte). Qed.

Lemma Split_not_nil s sep : strings.Split s sep <> [].
Proof.
  destruct s as [|c s]; [discriminate|]. cbn [strings.Split].
  destruct (Ascii.eqb c sep); [discriminate|]. destruct (strings.Split s sep); discriminate.
Qed.

Lemma Split_pieces s sep :
  Forall (fun x => allBytes (fun c => negb (Ascii.eqb c sep)) x = true) (strings.Split s sep).
Proof.
  induction s as [|c s IH]; [repeat constructor|]. cbn [strings.Split].
  destruct (Ascii.eqb c sep) eqn:Hc; [constructor; [reflexivity | exact IH]|].
  destruct (strings.Split s sep) as [|h t]; [repeat constructor; cbn; rewrite Hc; reflexivity|].
  inversion IH as [|? ? Hh Ht]; subst. constructor; [|exact Ht].
  cbn [allBytes]. rewrite Hc, Hh. reflexivity.
Qed.

Lemma Split_app_sep x t sep :
  allBytes (fun c => negb (Ascii.eqb c sep)) x = true ->
  strings.Split (x +:+ String sep t) sep = x :: strings.Split t sep.
Proof.
  induction x as [|c x IH].
  - intros _. rewrite str_app_nil_l. cbn [strings.Split]. rewrite Ascii.eqb_refl. reflexivity.
  - cbn [allBytes]. intros [Hc Hx]%andb_true_iff. apply negb_true_iff in Hc.
    rewrite str_app_cons. cbn [strings.Split]. rewrite Hc, (IH Hx). reflexivity.
Qed.

Lemma Split_none x sep :
  allBytes (fun c => negb (Ascii.eqb c sep)) x = true -> strings.Split x sep = [x].
Proof.
  induction x as [|c x IH]; [reflexivity|].
  cbn [allBytes]. intros [Hc Hx]%andb_true_iff. apply negb_true_iff in Hc.
  cbn [strings.Split]. rewrite Hc, (IH Hx). reflexivity.
Qed.

Lemma Split_Join l sep :
  l <> [] ->
  Forall (fun x => allBytes (fun c => negb (Ascii.eqb c sep)) x = true) l ->
  strings.Split (strings.Join l (String sep "")) sep = l.
Proof.
  induction l as [|x [|y rest] IH]; [contradiction| |]; intros _ Hl.
  - inversion Hl; subst. apply Split_none. assumption.
  - inversion Hl as [|? ? Hx Hrest]; subst.
    change (strings.Join (x :: y :: rest) (String sep ""))
      with (x +:+ String sep "" +:+ strings.Join (y :: rest) (String sep "")).
    change (String sep "" +:+ strings.Join (y :: rest) (String sep ""))
      with (String sep (strings.Join (y :: rest) (String sep ""))).
    rewrite (Split_app_sep _ _ _ Hx), IH; [reflexivity | discriminate | exact Hrest].
Qed.

Lemma Join_Split s sep : strings.Join (strings.Split s sep) (String sep "") = s.
Proof.
  induction s as [|c s IH]; [reflexivity|]. cbn [strings.Split].
  destruct (Ascii.eqb_spec c sep) as [->|Hc].
  - pose proof (Split_not_nil s sep) as Hne.
    destruct (strings.Split s sep) as [|h t]; [contradiction|].
    change (strings.Join ("" :: h :: t) (String sep ""))
      with (String sep (strings.Join (h :: t) (String sep ""))).
    rewrite IH. reflexivity.
  - pose proof (Split_not_nil s sep) as Hne.
    destruct (strings.Split s sep) as [|h [|h' t]].
    + contradiction.
    + cbn in IH |- *. rewrite IH. reflexivity.
    + change (strings.Join (String c h :: h' :: t) (String sep ""))
        with (String c (strings.Join (h :: h' :: t) (String sep ""))).
      rewrite IH. reflexivity.
Qed.

Lemma mapGet_notLF m k : lfFree m -> allBytes notLF (mapGet m k) = true.
Proof.
  intros Hm. unfold mapGet. destruct (m !! k) as [v|] eqn:Hk; [exact (Hm k v Hk) | reflexivity].
Qed.

Lemma matchComponentPath_notLF kind val cap :
  matchComponentPath kind val = Some cap -> allBytes notLF cap = true.
Proof.
  unfold matchComponentPath.
  destruct (rev _) as [|file [|dir rest]]; try discriminate.
  destruct (foldMatch kind dir); [|discriminate].
  destruct (cutYamlExt file) as [c|]; [|discriminate].
  destruct (negb _ && allBytes isRefNameByte c) eqn:Hc; [|discriminate].
  intros [= <-]. apply andb_true_iff in Hc as [_ Hc].
  apply (allBytes_impl isRefNameByte); [|exact Hc].
  intros [[] [] [] [] [] [] [] []]; intros H; try exact H; reflexivity.
Qed.

Lemma rewriteAt_notLF sm pm ln left rest :
  lfFree sm -> lfFree pm ->
  allBytes notLF ln = true -> allBytes notLF left = true -> allBytes notLF rest = true ->
  allBytes notLF (rewriteAt sm pm ln left rest) = true.
Proof.
  intros Hsm Hpm Hln Hleft Hrest. unfold rewriteAt.
  assert (Hval : allBytes notLF (stripQuotes rest) = true)
    by (apply allBytes_stripQuotes, Hrest).
  assert (Hout : forall prefix name,
             allBytes notLF prefix = true -> allBytes notLF name = true ->
             allBytes notLF (left +:+ prefix +:+ name) = true).
  { intros prefix name Hp Hn. rewrite !allBytes_app, Hleft, Hp, Hn. reflexivity. }
  destruct (String.eqb rest ""); [exact Hln|].
  destruct (strings.HasPrefix (stripQuotes rest) "#/components/"); [exact Hln|].
  destruct (strings.HasPrefix _ "schema:").
  { apply Hout; [reflexivity|]. apply allBytes_pascalCase, allBytes_TrimSpace, allBytes_drop, Hval. }
  destruct (strings.HasPrefix _ "param:").
  { apply Hout; [reflexivity|]. apply allBytes_pascalCase, allBytes_TrimSpace, allBytes_drop, Hval. }
  destruct (reSchemaPath _) as [m1|] eqn:Hm1.
  { apply matchComponentPath_notLF in Hm1. apply Hout; [reflexivity|].
    destruct (String.eqb _ ""); [apply allBytes_pascalCase, Hm1 | apply mapGet_notLF, Hsm]. }
  destruct (reParamPath _) as [m1|] eqn:Hm2; [|exact Hln].
  apply matchComponentPath_notLF in Hm2. apply Hout; [reflexivity|].
  destruct (String.eqb _ ""); [apply allBytes_pascalCase, Hm2 | apply mapGet_notLF, Hpm].
Qed.

Lemma rewriteLine_notLF sm pm ln :
  lfFree sm -> lfFree pm ->
  allBytes notLF ln = true -> allBytes notLF (rewriteLine sm pm ln) = true.
Proof.
  intros Hsm Hpm Hln. unfold rewriteLine.
  destruct (strings.Index ln "$ref:") as [idx|]; [|exact Hln].
  apply rewriteAt_notLF; trivial.
  - apply allBytes_take, Hln.
  - apply allBytes_TrimSpace, allBytes_drop, Hln.
Qed.

Lemma rewriteRefs_lines sm pm raw :
  lfFree sm -> lfFree pm ->
  strings.Split (rewriteRefs raw sm pm) LF = map (rewriteLine sm pm) (strings.Split raw LF).
Proof.
  intros Hsm Hpm. unfold rewriteRefs. apply Split_Join.
  - pose proof (Split_not_nil raw LF). destruct (strings.Split raw LF); [contradiction | discriminate].
  - apply List.Forall_map. refine (List.Forall_impl _ _ (Split_pieces raw LF)).
    intros ln Hln. apply (rewriteLine_notLF sm pm ln Hsm Hpm Hln).
Qed.

(** C6: a line whose reference value begins with #/components/ is left as
    it is; every line the rewriter changes becomes such a line, so a second
    pass over any line changes nothing; and when the names of the two maps
    hold no line feed, the text produced by [rewriteRefs] is a fixed point
    of [rewriteRefs], each canonical line of the input standing unchanged at
    its place in the output. *)
Theorem C6_canonical_references_fixed :
  (forall sm pm ln, canonical ln -> rewriteLine sm pm ln = ln)
  /\ (forall sm pm ln, rewriteLine sm pm ln <> ln -> canonical (rewriteLine sm pm ln))
  /\ (forall sm pm ln, rewriteLine sm pm (rewriteLine sm pm ln) = rewriteLine sm pm ln)
  /\ (forall sm pm raw i ln,
        lfFree sm -> lfFree pm ->
        strings.Split raw LF !! i = Some ln -> canonical ln ->
        strings.Split (rewriteRefs raw sm pm) LF !! i = Some ln)
  /\ (forall sm pm raw,
        lfFree sm -> lfFree pm ->
        rewriteRefs (rewriteRefs raw sm pm) sm pm = rewriteRefs raw sm pm)
  /\ (forall sm pm,
        rewriteRefs ("      $ref: #/components/schemas/Foo" +:+ nl
                     +:+ "      $ref: '#/components/parameters/user-id'") sm pm
        = "      $ref: #/components/schemas/Foo" +:+ nl
          +:+ "      $ref: '#/components/parameters/user-id'").
Proof.
  split; [|split; [|split; [|split; [|split]]]].
  - intros sm pm ln. apply canonical_fixed.
  - intros sm pm ln Hne. destruct (rewriteLine_cases sm pm ln) as [H|H]; [contradiction | exact H].
  - intros sm pm ln. apply rewriteLine_idem.
  - intros sm pm raw i ln Hsm Hpm Hi Hc.
    rewrite (rewriteRefs_lines sm pm raw Hsm Hpm), list_lookup_fmap, Hi.
    cbn. rewrite (canonical_fixed sm pm ln Hc). reflexivity.
  - intros sm pm raw Hsm Hpm. unfold rewriteRefs at 1.
    rewrite (rewriteRefs_lines sm pm raw Hsm Hpm), map_map.
    unfold rewriteRefs. f_equal. apply map_ext. intros ln. apply rewriteLine_idem.
  - intros sm pm. vm_compute. reflexivity.
Qed.

Lemma C6_witness :
  canonical "  $ref: '#/components/schemas/Foo'"
  /\ rewriteLine ∅ ∅ "  $ref: '#/components/schemas/Foo'" = "  $ref: '#/components/schemas/Foo'".
Proof.
  assert (Hc : canonical "  $ref: '#/components/schemas/Foo'")
    by (exists "#/components/schemas/Foo"; split; vm_compute; reflexivity).
  split; [exact Hc|].
  exact (proj1 C6_canonical_references_fixed ∅ ∅ "  $ref: '#/components/schemas/Foo'" Hc).
Defined.

(** ** Path keys *)

Lemma isElem_inv e :
  isElem e = true ->
  String.eqb e "" = false /\ String.eqb e "." = false /\ String.eqb e ".." = false
  /\ allBytes notSlash e = true.
Proof.
  unfold isElem. rewrite !andb_true_iff, !negb_true_iff. tauto.
Qed.

Lemma Forall_isElem_notSlash l :
  Forall (fun e => isElem e = true) l ->
  Forall (fun x => allBytes (fun c => negb (Ascii.eqb c "/")) x = true) l.
Proof.
  apply List.Forall_impl. intros e He. apply isElem_inv in He. apply He.
Qed.

Lemma Split_absPath elems :
  Forall (fun e => isElem e = true) elems ->
  strings.Split (absPath elems) "/" = "" :: match elems with [] => [""] | _ => elems end.
Proof.
  intros Hel. unfold absPath.
  change ("/" +:+ strings.Join elems "/") with ("" +:+ String "/" (strings.Join elems "/")).
  rewrite Split_app_sep by reflexivity. f_equal.
  destruct elems as [|e rest]; [reflexivity|].
  apply Split_Join; [discriminate | apply Forall_isElem_notSlash, Hel].
Qed.

Lemma fold_cleanStep isRooted l :
  forall kept,
    Forall (fun e => isElem e = true) l ->
    fold_left (filepath.cleanStep isRooted) l kept = kept ++ l.
Proof.
  induction l as [|e l IH]; intros kept Hl; [symmetry; apply app_nil_r|].
  inversion Hl as [|? ? He Hrest]; subst.
  apply isElem_inv in He as (H0 & H1 & H2 & _).
  cbn [fold_left]. unfold filepath.cleanStep at 2. rewrite H0, H1, H2. cbn [orb].
  rewrite (IH _ Hrest), <- app_assoc. reflexivity.
Qed.

Lemma Clean_absPath elems :
  Forall (fun e => isElem e = true) elems ->
  filepath.Clean (absPath elems) = absPath elems.
Proof.
  intros Hel. unfold filepath.Clean.
  change (filepath.rooted (absPath elems)) with true. cbn match.
  rewrite (Split_absPath elems Hel). cbn [fold_left].
  change (filepath.cleanStep true [] "") with (@nil string).
  destruct elems as [|e rest]; [reflexivity|].
  rewrite !(fold_cleanStep true _ [] Hel). reflexivity.
Qed.

Lemma dropCommon_app l r : filepath.dropCommon l (l ++ r) = ([], r).
Proof.
  induction l as [|x l IH]; [destruct r; reflexivity|].
  cbn [app filepath.dropCommon]. rewrite String.eqb_refl. exact IH.
Qed.

Lemma Rel_absPath base rel :
  Forall (fun e => isElem e = true) base ->
  Forall (fun e => isElem e = true) rel -> rel <> [] ->
  filepath.Rel (absPath base) (absPath (base ++ rel)) = Some (strings.Join rel "/").
Proof.
  intros Hbase Hrel Hne.
  assert (Hall : Forall (fun e => isElem e = true) (base ++ rel))
    by (apply Forall_app; split; assumption).
  assert (Hcons : exists e t, base ++ rel = e :: t).
  { destruct base; [destruct rel; [contradiction|]|]; eauto. }
  assert (Hsplit : strings.Split (absPath (base ++ rel)) "/" = "" :: base ++ rel).
  { rewrite (Split_absPath _ Hall). destruct Hcons as (e & t & ->). reflexivity. }
  assert (Hdiff : absPath (base ++ rel) <> absPath base).
  { intros Heq. pose proof (Split_absPath base Hbase) as Hb.
    rewrite <- Heq, Hsplit in Hb. injection Hb as Hb.
    destruct base as [|b base'].
    - cbn in Hb. subst rel. inversion Hrel; subst. discriminate.
    - apply (f_equal (@length string)) in Hb. rewrite length_app in Hb.
      destruct rel; [contradiction | cbn in Hb; lia]. }
  unfold filepath.Rel. rewrite (Clean_absPath _ Hbase), (Clean_absPath _ Hall).
  destruct (String.eqb_spec (absPath (base ++ rel)) (absPath base)) as [Heq|_];
    [contradiction|].
  change (String.eqb (absPath base) ".") with false. cbn match.
  change (filepath.rooted (absPath base)) with true.
  change (filepath.rooted (absPath (base ++ rel))) with true. cbn [Bool.eqb negb].
  assert (Hb : filepath.elements (absPath base) = "" :: base).
  { unfold filepath.elements. change (String.eqb (absPath base) "") with false. cbn match.
    destruct base as [|b base']; [reflexivity|].
    destruct (String.eqb_spec (absPath (b :: base')) "/") as [Heq|_].
    - apply (f_equal (fun s => strings.Split s "/")) in Heq.
      rewrite (Split_absPath _ Hbase) in Heq. inversion Hbase; subst.
      injection Heq as Heq _. subst b. discriminate.
    - apply (Split_absPath _ Hbase). }
  assert (Ht : filepath.elements (absPath (base ++ rel)) = "" :: base ++ rel).
  { unfold filepath.elements.
    change (String.eqb (absPath (base ++ rel)) "") with false. cbn match.
    destruct (String.eqb_spec (absPath (base ++ rel)) "/") as [Heq|_]; [|exact Hsplit].
    apply (f_equal (fun s => strings.Split s "/")) in Heq. rewrite Hsplit in Heq.
    destruct Hcons as (e & t & Hc). rewrite Hc in Heq, Hall.
    inversion Hall; subst. injection Heq as Heq _. subst e. discriminate. }
  rewrite Hb, Ht. cbn [filepath.dropCommon String.eqb].
  rewrite dropCommon_app. reflexivity.
Qed.

Lemma Join_snoc l x sep :
  l <> [] -> strings.Join (l ++ [x]) sep = strings.Join l sep +:+ sep +:+ x.
Proof.
  induction l as [|a [|b l] IH]; [contradiction| |]; intros _.
  - reflexivity.
  - change (strings.Join ((a :: b :: l) ++ [x]) sep)
      with (a +:+ sep +:+ strings.Join ((b :: l) ++ [x]) sep).
    rewrite IH by discriminate.
    change (strings.Join (a :: b :: l) sep) with (a +:+ sep +:+ strings.Join (b :: l) sep).
    rewrite !str_app_assoc. reflexivity.
Qed.

Lemma Join_nonempty e l sep :
  String.eqb e "" = false -> String.eqb (strings.Join (e :: l) sep) "" = false.
Proof.
  destruct e as [|c e]; [discriminate|]. intros _. destruct l; reflexivity.
Qed.

Lemma buildPathKey_absPath root dirs file :
  Forall (fun e => isElem e = true) root ->
  Forall (fun e => isElem e = true) dirs ->
  isElem file = true ->
  buildPathKey (absPath root) (absPath (root ++ dirs ++ [file]))
  = "/" +:+ strings.Join (dirs ++ [kebabToCamel (strings.TrimSuffix file ".yaml")]) "/".
Proof.
  intros Hroot Hdirs Hfile.
  assert (Hrel : Forall (fun e => isElem e = true) (dirs ++ [file]))
    by (apply Forall_app; split; [exact Hdirs | repeat constructor; exact Hfile]).
  assert (Hne : dirs ++ [file] <> []) by (destruct dirs; discriminate).
  unfold buildPathKey. rewrite (Rel_absPath root _ Hroot Hrel Hne).
  unfold filepath.ToSlash.
  rewrite (Split_Join _ "/" Hne (Forall_isElem_notSlash _ Hrel)).
  rewrite last_last, removelast_last.
  clear Hrel Hne.
  destruct (dirs ++ [file]) as [|x xs] eqn:Hx; [destruct dirs; discriminate|].
  clear x xs Hx.
  set (tail := kebabToCamel (strings.TrimSuffix file ".yaml")).
  destruct dirs as [|version [|r rest]].
  - reflexivity.
  - reflexivity.
  - inversion Hdirs as [|? ? _ Hrest]; subst. inversion Hrest as [|? ? Hr _]; subst.
    apply isElem_inv in Hr as [Hr _].
    rewrite (Join_nonempty r rest "/" Hr). cbn [negb].
    change ((version :: r :: rest) ++ [tail]) with (version :: ((r :: rest) ++ [tail])).
    change (strings.Join (version :: (r :: rest) ++ [tail]) "/")
      with (version +:+ "/" +:+ strings.Join ((r :: rest) ++ [tail]) "/").
    rewrite Join_snoc by discriminate. reflexivity.
Qed.

Lemma isElem_yaml name :
  allBytes notSlash name = true -> isElem (name +:+ ".yaml") = true.
Proof.
  intros Hname.
  assert (Hshort : forall t, String.length t < 5 -> String.eqb (name +:+ ".yaml") t = false).
  { intros t Ht. destruct (String.eqb_spec (name +:+ ".yaml") t) as [Heq|]; [|reflexivity].
    apply (f_equal String.length) in Heq. rewrite str_length_app in Heq. cbn in Heq. lia. }
  unfold isElem. rewrite allBytes_app, Hname.
  rewrite !Hshort by (cbn; lia). reflexivity.
Qed.

Lemma yamlName_split file :
  yamlName file = true ->
  exists name ext, file = name +:+ ext /\ strings.ToLower ext = ".yaml".
Proof.
  unfold yamlName, strings.HasSuffix, strings.ToLower.
  intros [_ Heq]%andb_true_iff. apply String.eqb_eq in Heq.
  rewrite mapBytes_length, mapBytes_drop in Heq.
  exists (strings.take (String.length file - String.length ".yaml") file),
    (strings.drop (String.length file - String.length ".yaml") file).
  split; [symmetry; apply str_take_drop | exact Heq].
Qed.

Lemma yamlName_app name ext : strings.ToLower ext = ".yaml" -> yamlName (name +:+ ext) = true.
Proof.
  intros Hext. unfold yamlName. unfold strings.ToLower in *.
  rewrite mapBytes_app, Hext. apply HasSuffix_app.
Qed.

Lemma TrimSuffix_other_case name ext :
  strings.ToLower ext = ".yaml" -> ext <> ".yaml" ->
  strings.TrimSuffix (name +:+ ext) ".yaml" = name +:+ ext.
Proof.
  intros Hext Hne. unfold strings.TrimSuffix.
  destruct (strings.HasSuffix (name +:+ ext) ".yaml") eqn:Hsuf; [|reflexivity].
  exfalso. apply Hne. apply HasSuffix_inv in Hsuf.
  apply str_app_inj_len in Hsuf; [apply Hsuf|].
  apply (f_equal String.length) in Hext. unfold strings.ToLower in Hext.
  rewrite mapBytes_length in Hext. exact Hext.
Qed.

(** C1: for a paths root [/r1/.../rn] and a fragment
    [<root>/d1/.../dk/<file>] that the fragment store lists, the key is
    [/d1/.../dk/<tail>]: the directories pass through unchanged, joined
    with [/], and [<tail>] is the camel case of the file name cut by the
    suffix [.yaml].  The store lists a file when its lower-cased name ends
    in [.yaml]; the key is cut by [.yaml] as written.  So a file
    [<name>.yaml] has the camel case of [<name>] for its tail, and a file
    whose extension is written in another case keeps it: the listed
    fragment [v1/Ping.YAML] has the key [/v1/Ping.YAML], where the name
    without its extension gives [/v1/Ping]. *)
Theorem C1_extension_cut_in_lower_case_only :
  In "/api/paths/v1/Ping.YAML" (fst (listYAMLFiles exampleFS "/api/paths"))
  /\ buildPathKey "/api/paths" "/api/paths/v1/Ping.YAML" = "/v1/Ping.YAML"
  /\ "/v1/" +:+ kebabToCamel "Ping" = "/v1/Ping"
  /\ (forall file,
        yamlName file = true ->
        exists name ext, file = name +:+ ext /\ strings.ToLower ext = ".yaml")
  /\ (forall root dirs name ext,
        Forall (fun e => isElem e = true) root ->
        Forall (fun e => isElem e = true) dirs ->
        isElem (name +:+ ext) = true ->
        strings.ToLower ext = ".yaml" ->
        yamlName (name +:+ ext) = true
        /\ buildPathKey (absPath root) (absPath (root ++ dirs ++ [name +:+ ext]))
           = "/" +:+ strings.Join
                       (dirs ++ [kebabToCamel (if String.eqb ext ".yaml" then name
                                               else name +:+ ext)]) "/")
  /\ (forall root dirs file,
        Forall (fun e => isElem e = true) root ->
        Forall (fun e => isElem e = true) dirs ->
        isElem file = true ->
        buildPathKey (absPath root) (absPath (root ++ dirs ++ [file]))
        = "/" +:+ strings.Join (dirs ++ [kebabToCamel (strings.TrimSuffix file ".yaml")]) "/")
  /\ (forall root dirs name,
        Forall (fun e => isElem e = true) root ->
        Forall (fun e => isElem e = true) dirs ->
        allBytes notSlash name = true ->
        buildPathKey (absPath root) (absPath (root ++ dirs ++ [name +:+ ".yaml"]))
        = "/" +:+ strings.Join (dirs ++ [kebabToCamel name]) "/")
  /\ (forall root,
        Forall (fun e => isElem e = true) root ->
        buildPathKey (absPath root) (absPath (root ++ ["v1"; "foo"; "list-items.yaml"]))
        = "/v1/foo/listItems")
  /\ (forall root,
        Forall (fun e => isElem e = true) root ->
        buildPathKey (absPath root) (absPath (root ++ ["v1"; "health-check.yaml"]))
        = "/v1/healthCheck")
  /\ (forall root name,
        Forall (fun e => isElem e = true) root ->
        allBytes notSlash name = true ->
        buildPathKey (absPath root) (absPath (root ++ [name +:+ ".yaml"]))
        = "/" +:+ kebabToCamel name)
  /\ buildPathKey "paths" "paths/v1/foo/list-items.yaml" = "/v1/foo/listItems"
  /\ buildPathKey "paths" "paths/v1/health-check.yaml" = "/v1/healthCheck"
  /\ buildPathKey "paths" "paths/health-check.yaml" = "/healthCheck".
Proof.
  assert (Hgen : forall root dirs name,
     Forall (fun e => isElem e = true) root ->
     Forall (fun e => isElem e = true) dirs ->
     allBytes notSlash name = true ->
     buildPathKey (absPath root) (absPath (root ++ dirs ++ [name +:+ ".yaml"]))
     = "/" +:+ strings.Join (dirs ++ [kebabToCamel name]) "/").
  { intros root dirs name Hroot Hdirs Hname.
    rewrite (buildPathKey_absPath root dirs _ Hroot Hdirs (isElem_yaml name Hname)).
    rewrite TrimSuffix_app. reflexivity. }
  split; [vm_compute; right; left; reflexivity|].
  split; [vm_compute; reflexivity|]. split; [vm_compute; reflexivity|].
  split; [exact yamlName_split|]. split.
  { intros root dirs name ext Hroot Hdirs Hfile Hext.
    split; [exact (yamlName_app name ext Hext)|].
    rewrite (buildPathKey_absPath root dirs _ Hroot Hdirs Hfile).
    destruct (String.eqb_spec ext ".yaml") as [->|Hne].
    - rewrite TrimSuffix_app. reflexivity.
    - rewrite (TrimSuffix_other_case name ext Hext Hne). reflexivity. }
  split; [exact buildPathKey_absPath|].
  split; [exact Hgen|]. split; [|split; [|split]].
  - intros root Hroot.
    apply (Hgen root ["v1"; "foo"] "list-items" Hroot); [repeat constructor | reflexivity].
  - intros root Hroot.
    apply (Hgen root ["v1"] "health-check" Hroot); [repeat constructor | reflexivity].
  - intros root name Hroot Hname. apply (Hgen root [] name Hroot); [constructor | exact Hname].
  - repeat split; vm_compute; reflexivity.
Qed.

Lemma C1_witness :
  Forall (fun e => isElem e = true) ["srv"; "api"; "paths"]
  /\ Forall (fun e => isElem e = true) ["v2"; "pets"; "by-owner"]
  /\ isElem ("list_all items" +:+ ".Yaml") = true
  /\ strings.ToLower ".Yaml" = ".yaml"
  /\ yamlName ("list_all items" +:+ ".Yaml") = true
  /\ buildPathKey "/srv/api/paths" "/srv/api/paths/v2/pets/by-owner/list_all items.Yaml"
     = "/v2/pets/by-owner/listAllItems.Yaml".
Proof.
  assert (Hroot : Forall (fun e => isElem e = true) ["srv"; "api"; "paths"])
    by (repeat constructor).
  assert (Hdirs : Forall (fun e => isElem e = true) ["v2"; "pets"; "by-owner"])
    by (repeat constructor).
  split; [exact Hroot|]. split; [exact Hdirs|]. split; [reflexivity|]. split; [reflexivity|].
  exact (proj1 (proj2 (proj2 (proj2 (proj2 C1_extension_cut_in_lower_case_only))))
           ["srv"; "api"; "paths"] ["v2"; "pets"; "by-owner"] "list_all items" ".Yaml"
           Hroot Hdirs eq_refl eq_refl).
Defined.

(** ** Folding the name map *)

Lemma nameStep_lookup m f k :
  nameStep m f !! k
  = if decide (keyOf f k) then Some (pascalCase (stem f)) else m !! k.
Proof.
  unfold nameStep, keyOf. rewrite !lookup_insert.
  repeat case_decide; subst; try reflexivity; intuition congruence.
Qed.

Lemma buildNameMap_fold fs dir :
  buildNameMap fs dir = fold_left nameStep (fst (listYAMLFiles fs dir)) ∅.
Proof. reflexivity. Qed.

Lemma nameFold_sound files :
  forall k v,
    fold_left nameStep files ∅ !! k = Some v ->
    exists f, In f files /\ keyOf f k /\ v = pascalCase (stem f).
Proof.
  induction files as [|f files IH] using rev_ind; intros k v.
  - cbn. rewrite lookup_empty. discriminate.
  - rewrite fold_left_app. cbn [fold_left]. rewrite nameStep_lookup.
    case_decide as Hk.
    + intros [= <-]. exists f. split; [apply in_or_app; right; left; reflexivity | auto].
    + intros Hv. destruct (IH k v Hv) as (g & Hg & Hkey & Hval).
      exists g. split; [apply in_or_app; left; exact Hg | auto].
Qed.

Lemma nameFold_complete files :
  forall f k, In f files -> keyOf f k -> is_Some (fold_left nameStep files ∅ !! k).
Proof.
  induction files as [|g files IH] using rev_ind; intros f k Hf Hk; [destruct Hf|].
  rewrite fold_left_app. cbn [fold_left]. rewrite nameStep_lookup.
  case_decide as Hg; [eexists; reflexivity|].
  apply in_app_or in Hf as [Hf|[<-|[]]]; [exact (IH f k Hf Hk) | contradiction].
Qed.

Lemma nameFold_last files f k :
  keyOf f k -> fold_left nameStep (files ++ [f]) ∅ !! k = Some (pascalCase (stem f)).
Proof.
  intros Hk. rewrite fold_left_app. cbn [fold_left]. rewrite nameStep_lookup.
  case_decide; [reflexivity | contradiction].
Qed.

Lemma nameFold_wins pre f post k :
  keyOf f k -> Forall (fun g => ~ keyOf g k) post ->
  fold_left nameStep (pre ++ f :: post) ∅ !! k = Some (pascalCase (stem f)).
Proof.
  intros Hk. induction post as [|g post IH] using rev_ind; intros Hpost.
  - apply nameFold_last. exact Hk.
  - apply Forall_app in Hpost as [Hpost Hg]. apply Forall_inv in Hg.
    rewrite app_comm_cons, app_assoc, fold_left_app. cbn [fold_left].
    rewrite nameStep_lookup. case_decide; [contradiction|]. exact (IH Hpost).
Qed.

Lemma stem_lower_case f name : filepath.Base f = name +:+ ".yaml" -> stem f = name.
Proof. intros Hbase. unfold stem. rewrite Hbase. apply TrimSuffix_app. Qed.

(** ** Order independence of the composed document *)





Lemma textOf_app a b : textOf (a ++ b) = textOf a +:+ textOf b.
Proof.
  induction a as [|x a IH]; [reflexivity|]. cbn [app textOf fold_right].
  fold (textOf (a ++ b)). fold (textOf a). rewrite IH, str_app_assoc. reflexivity.
Qed.













(** ** The fragment store *)

Lemma yamlWalkFn_nil root path name isDir isRegular files :
  yamlWalkFn root path name isDir isRegular None files
  = if dotted name && (isDir && negb (String.eqb path root)) then (files, wsSkipDir)
    else if isRegular && yamlName name then (files ++ [path], wsNil)
         else (files, wsNil).
Proof. reflexivity. Qed.

Lemma visible_leaf root path name d p name' f :
  (forall entries, d <> FDir entries) ->
  visible root path name d p name' f -> p = path /\ name' = name /\ f = d.
Proof.
  intros Hd Hv. inversion Hv; subst; [auto|]. exfalso. eapply Hd. reflexivity.
Qed.

Lemma walkEntries_spec root path name entries :
  canEnter root path name = true ->
  Forall (fun en => forall path name files files' sig,
            walkDir (yamlWalkFn root) path name (snd en) files = (files', sig) ->
            walkSpec root path name (snd en) files files' sig) entries ->
  forall files files' sig,
    walkEntries (yamlWalkFn root) path entries files = (files', sig) ->
    sig <> wsSkipDir
    /\ exists added,
         files' = files ++ added
         /\ (forall p, In p added ->
               exists name1 d1, In (name1, d1) entries
                                /\ found root (filepath.Join path name1) name1 d1 p)
         /\ (sig = wsNil ->
             forall p name1 d1, In (name1, d1) entries ->
               wanted root (filepath.Join path name1) name1 d1 p -> In p added).
Proof.
  intros Henter Hall.
  induction Hall as [|[name1 d1] rest Hd1 _ IH]; intros files files' sig; cbn [walkEntries].
  - intros [= <- <-]. split; [discriminate|]. exists []. rewrite app_nil_r.
    split; [reflexivity|]. split; [intros p []|]. intros _ p n1 d1 [].
  - destruct (walkDir _ _ name1 d1 files) as [f1 s1] eqn:Hwalk.
    apply Hd1 in Hwalk. cbn [snd] in Hwalk.
    destruct Hwalk as (Hs1 & a1 & -> & Hsound1 & Hcompl1).
    destruct s1 as [| |e]; [|contradiction|].
    + intros Hrest. apply IH in Hrest.
      destruct Hrest as (Hsig & a2 & -> & Hsound2 & Hcompl2).
      split; [exact Hsig|]. exists (a1 ++ a2). rewrite app_assoc.
      split; [reflexivity|]. split.
      * intros p [Hp|Hp]%in_app_or.
        -- exists name1, d1. split; [left; reflexivity | exact (Hsound1 p Hp)].
        -- destruct (Hsound2 p Hp) as (n2 & d2 & Hin & Hf).
           exists n2, d2. split; [right; exact Hin | exact Hf].
      * intros Hnil p n2 d2 [[= <- <-]|Hin] Hw; apply in_or_app.
        -- left. exact (Hcompl1 eq_refl p Hw).
        -- right. exact (Hcompl2 Hnil p n2 d2 Hin Hw).
    + intros [= <- <-]. split; [discriminate|]. exists a1.
      split; [reflexivity|]. split; [|discriminate].
      intros p Hp. exists name1, d1. split; [left; reflexivity | exact (Hsound1 p Hp)].
Qed.

Lemma walkDir_spec root d :
  forall path name files files' sig,
    walkDir (yamlWalkFn root) path name d files = (files', sig) ->
    walkSpec root path name d files files' sig.
Proof.
  induction d as [content| |entries IH|] using fsnode_tree_ind;
    intros path name files files' sig; rewrite walkDir_unfold, yamlWalkFn_nil;
    cbn [IsDir IsRegular andb].
  - rewrite andb_false_r.
    destruct (yamlName name) eqn:Hy; intros [= <- <-]; (split; [discriminate|]).
    + exists [path]. split; [reflexivity|]. split.
      * intros p [<-|[]]. exists name, (FRegular content).
        split; [constructor | split; [reflexivity | exact Hy]].
      * intros _ p (n' & f & Hv & _). apply visible_leaf in Hv as (-> & _); [|discriminate].
        left. reflexivity.
    + exists []. rewrite app_nil_r. split; [reflexivity|]. split; [intros p []|].
      intros _ p (n' & f & Hv & _ & Hy' & _).
      apply visible_leaf in Hv as (_ & -> & _); [|discriminate]. congruence.
  - rewrite andb_false_r. intros [= <- <-]. split; [discriminate|].
    exists []. rewrite app_nil_r. split; [reflexivity|]. split; [intros p []|].
    intros _ p (n' & f & Hv & Hreg & _).
    apply visible_leaf in Hv as (_ & _ & ->); [|discriminate]. discriminate.
  - destruct (dotted name && negb (String.eqb path root)) eqn:Hskip.
    + intros [= <- <-]. split; [discriminate|].
      exists []. rewrite app_nil_r. split; [reflexivity|]. split; [intros p []|].
      intros _ p (n' & f & Hv & Hreg & _). inversion Hv; subst; [discriminate|].
      unfold canEnter in *. rewrite Hskip in *. discriminate.
    + intros Hwalk.
      assert (Henter : canEnter root path name = true)
        by (unfold canEnter; rewrite Hskip; reflexivity).
      apply (walkEntries_spec root path name entries Henter IH) in Hwalk.
      destruct Hwalk as (Hsig & added & -> & Hsound & Hcompl).
      split; [exact Hsig|]. exists added. split; [reflexivity|]. split.
      * intros p Hp. destruct (Hsound p Hp) as (n1 & d1 & Hin & n' & f & Hv & Hreg & Hy).
        exists n', f. split; [|split; assumption].
        eapply visible_child; eassumption.
      * intros Hnil p (n' & f & Hv & Hreg & Hy & Hdot).
        inversion Hv; subst; [discriminate|].
        eapply Hcompl; [reflexivity | eassumption |].
        exists n', f. repeat split; assumption.
  - destruct (dotted name && negb (String.eqb path root)) eqn:Hskip.
    + intros [= <- <-]. split; [discriminate|].
      exists []. rewrite app_nil_r. split; [reflexivity|]. split; [intros p []|].
      intros _ p (n' & f & Hv & Hreg & _).
      apply visible_leaf in Hv as (_ & _ & ->); [|discriminate]. discriminate.
    + cbn. intros [= <- <-]. split; [discriminate|].
      exists []. rewrite app_nil_r. split; [reflexivity|]. split; [intros p []|discriminate].
Qed.

Lemma listYAMLFiles_walk fs root d files err :
  fsLookup fs root = Some d -> IsDir d = true ->
  listYAMLFiles fs root = (files, err) ->
  (forall p, In p files -> found root root (filepath.Base root) d p)
  /\ (err = None -> forall p, wanted root root (filepath.Base root) d p -> In p files).
Proof.
  intros Hlook Hdir. unfold listYAMLFiles, WalkDir. rewrite Hlook, Hdir.
  destruct (walkDir (yamlWalkFn root) root (filepath.Base root) d []) as [files' sig] eqn:Hwalk.
  apply walkDir_spec in Hwalk. destruct Hwalk as (Hsig & added & Hfiles & Hsound & Hcompl).
  cbn [app] in Hfiles. subst files'. intros [= <- <-]. split; [exact Hsound|].
  intros Herr. destruct sig as [| |e]; [|contradiction|discriminate].
  exact (Hcompl eq_refl).
Qed.

(** C3, as stated, fails: below /api/paths the store lists the dot file
    .hidden.yaml, which the claim leaves out, and does not list old.yml,
    which the claim includes. *)
Lemma C3_counterexample :
  fst (listYAMLFiles exampleFS "/api/paths")
  = ["/api/paths/.hidden.yaml"; "/api/paths/v1/Ping.YAML"; "/api/paths/v1/users.yaml"]
  /\ listYAMLFiles_spec exampleFS "/api/paths"
     = ["/api/paths/v1/Ping.YAML"; "/api/paths/v1/old.yml"; "/api/paths/v1/users.yaml"]
  /\ fst (listYAMLFiles exampleFS "/api/paths") <> listYAMLFiles_spec exampleFS "/api/paths".
Proof.
  split; [vm_compute; reflexivity|]. split; [vm_compute; reflexivity|].
  vm_compute. discriminate.
Qed.

(** C3, amended: a root that does not exist or is not a directory gives
    the empty list and no error.  Otherwise every listed path is a regular
    file whose name ends in [.yaml], whatever the case, reached from the root
    through directories whose names do not start with a dot; when the walk
    returns no error every such file whose own name does not start with a
    dot is listed; and nothing is reached through a directory below the
    root whose name starts with a dot. *)
Theorem C3_fragment_store :
  (forall fs root,
     (forall d, fsLookup fs root = Some d -> IsDir d = false) ->
     listYAMLFiles fs root = ([], None))
  /\ (forall fs root d files err,
        fsLookup fs root = Some d -> IsDir d = true ->
        listYAMLFiles fs root = (files, err) ->
        (forall p, In p files ->
           exists name f,
             visible root root (filepath.Base root) d p name f
             /\ IsRegular f = true /\ yamlName name = true)
        /\ (err = None ->
            forall p name f,
              visible root root (filepath.Base root) d p name f ->
              IsRegular f = true -> yamlName name = true -> dotted name = false ->
              In p files))
  /\ (forall root path name entries p name' f,
        dotted name = true -> path <> root ->
        visible root path name (FDir entries) p name' f ->
        p = path /\ name' = name /\ f = FDir entries).
Proof.
  split; [|split].
  - intros fs root Hroot. unfold listYAMLFiles.
    destruct (fsLookup fs root) as [d|]; [|reflexivity].
    rewrite (Hroot d eq_refl). reflexivity.
  - intros fs root d files err Hlook Hdir Hlist.
    destruct (listYAMLFiles_walk fs root d files err Hlook Hdir Hlist) as [Hsound Hcompl].
    split; [exact Hsound|].
    intros Herr p name f Hv Hreg Hy Hdot.
    apply (Hcompl Herr). exists name, f. repeat split; assumption.
  - intros root path name entries p name' f Hdot Hne Hv.
    inversion Hv as [|? ? ? ? ? ? ? ? Henter]; subst; [auto|].
    unfold canEnter in Henter. rewrite Hdot in Henter.
    destruct (String.eqb_spec path root); [contradiction | discriminate].
Qed.

Lemma C3_witness :
  fsLookup exampleFS "/api/paths" = Some (FDir [
       (".git", FDir [("config.yaml", FRegular "x")]);
       (".hidden.yaml", FRegular "get: {}");
       ("notes.txt", FRegular "n");
       ("v1", FDir [("Ping.YAML", FRegular "get: {}");
                    ("link.yaml", FOther);
                    ("old.yml", FRegular "get: {}");
                    ("users.yaml", FRegular "get: {}")])])
  /\ (forall d, fsLookup exampleFS "/api/components/parameters" = Some d -> IsDir d = false)
  /\ listYAMLFiles exampleFS "/api/components/parameters" = ([], None)
  /\ In "/api/paths/v1/users.yaml" (fst (listYAMLFiles exampleFS "/api/paths")).
Proof.
  split; [vm_compute; reflexivity|].
  assert (Hno : forall d, fsLookup exampleFS "/api/components/parameters" = Some d
                          -> IsDir d = false) by (vm_compute; discriminate).
  split; [exact Hno|].
  split; [exact (proj1 C3_fragment_store exampleFS "/api/components/parameters" Hno)|].
  destruct (listYAMLFiles exampleFS "/api/paths") as [files err] eqn:Hlist.
  refine (proj2 (proj1 (proj2 C3_fragment_store) exampleFS "/api/paths" _ files err
                   eq_refl eq_refl Hlist) _ "/api/paths/v1/users.yaml" "users.yaml"
            (FRegular "get: {}") _ eq_refl eq_refl eq_refl).
  - revert Hlist. vm_compute. intros [= _ <-]. reflexivity.
  - eapply visible_child; [reflexivity | |].
    + right. right. right. left. reflexivity.
    + eapply visible_child; [reflexivity | |].
      * right. right. right. left. reflexivity.
      * apply visible_self.
Defined.

(** ** The name map *)

(** C4, as stated, fails: the file inner-thing.yaml lies two directories
    below the schemas directory, no file of that name lies directly in it,
    and the map has the entries of inner-thing.yaml all the same. *)
Lemma C4_counterexample :
  fst (listYAMLFiles nestedFS "/api/components/schemas")
  = ["/api/components/schemas/nested/deeper/inner-thing.yaml";
     "/api/components/schemas/user-account.yaml"]
  /\ fsLookup nestedFS "/api/components/schemas/inner-thing.yaml" = None
  /\ buildNameMap nestedFS "/api/components/schemas" !! "inner-thing" = Some "InnerThing"
  /\ buildNameMap nestedFS "/api/components/schemas" !! "inner-thing.yaml" = Some "InnerThing".
Proof. repeat split; vm_compute; reflexivity. Qed.

(** C4, amended: the map is built from every file the fragment store lists
    below the directory, at any depth.  Each listed file is entered under
    its lower-cased file name and under the lower-cased form of its file
    name cut by a suffix [.yaml]; for a file [<name>.yaml] these are the
    lower-cased [<name>.yaml] and the lower-cased [<name>], and the name
    entered is the PascalCase form of [<name>].  Every entry of the map
    comes from a listed file and holds the PascalCase form of that file's
    name cut by the suffix; of the listed files that have a key, the one
    listed last gives the name, wherever the others stand in the listing.
    In particular a regular [.yaml] file reached through sub-directories
    whose names do not start with a dot has its entries when the walk
    returns no error. *)
Theorem C4_name_map_entries :
  (forall fs dir f k,
     In f (fst (listYAMLFiles fs dir)) -> keyOf f k ->
     is_Some (buildNameMap fs dir !! k))
  /\ (forall fs dir k v,
        buildNameMap fs dir !! k = Some v ->
        exists f, In f (fst (listYAMLFiles fs dir)) /\ keyOf f k /\ v = pascalCase (stem f))
  /\ (forall fs dir pre f post k,
        fst (listYAMLFiles fs dir) = pre ++ f :: post -> keyOf f k ->
        Forall (fun g => ~ keyOf g k) post ->
        buildNameMap fs dir !! k = Some (pascalCase (stem f)))
  /\ (forall fs dir pre f post name k,
        fst (listYAMLFiles fs dir) = pre ++ f :: post ->
        filepath.Base f = name +:+ ".yaml" ->
        k = strings.ToLower name \/ k = strings.ToLower (name +:+ ".yaml") ->
        is_Some (buildNameMap fs dir !! k)
        /\ (Forall (fun g => ~ keyOf g k) post ->
            buildNameMap fs dir !! k = Some (pascalCase name)))
  /\ (forall fs dir d p name f,
        fsLookup fs dir = Some d -> IsDir d = true ->
        snd (listYAMLFiles fs dir) = None ->
        visible dir dir (filepath.Base dir) d p name f ->
        IsRegular f = true -> yamlName name = true -> dotted name = false ->
        is_Some (buildNameMap fs dir !! strings.ToLower (stem p))
        /\ is_Some (buildNameMap fs dir !! strings.ToLower (filepath.Base p))).
Proof.
  split; [|split; [|split; [|split]]].
  - intros fs dir f k Hf Hk. rewrite buildNameMap_fold. exact (nameFold_complete _ f k Hf Hk).
  - intros fs dir k v. rewrite buildNameMap_fold. apply nameFold_sound.
  - intros fs dir pre f post k Hfiles Hk Hpost. rewrite buildNameMap_fold, Hfiles.
    exact (nameFold_wins pre f post k Hk Hpost).
  - intros fs dir pre f post name k Hfiles Hbase Hk.
    assert (Hkey : keyOf f k).
    { unfold keyOf. rewrite (stem_lower_case f name Hbase), Hbase. exact Hk. }
    rewrite buildNameMap_fold, Hfiles. split.
    + apply (nameFold_complete _ f k); [|exact Hkey].
      apply in_or_app. right. left. reflexivity.
    + intros Hpost. rewrite (nameFold_wins pre f post k Hkey Hpost).
      rewrite (stem_lower_case f name Hbase). reflexivity.
  - intros fs dir d p name f Hlook Hdir Herr Hv Hreg Hy Hdot.
    destruct (listYAMLFiles fs dir) as [files err] eqn:Hlist. cbn [snd] in Herr.
    assert (Hin : In p files).
    { apply (proj2 (listYAMLFiles_walk fs dir d files err Hlook Hdir Hlist) Herr).
      exists name, f. repeat split; assumption. }
    rewrite buildNameMap_fold, Hlist. cbn [fst].
    split; apply (nameFold_complete files p); trivial; [left | right]; reflexivity.
Qed.

Lemma C4_witness :
  fst (listYAMLFiles nestedFS "/api/components/schemas")
  = [] ++ "/api/components/schemas/nested/deeper/inner-thing.yaml"
          :: ["/api/components/schemas/user-account.yaml"]
  /\ filepath.Base "/api/components/schemas/nested/deeper/inner-thing.yaml"
     = "inner-thing" +:+ ".yaml"
  /\ Forall (fun g => ~ keyOf g "inner-thing") ["/api/components/schemas/user-account.yaml"]
  /\ buildNameMap nestedFS "/api/components/schemas" !! "inner-thing" = Some "InnerThing".
Proof.
  assert (Hlist : fst (listYAMLFiles nestedFS "/api/components/schemas")
                  = [] ++ "/api/components/schemas/nested/deeper/inner-thing.yaml"
                          :: ["/api/components/schemas/user-account.yaml"])
    by (vm_compute; reflexivity).
  assert (Hbase : filepath.Base "/api/components/schemas/nested/deeper/inner-thing.yaml"
                  = "inner-thing" +:+ ".yaml") by (vm_compute; reflexivity).
  assert (Hpost : Forall (fun g => ~ keyOf g "inner-thing")
                    ["/api/components/schemas/user-account.yaml"]).
  { repeat constructor. intros [H|H]; vm_compute in H; discriminate H. }
  split; [exact Hlist|]. split; [exact Hbase|]. split; [exact Hpost|].
  exact (proj2 (proj1 (proj2 (proj2 (proj2 C4_name_map_entries)))
                  nestedFS "/api/components/schemas" [] _ _ "inner-thing" "inner-thing"
                  Hlist Hbase (or_introl eq_refl)) Hpost).
Defined.

(** * Further properties *)

(** ** Camel case and Pascal case *)

Lemma isSeparator_toUpperByte c :
  isSeparator c = false -> isSeparator (strings.toUpperByte c) = false.
Proof. destruct c as [[] [] [] [] [] [] [] []]; intros H; try exact H; reflexivity. Qed.

Lemma toUpperByte_idem c : strings.toUpperByte (strings.toUpperByte c) = strings.toUpperByte c.
Proof. destruct c as [[] [] [] [] [] [] [] []]; reflexivity. Qed.

Lemma isLower_toUpperByte c : strings.isLower (strings.toUpperByte c) = false.
Proof. destruct c as [[] [] [] [] [] [] [] []]; reflexivity. Qed.

Lemma toUpperByte_ascii c : asciiByte c = true -> asciiByte (strings.toUpperByte c) = true.
Proof. destruct c as [[] [] [] [] [] [] [] []]; intros H; try discriminate H; reflexivity. Qed.

Lemma notSeparator_high b : asciiByte b = false -> negb (isSeparator b) = true.
Proof. destruct b as [[] [] [] [] [] [] [] []]; intros H; try discriminate H; reflexivity. Qed.

Lemma notSeparator_toUpperByte b :
  negb (isSeparator b) = true -> negb (isSeparator (strings.toUpperByte b)) = true.
Proof. rewrite !negb_true_iff. apply isSeparator_toUpperByte. Qed.

Lemma notLower_high b : asciiByte b = false -> strings.isLower b = false.
Proof. destruct b as [[] [] [] [] [] [] [] []]; intros H; try discriminate H; reflexivity. Qed.

Lemma kebabLoop_plain s :
  forall out,
    allBytes asciiByte s = true ->
    allBytes (fun c => negb (isSeparator c)) s = true ->
    kebabLoop s out false = out +:+ s.
Proof.
  induction s as [|c s IH]; intros out; [intros _ _; symmetry; apply str_app_nil_r|].
  cbn [allBytes kebabLoop]. intros [Ha Has]%andb_true_iff [Hc Hs]%andb_true_iff.
  apply negb_true_iff in Hc.
  change (Ascii.eqb c "-" || Ascii.eqb c "_" || Ascii.eqb c " ") with (isSeparator c).
  rewrite Hc, (IH _ Has Hs), str_app_assoc.
  destruct (byteString_cases c) as [[_ ->]|[Hhigh _]]; [reflexivity | congruence].
Qed.

Lemma kebabLoop_no_separator s :
  forall out up,
    allBytes (fun c => negb (isSeparator c)) out = true ->
    allBytes (fun c => negb (isSeparator c)) (kebabLoop s out up) = true.
Proof.
  induction s as [|c s IH]; intros out up Hout; [exact Hout|].
  cbn [kebabLoop].
  change (Ascii.eqb c "-" || Ascii.eqb c "_" || Ascii.eqb c " ") with (isSeparator c).
  destruct (isSeparator c) eqn:Hc; [apply IH, Hout|].
  apply (f_equal negb) in Hc. cbn [negb] in Hc.
  destruct up; apply IH; rewrite allBytes_app, Hout; cbn [andb].
  - exact (upperOfByte_keeps _ c notSeparator_high notSeparator_toUpperByte Hc).
  - exact (byteString_keeps _ c notSeparator_high Hc).
Qed.

Lemma kebabLoop_ascii s :
  forall out up,
    allBytes asciiByte out = true -> allBytes asciiByte s = true ->
    allBytes asciiByte (kebabLoop s out up) = true.
Proof.
  induction s as [|c s IH]; intros out up Hout; [intros _; exact Hout|].
  cbn [allBytes kebabLoop]. intros [Hc Hs]%andb_true_iff.
  destruct (_ || _); [exact (IH _ _ Hout Hs)|].
  destruct up; apply IH; try exact Hs; rewrite allBytes_app, Hout; cbn [andb].
  - destruct (upperOfByte_cases c) as [[_ ->]|[Hhigh _]]; [|congruence].
    cbn [allBytes]. rewrite (toUpperByte_ascii c Hc). reflexivity.
  - destruct (byteString_cases c) as [[_ ->]|[Hhigh _]]; [|congruence].
    cbn [allBytes]. rewrite Hc. reflexivity.
Qed.

Lemma kebabToCamel_no_separator s :
  allBytes (fun c => negb (isSeparator c)) (kebabToCamel s) = true.
Proof. apply kebabLoop_no_separator. reflexivity. Qed.

Lemma kebabToCamel_plain s :
  allBytes asciiByte s = true ->
  allBytes (fun c => negb (isSeparator c)) s = true -> kebabToCamel s = s.
Proof. intros Ha Hs. unfold kebabToCamel. rewrite (kebabLoop_plain s "" Ha Hs). reflexivity. Qed.

Lemma pascalCase_shape s :
  pascalCase s = match kebabToCamel s with
                 | "" => ""
                 | String c rest => upperOfFirst (String c "") +:+ rest
                 end.
Proof.
  unfold pascalCase. destruct (kebabToCamel s) as [|c rest]; [reflexivity|].
  cbn [String.eqb]. destruct rest; reflexivity.
Qed.

Lemma pascalCase_no_separator s :
  allBytes (fun c => negb (isSeparator c)) (pascalCase s) = true.
Proof.
  rewrite pascalCase_shape. pose proof (kebabToCamel_no_separator s) as H.
  destruct (kebabToCamel s) as [|c rest]; [reflexivity|].
  cbn [allBytes] in H. apply andb_true_iff in H as [Hc Hrest].
  rewrite allBytes_app, Hrest, andb_true_r.
  destruct (upperOfFirst_cases c) as [[_ ->]|[_ ->]]; [|reflexivity].
  cbn [allBytes]. rewrite (notSeparator_toUpperByte c Hc). reflexivity.
Qed.

Lemma pascalCase_start s :
  match pascalCase s with
  | "" => kebabToCamel s = ""
  | String c _ => strings.isLower c = false
  end.
Proof.
  rewrite pascalCase_shape. destruct (kebabToCamel s) as [|c rest]; [reflexivity|].
  destruct (upperOfFirst_cases c) as [[_ ->]|[_ ->]]; [|reflexivity].
  rewrite str_app_cons. apply isLower_toUpperByte.
Qed.

Lemma pascalCase_ascii s :
  allBytes asciiByte s = true ->
  pascalCase s = match kebabToCamel s with
                 | "" => ""
                 | String c rest => String (strings.toUpperByte c) rest
                 end
  /\ allBytes asciiByte (pascalCase s) = true.
Proof.
  intros Hs. rewrite pascalCase_shape.
  pose proof (kebabLoop_ascii s "" false eq_refl Hs) as Ha. fold (kebabToCamel s) in Ha.
  destruct (kebabToCamel s) as [|c rest]; [split; reflexivity|].
  cbn [allBytes] in Ha. apply andb_true_iff in Ha as [Hc Hrest].
  destruct (upperOfFirst_cases c) as [[_ ->]|[Hhigh _]]; [|congruence].
  rewrite str_app_cons, str_app_nil_l. split; [reflexivity|].
  cbn [allBytes]. rewrite (toUpperByte_ascii c Hc), Hrest. reflexivity.
Qed.

Lemma pascalCase_idem s :
  allBytes asciiByte s = true -> pascalCase (pascalCase s) = pascalCase s.
Proof.
  intros Hs. destruct (pascalCase_ascii s Hs) as [Hshape Hascii].
  destruct (pascalCase_ascii (pascalCase s) Hascii) as [-> _].
  rewrite (kebabToCamel_plain _ Hascii (pascalCase_no_separator s)), Hshape.
  destruct (kebabToCamel s) as [|c rest]; [reflexivity|].
  rewrite toUpperByte_idem. reflexivity.
Qed.

(** X1: the camel-case and Pascal-case forms hold none of the separators
    dash, underscore and blank, and a Pascal-case form never starts with a
    lower-case letter.  On names made of ASCII bytes both conversions give
    ASCII names and are idempotent, and the camel-case form of a Pascal-case
    form is that form.  On other names they are not: the loop appends
    string(c) for each byte c, which turns a byte from 128 on into two
    bytes, so the lone byte 233 becomes 195 169 and, converted again,
    195 131 194 169; and its Pascal-case form starts with the encoding of
    U+FFFD. *)
Theorem X1_case_conversion_idempotent :
  (forall s,
     allBytes (fun c => negb (isSeparator c)) (kebabToCamel s) = true
     /\ allBytes (fun c => negb (isSeparator c)) (pascalCase s) = true
     /\ match pascalCase s with
        | "" => kebabToCamel s = ""
        | String c _ => strings.isLower c = false
        end)
  /\ (forall s,
        allBytes asciiByte s = true ->
        allBytes asciiByte (kebabToCamel s) = true
        /\ allBytes asciiByte (pascalCase s) = true
        /\ kebabToCamel (kebabToCamel s) = kebabToCamel s
        /\ pascalCase (pascalCase s) = pascalCase s
        /\ kebabToCamel (pascalCase s) = pascalCase s)
  /\ kebabToCamel (String "233" "") = String "195" (String "169" "")
  /\ kebabToCamel (kebabToCamel (String "233" ""))
     = String "195" (String "131" (String "194" (String "169" "")))
  /\ pascalCase (String "233" "") = runeError +:+ String "169" "".
Proof.
  split; [|split; [|repeat split]].
  - intros s. split; [apply kebabToCamel_no_separator|].
    split; [apply pascalCase_no_separator | apply pascalCase_start].
  - intros s Hs.
    pose proof (kebabLoop_ascii s "" false eq_refl Hs) as Ha. fold (kebabToCamel s) in Ha.
    destruct (pascalCase_ascii s Hs) as [_ Hp].
    split; [exact Ha|]. split; [exact Hp|].
    split; [exact (kebabToCamel_plain _ Ha (kebabToCamel_no_separator s))|].
    split; [exact (pascalCase_idem s Hs)|].
    exact (kebabToCamel_plain _ Hp (pascalCase_no_separator s)).
Qed.

Lemma X1_witness :
  allBytes asciiByte (kebabToCamel "user-account") = true
  /\ allBytes asciiByte (pascalCase "user-account") = true
  /\ kebabToCamel (kebabToCamel "user-account") = kebabToCamel "user-account"
  /\ pascalCase (pascalCase "user-account") = pascalCase "user-account"
  /\ kebabToCamel (pascalCase "user-account") = pascalCase "user-account".
Proof.
  exact (proj1 (proj2 X1_case_conversion_idempotent) "user-account" eq_refl).
Defined.

(** ** Indentation *)

Lemma Split_snoc_sep s sep :
  strings.Split (s +:+ String sep "") sep = strings.Split s sep ++ [""].
Proof.
  induction s as [|c s IH].
  - rewrite str_app_nil_l. cbn [strings.Split]. rewrite Ascii.eqb_refl. reflexivity.
  - rewrite str_app_cons. cbn [strings.Split]. rewrite IH.
    destruct (Ascii.eqb c sep); [reflexivity|].
    pose proof (Split_not_nil s sep) as Hne.
    destruct (strings.Split s sep); [contradiction | reflexivity].
Qed.

Lemma TrimRightFunc_snoc f s c :
  f c = true -> strings.TrimRightFunc f (s +:+ String c "") = strings.TrimRightFunc f s.
Proof.
  intros Hc. induction s as [|a s IH].
  - rewrite str_app_nil_l. cbn. rewrite Hc. reflexivity.
  - rewrite str_app_cons. cbn [strings.TrimRightFunc]. rewrite IH. reflexivity.
Qed.

Lemma TrimRightFunc_plain f s :
  allBytes (fun c => negb (f c)) s = true -> strings.TrimRightFunc f s = s.
Proof.
  induction s as [|c s IH]; [reflexivity|].
  cbn [allBytes]. intros [Hc Hs]%andb_true_iff. apply negb_true_iff in Hc.
  rewrite (TrimRightFunc_keep f c s Hc), (IH Hs). reflexivity.
Qed.

Lemma HasSuffix_cons a t c :
  t <> "" ->
  strings.HasSuffix (String a t) (String c "") = strings.HasSuffix t (String c "").
Proof.
  destruct t as [|b t]; [contradiction|]. intros _. unfold strings.HasSuffix.
  cbn [String.length Nat.leb Nat.sub strings.drop]. rewrite !Nat.sub_0_r. reflexivity.
Qed.

Lemma TrimRightFunc_end f s c :
  strings.HasSuffix (strings.TrimRightFunc f s) (String c "") = true -> f c = false.
Proof.
  induction s as [|a s IH]; [discriminate|].
  cbn [strings.TrimRightFunc].
  destruct (strings.TrimRightFunc f s) as [|b t] eqn:Ht.
  - destruct (f a) eqn:Ha; [discriminate|].
    unfold strings.HasSuffix. cbn.
    destruct (Ascii.eqb_spec a c) as [<-|]; [intros _; exact Ha | discriminate].
  - rewrite HasSuffix_cons by discriminate. exact IH.
Qed.

Lemma map_indent_zero lines :
  map (fun ln => if String.eqb ln "" then ln else "" +:+ ln) lines = lines.
Proof.
  induction lines as [|ln lines IH]; [reflexivity|].
  cbn [map]. rewrite IH. destruct (String.eqb ln ""); reflexivity.
Qed.

(** X2: [indentText] ends its result with exactly one line feed, whatever
    the number of line feeds at the end of the text, and a final line feed of
    the text makes no difference; with no spaces it returns the text up to
    its final line feeds; a single non-empty line gets the spaces in
    front. *)
Theorem X2_indentText_trailing_newline :
  forall s spaces,
    indentText (s +:+ nl) spaces = indentText s spaces
    /\ (exists body, indentText s spaces = body +:+ nl /\ strings.HasSuffix body nl = false)
    /\ indentText s 0 = strings.TrimRight s LF +:+ nl
    /\ (s <> "" -> allBytes notLF s = true ->
        indentText s spaces = strings.Repeat " " spaces +:+ s +:+ nl).
Proof.
  intros s spaces. split; [|split; [|split]].
  - unfold indentText, nl. rewrite Split_snoc_sep, map_app. cbn [map String.eqb].
    rewrite Join_snoc.
    + unfold strings.TrimRight. rewrite str_app_nil_r.
      rewrite (TrimRightFunc_snoc (Ascii.eqb LF) _ LF (Ascii.eqb_refl LF)). reflexivity.
    + pose proof (Split_not_nil s LF) as Hne. destruct (strings.Split s LF); [contradiction | discriminate].
  - unfold indentText. eexists. split; [reflexivity|].
    destruct (strings.HasSuffix _ nl) eqn:Hsuf; [|reflexivity].
    apply TrimRightFunc_end in Hsuf. rewrite Ascii.eqb_refl in Hsuf. discriminate.
  - unfold indentText. cbn [strings.Repeat]. rewrite map_indent_zero.
    unfold nl at 1. rewrite Join_Split. reflexivity.
  - intros Hne Hs. unfold indentText.
    rewrite (Split_none s LF Hs). cbn [map strings.Join].
    destruct (String.eqb_spec s "") as [->|_]; [contradiction|].
    unfold strings.TrimRight. rewrite TrimRightFunc_plain; [apply str_app_assoc|].
    rewrite allBytes_app. apply andb_true_iff. split.
    + clear. induction spaces as [|n IH]; [reflexivity|]. cbn [strings.Repeat].
      rewrite allBytes_app, IH. reflexivity.
    + erewrite allBytes_impl; [reflexivity | | exact Hs].
      intros c Hc. unfold notLF in Hc. rewrite Ascii.eqb_sym. exact Hc.
Qed.

Lemma X2_witness :
  "get:" <> "" /\ allBytes notLF "get:" = true
  /\ indentText "get:" 4 = "    get:" +:+ nl.
Proof.
  split; [discriminate|]. split; [reflexivity|].
  exact (proj2 (proj2 (proj2 (X2_indentText_trailing_newline "get:" 4)))
           ltac:(discriminate) eq_refl).
Defined.

(** ** Relative references *)

Lemma elements_absPath l :
  Forall (fun e => isElem e = true) l -> filepath.elements (absPath l) = "" :: l.
Proof.
  intros Hl. unfold filepath.elements.
  change (String.eqb (absPath l) "") with false. cbn match.
  destruct l as [|e l']; [reflexivity|].
  destruct (String.eqb_spec (absPath (e :: l')) "/") as [Heq|_].
  - apply (f_equal (fun s => strings.Split s "/")) in Heq.
    rewrite (Split_absPath _ Hl) in Heq. inversion Hl; subst.
    injection Heq as Heq _. subst e. discriminate.
  - apply (Split_absPath _ Hl).
Qed.

Lemma absPath_inj l1 l2 :
  Forall (fun e => isElem e = true) l1 -> Forall (fun e => isElem e = true) l2 ->
  absPath l1 = absPath l2 -> l1 = l2.
Proof.
  intros H1 H2 Heq.
  pose proof (elements_absPath l1 H1) as E1. rewrite Heq, (elements_absPath l2 H2) in E1.
  injection E1 as E1. symmetry. exact E1.
Qed.

Lemma dropCommon_diverge b t : diverge b t -> filepath.dropCommon b t = (b, t).
Proof.
  destruct b as [|x b], t as [|y t]; try reflexivity. cbn. intros ->. reflexivity.
Qed.

Lemma dropCommon_prefix c b t :
  filepath.dropCommon (c ++ b) (c ++ t) = filepath.dropCommon b t.
Proof.
  induction c as [|x c IH]; [reflexivity|].
  cbn [app filepath.dropCommon]. rewrite String.eqb_refl. exact IH.
Qed.

Lemma Rel_absPath_general c b t :
  Forall (fun e => isElem e = true) c ->
  Forall (fun e => isElem e = true) b ->
  Forall (fun e => isElem e = true) t ->
  diverge b t -> b ++ t <> [] ->
  filepath.Rel (absPath (c ++ b)) (absPath (c ++ t))
  = Some (strings.Join (map (fun _ => "..") b ++ t) "/").
Proof.
  intros Hc Hb Ht Hdiv Hne.
  assert (Hcb : Forall (fun e => isElem e = true) (c ++ b)) by (apply Forall_app; split; assumption).
  assert (Hct : Forall (fun e => isElem e = true) (c ++ t)) by (apply Forall_app; split; assumption).
  unfold filepath.Rel. rewrite (Clean_absPath _ Hcb), (Clean_absPath _ Hct).
  destruct (String.eqb_spec (absPath (c ++ t)) (absPath (c ++ b))) as [Heq|_].
  { exfalso. apply (absPath_inj _ _ Hct Hcb), app_inv_head in Heq. subst t.
    destruct b as [|x b]; [apply Hne; reflexivity|].
    cbn in Hdiv. rewrite String.eqb_refl in Hdiv. discriminate. }
  change (String.eqb (absPath (c ++ b)) ".") with false. cbn match.
  change (filepath.rooted (absPath (c ++ b))) with true.
  change (filepath.rooted (absPath (c ++ t))) with true. cbn [Bool.eqb negb].
  rewrite (elements_absPath _ Hcb), (elements_absPath _ Hct).
  cbn [filepath.dropCommon String.eqb].
  rewrite dropCommon_prefix, (dropCommon_diverge b t Hdiv).
  destruct b as [|x b]; [reflexivity|].
  inversion Hb as [|? ? Hx _]; subst. apply isElem_inv in Hx as (_ & _ & Hx & _).
  rewrite Hx. reflexivity.
Qed.

Lemma HasPrefix_Join_head e l p :
  String.eqb e "" = false ->
  strings.HasPrefix (strings.Join (e :: l) "/") (String p "") = strings.HasPrefix e (String p "").
Proof.
  destruct e as [|a e]; [discriminate|]. intros _. destruct l; reflexivity.
Qed.

Lemma Join_not_dot e l :
  String.eqb e "" = false -> String.eqb e "." = false ->
  String.eqb (strings.Join (e :: l) "/") "." = false.
Proof.
  intros He Hd. destruct l as [|x l]; [exact Hd|].
  change (strings.Join (e :: x :: l) "/") with (e +:+ "/" +:+ strings.Join (x :: l) "/").
  destruct (String.eqb_spec (e +:+ "/" +:+ strings.Join (x :: l) "/") ".") as [Heq|]; [|reflexivity].
  apply (f_equal String.length) in Heq. rewrite !str_length_app in Heq.
  destruct e; [discriminate|]. cbn in Heq. lia.
Qed.

(** X3: the reference from the directory of the root document to a
    fragment.  For a fragment below that directory it is the path from
    there, with [./] in front unless its first element starts with a dot;
    for the directory itself it is [./]; otherwise it climbs with one [..]
    for each element of the directory below the common part and then
    descends. *)
Theorem X3_relFrom_shapes :
  forall common down target,
    Forall (fun e => isElem e = true) common ->
    Forall (fun e => isElem e = true) down ->
    Forall (fun e => isElem e = true) target ->
    diverge down target ->
    relFrom (absPath (common ++ down)) (absPath (common ++ target))
    = match down, target with
      | [], [] => "./"
      | [], e :: _ =>
          if dotted e then strings.Join target "/" else "./" +:+ strings.Join target "/"
      | _ :: _, _ => strings.Join (map (fun _ => "..") down ++ target) "/"
      end.
Proof.
  intros c b t Hc Hb Ht Hdiv. unfold relFrom.
  destruct b as [|x b].
  - destruct t as [|e t].
    + rewrite app_nil_r. unfold filepath.Rel. rewrite String.eqb_refl. reflexivity.
    + rewrite (Rel_absPath_general c [] (e :: t) Hc Hb Ht Hdiv) by discriminate.
      cbn [map app]. unfold filepath.ToSlash.
      inversion Ht as [|? ? He _]; subst. apply isElem_inv in He as (He0 & He1 & _ & Hes).
      rewrite (Join_nonempty e t "/" He0), (Join_not_dot e t He0 He1). cbn [orb].
      rewrite !(HasPrefix_Join_head e t _ He0).
      assert (Hslash : strings.HasPrefix e "/" = false).
      { destruct e as [|a e]; [reflexivity|]. cbn [allBytes] in Hes.
        apply andb_true_iff in Hes as [Ha _]. unfold notSlash in Ha.
        apply negb_true_iff in Ha.
        change (strings.HasPrefix (String a e) "/") with (Ascii.eqb "/" a && true).
        rewrite Ascii.eqb_sym, Ha. reflexivity. }
      rewrite Hslash, orb_false_r. reflexivity.
  - rewrite (Rel_absPath_general c (x :: b) t Hc Hb Ht Hdiv) by discriminate.
    unfold filepath.ToSlash. cbn [map app].
    destruct (map (fun _ => "..") b ++ t) as [|y l]; reflexivity.
Qed.

Lemma X3_witness :
  Forall (fun e => isElem e = true) ["srv"; "api"]
  /\ Forall (fun e => isElem e = true) ["dist"]
  /\ Forall (fun e => isElem e = true) ["src"; "paths"; "v1"; "users.yaml"]
  /\ diverge ["dist"] ["src"; "paths"; "v1"; "users.yaml"]
  /\ relFrom "/srv/api/dist" "/srv/api/src/paths/v1/users.yaml" = "../src/paths/v1/users.yaml".
Proof.
  assert (H1 : Forall (fun e => isElem e = true) ["srv"; "api"]) by (repeat constructor).
  assert (H2 : Forall (fun e => isElem e = true) ["dist"]) by (repeat constructor).
  assert (H3 : Forall (fun e => isElem e = true) ["src"; "paths"; "v1"; "users.yaml"])
    by (repeat constructor).
  assert (H4 : diverge ["dist"] ["src"; "paths"; "v1"; "users.yaml"]) by reflexivity.
  split; [exact H1|]. split; [exact H2|]. split; [exact H3|]. split; [exact H4|].
  exact (X3_relFrom_shapes ["srv"; "api"] ["dist"] ["src"; "paths"; "v1"; "users.yaml"]
           H1 H2 H3 H4).
Defined.

(** ** What the rewriter leaves alone *)

Lemma Index_length s sub idx :
  strings.Index s sub = Some idx -> String.length (strings.take idx s) = idx.
Proof.
  revert idx. induction s as [|c s IH]; intros idx; cbn [strings.Index].
  - destruct (strings.HasPrefix "" sub); [|discriminate]. intros [= <-]. reflexivity.
  - destruct (strings.HasPrefix (String c s) sub); [intros [= <-]; reflexivity|].
    destruct (strings.Index s sub) as [k|]; [|discriminate]. intros [= <-].
    cbn [strings.take String.length]. rewrite (IH k eq_refl). reflexivity.
Qed.

Lemma take_add_app a b n :
  strings.take (String.length a + n) (a +:+ b) = a +:+ strings.take n b.
Proof.
  induction a as [|c a IH]; [reflexivity|].
  rewrite !str_app_cons. cbn [String.length Nat.add strings.take]. rewrite IH. reflexivity.
Qed.

Lemma HasPrefix_app_l a b p :
  strings.HasPrefix a p = true -> strings.HasPrefix (a +:+ b) p = true.
Proof.
  revert a. induction p as [|x p IH]; intros a; [reflexivity|].
  destruct a as [|y a]; [discriminate|]. rewrite str_app_cons. cbn [strings.HasPrefix].
  intros [Hx Hp]%andb_true_iff. rewrite Hx. exact (IH a Hp).
Qed.

Lemma Split_head s sep h t :
  strings.Split s sep = h :: t -> exists r, s = h +:+ r.
Proof.
  intros Hs. pose proof (Join_Split s sep) as Hj. rewrite Hs in Hj.
  destruct t as [|x t]; [exists ""; rewrite str_app_nil_r; symmetry; exact Hj|].
  eexists. symmetry. exact Hj.
Qed.

Lemma Index_lines raw sub sep :
  sub <> "" -> strings.Index raw sub = None ->
  Forall (fun ln => strings.Index ln sub = None) (strings.Split raw sep).
Proof.
  intros Hsub.
  assert (Hempty : strings.Index "" sub = None) by (destruct sub; [contradiction | reflexivity]).
  induction raw as [|c s IH]; [intros _; repeat constructor; exact Hempty|].
  cbn [strings.Index].
  destruct (strings.HasPrefix (String c s) sub) eqn:Hp; [discriminate|].
  destruct (strings.Index s sub) eqn:Hs; [discriminate|]. intros _.
  specialize (IH eq_refl). cbn [strings.Split].
  destruct (Ascii.eqb c sep); [constructor; [exact Hempty | exact IH]|].
  destruct (strings.Split s sep) as [|h t] eqn:Hsplit;
    [exfalso; exact (Split_not_nil s sep Hsplit)|].
  inversion IH as [|? ? Hh Ht]; subst. constructor; [|exact Ht].
  cbn [strings.Index]. rewrite Hh.
  destruct (strings.HasPrefix (String c h) sub) eqn:Hp'; [|reflexivity].
  destruct (Split_head s sep h t Hsplit) as [r ->].
  apply (HasPrefix_app_l _ r) in Hp'. rewrite str_app_cons in Hp'. congruence.
Qed.

Lemma rewriteLine_marker_kept sm pm ln idx :
  strings.Index ln "$ref:" = Some idx ->
  strings.Index (rewriteLine sm pm ln) "$ref:" = Some idx
  /\ strings.take (idx + 5) (rewriteLine sm pm ln) = strings.take (idx + 5) ln.
Proof.
  intros Hidx. unfold rewriteLine. rewrite Hidx.
  destruct (rewriteAt_cases sm pm ln (strings.take idx ln)
              (strings.TrimSpace (strings.drop (idx + String.length "$ref:") ln)))
    as [->|[tail ->]]; [split; [exact Hidx | reflexivity]|].
  assert (Hleft : strings.Index (strings.take idx ln) "$ref:" = None)
    by (apply (Index_take ln "$ref:" idx); [discriminate | exact Hidx]).
  pose proof (Index_length ln "$ref:" idx Hidx) as Hlen.
  change (strings.take idx ln +:+ "$ref: #/components/" +:+ tail)
    with (strings.take idx ln +:+ "$ref:" +:+ (" #/components/" +:+ tail)).
  split.
  - rewrite (Index_marker _ _ Hleft), Hlen. reflexivity.
  - pose proof (Index_split ln "$ref:" idx Hidx) as Hsplit.
    remember (strings.take idx ln) as p eqn:Hp.
    remember (strings.drop (idx + String.length "$ref:") ln) as rest eqn:Hrest.
    rewrite Hsplit, <- Hlen, !take_add_app. reflexivity.
Qed.

(** X4: the rewriter changes nothing up to and including the marker: a
    line with the marker at some place still has it there afterwards, with
    the same text before it.  A text that holds no marker comes back
    unchanged, and when the names in the two maps hold no line feed the
    number of lines stays the same. *)
Theorem X4_rewriter_preserves :
  (forall sm pm ln idx,
     strings.Index ln "$ref:" = Some idx ->
     strings.Index (rewriteLine sm pm ln) "$ref:" = Some idx
     /\ strings.take (idx + 5) (rewriteLine sm pm ln) = strings.take (idx + 5) ln)
  /\ (forall sm pm raw,
        strings.Index raw "$ref:" = None -> rewriteRefs raw sm pm = raw)
  /\ (forall sm pm raw,
        lfFree sm -> lfFree pm ->
        length (strings.Split (rewriteRefs raw sm pm) LF) = length (strings.Split raw LF)).
Proof.
  split; [exact rewriteLine_marker_kept|]. split.
  - intros sm pm raw Hraw. unfold rewriteRefs.
    pose proof (Index_lines raw "$ref:" LF ltac:(discriminate) Hraw) as Hlines.
    assert (Hmap : map (rewriteLine sm pm) (strings.Split raw LF) = strings.Split raw LF).
    { induction Hlines as [|ln lines Hln _ IH]; [reflexivity|].
      cbn [map]. rewrite IH. unfold rewriteLine at 1. rewrite Hln. reflexivity. }
    rewrite Hmap. apply Join_Split.
  - intros sm pm raw Hsm Hpm. rewrite (rewriteRefs_lines sm pm raw Hsm Hpm).
    apply length_map.
Qed.

Lemma X4_witness :
  strings.Index "      - $ref: '../components/schemas/pet.yaml'  # pet" "$ref:" = Some 8
  /\ strings.take 13 (rewriteLine ∅ ∅ "      - $ref: '../components/schemas/pet.yaml'  # pet")
     = "      - $ref:".
Proof.
  split; [reflexivity|].
  exact (proj2 (proj1 X4_rewriter_preserves ∅ ∅
                  "      - $ref: '../components/schemas/pet.yaml'  # pet" 8 eq_refl)).
Defined.

(** ** The results of a run mirror its trace *)

Lemma resultsOf_app a b : resultsOf (a ++ b) = resultsOf a ++ resultsOf b.
Proof. apply flat_map_app. Qed.

Lemma ledgerStep_refl st : ledgerStep st st [].
Proof.
  unfold ledgerStep. cbn. rewrite !app_nil_r, orb_false_r. repeat split.
Qed.

Lemma ledgerStep_trans st1 st2 st3 p q :
  ledgerStep st1 st2 p -> ledgerStep st2 st3 q -> ledgerStep st1 st3 (p ++ q).
Proof.
  intros (Ht1 & Hr1 & Hp1 & Hs1 & Hh1) (Ht2 & Hr2 & Hp2 & Hs2 & Hh2).
  unfold ledgerStep. rewrite resultsOf_app.
  split; [rewrite Ht2, Ht1, <- app_assoc; reflexivity|].
  split; [rewrite Hr2, Hr1, <- app_assoc; reflexivity|].
  split; [congruence|]. split; [congruence|].
  rewrite Hh2, Hh1. destruct (resultsOf p), (resultsOf q), (hasErrors st1); reflexivity.
Qed.

Lemma ledgerStep_log st e :
  resultOf e = [] -> ledgerStep st (logEvent st e) [e].
Proof.
  intros He. unfold ledgerStep, resultsOf. cbn. rewrite He. cbn.
  rewrite !app_nil_r, orb_false_r. repeat split.
Qed.

Lemma ledgerStep_record st apiPath method rule msg :
  ledgerStep st
    (recordResult (logEvent st (evRule apiPath method rule (Some msg)))
       {| Path := apiPath; Method := strings.ToUpper method; Rule := rule;
          Message := msg; Severity := "error" |})
    [evRule apiPath method rule (Some msg)].
Proof.
  unfold ledgerStep, resultsOf. cbn. rewrite orb_true_r. repeat split.
Qed.

Lemma runRules_ledger rules apiPath method operation :
  forall st st' err,
    runRules rules apiPath method operation st = (st', err) ->
    exists pre, ledgerStep st st' pre.
Proof.
  induction rules as [|rule rest IH]; intros st st' err; cbn [runRules].
  - intros [= <- _]. exists []. apply ledgerStep_refl.
  - destruct (ValidationRule.Validate rule apiPath method operation) as [msg|].
    + pose proof (ledgerStep_record st apiPath method (ValidationRule.Name rule) msg) as Hrec.
      destruct (StopOnError _).
      * intros [= <- _]. eexists. exact Hrec.
      * intros Hrun. destruct (IH _ _ _ Hrun) as [pre Hpre].
        eexists. exact (ledgerStep_trans _ _ _ _ _ Hrec Hpre).
    + intros Hrun. destruct (IH _ _ _ Hrun) as [pre Hpre].
      eexists.
      exact (ledgerStep_trans _ _ _ _ _
               (ledgerStep_log st (evRule apiPath method (ValidationRule.Name rule) None) eq_refl)
               Hpre).
Qed.

Lemma runMethods_ledger rules apiPath pathSpec :
  forall st st' err,
    runMethods rules apiPath pathSpec st = (st', err) ->
    exists pre, ledgerStep st st' pre.
Proof.
  induction pathSpec as [|[method [operation|]] rest IH]; intros st st' err;
    cbn [runMethods].
  - intros [= <- _]. exists []. apply ledgerStep_refl.
  - destruct (runRules rules apiPath method operation st) as [st1 [e|]] eqn:Hrules;
      destruct (runRules_ledger _ _ _ _ _ _ _ Hrules) as [p Hp].
    + intros [= <- _]. exists p. exact Hp.
    + intros Hrun. destruct (IH _ _ _ Hrun) as [q Hq].
      eexists. exact (ledgerStep_trans _ _ _ _ _ Hp Hq).
  - apply IH.
Qed.

Lemma runFiles_ledger Unmarshal fs cfg rules paths :
  forall st st' err,
    runFiles Unmarshal fs cfg rules paths st = (st', err) ->
    exists pre, ledgerStep st st' pre.
Proof.
  induction paths as [|pathFile rest IH]; intros st st' err; cbn [runFiles].
  - intros [= <- _]. exists []. apply ledgerStep_refl.
  - destruct (String.eqb _ ""); [apply IH|].
    pose proof (ledgerStep_log st (evRead pathFile) eq_refl) as Hread.
    destruct (ReadFile fs pathFile) as [e|content]; [intros [= <- _]; eexists; exact Hread|].
    pose proof (ledgerStep_trans _ _ _ _ _ Hread
                  (ledgerStep_log (logEvent st (evRead pathFile)) (evParse pathFile) eq_refl))
      as Hparse.
    destruct (Unmarshal content) as [e|pathSpec]; [intros [= <- _]; eexists; exact Hparse|].
    destruct (runMethods _ _ _ _) as [st1 [e|]] eqn:Hm;
      destruct (runMethods_ledger _ _ _ _ _ _ Hm) as [p Hp].
    + intros [= <- _]. eexists. exact (ledgerStep_trans _ _ _ _ _ Hparse Hp).
    + intros Hrun. destruct (IH _ _ _ Hrun) as [q Hq].
      eexists. exact (ledgerStep_trans _ _ _ _ _ (ledgerStep_trans _ _ _ _ _ Hparse Hp) Hq).
Qed.

(** X5: whatever the preset, the stop flag, the decoder and the files, a
    run of validatePaths only appends to the trace and to the results, and
    the results appended are exactly those of the failed rule evaluations
    of the appended trace, in the order of evaluation (path, upper-cased
    method, rule name, message, severity error).  The preset and the stop
    flag are unchanged.  A run that returns no error recorded nothing, and
    a run that ends in the error of a completed run recorded something. *)
Theorem X5_results_mirror_trace :
  forall Unmarshal fs cfg validationCfg tr st err,
    validatePaths Unmarshal fs cfg validationCfg tr = (st, err) ->
    exists pre,
      trace st = tr ++ pre
      /\ Results (vcfg st) = Results validationCfg ++ resultsOf pre
      /\ Preset (vcfg st) = Preset validationCfg
      /\ StopOnError (vcfg st) = StopOnError validationCfg
      /\ (err = None -> resultsOf pre = [])
      /\ (err = Some errFailed -> resultsOf pre <> []).
Proof.
  intros Unmarshal fs cfg validationCfg tr st err. unfold validatePaths.
  set (st0 := {| vcfg := validationCfg; hasErrors := false; trace := tr |}).
  assert (Hend : forall st' pre e, ledgerStep st0 st' pre ->
            (e = None -> resultsOf pre = []) -> (e = Some errFailed -> resultsOf pre <> []) ->
            exists pre,
              trace st' = tr ++ pre
              /\ Results (vcfg st') = Results validationCfg ++ resultsOf pre
              /\ Preset (vcfg st') = Preset validationCfg
              /\ StopOnError (vcfg st') = StopOnError validationCfg
              /\ (e = None -> resultsOf pre = [])
              /\ (e = Some errFailed -> resultsOf pre <> [])).
  { intros st' pre e (Ht & Hr & Hp & Hs & _) Hnone Hfailed. exists pre.
    repeat (split; [assumption|]). exact Hfailed. }
  destruct (ValidationPresets !! Preset validationCfg) as [preset|].
  2:{ intros [= <- <-]. apply (Hend st0 [] _ (ledgerStep_refl st0)); discriminate. }
  pose proof (ledgerStep_log st0 (evList (PathsDir cfg)) eq_refl) as Hlist.
  destruct (listYAMLFiles fs (PathsDir cfg)) as [paths [e|]] eqn:Hl.
  { intros [= <- <-]. apply (Hend _ _ _ Hlist); [discriminate|].
    intros [= ->]. destruct (listYAMLFiles_err fs (PathsDir cfg) paths errFailed Hl). }
  destruct (runFiles _ _ _ _ _ _) as [st1 [e|]] eqn:Hrun;
    destruct (runFiles_ledger _ _ _ _ _ _ _ _ Hrun) as [p Hp];
    pose proof (ledgerStep_trans _ _ _ _ _ Hlist Hp) as Hall.
  - intros [= <- <-]. apply (Hend _ _ _ Hall); [discriminate|].
    intros [= ->].
    destruct (StopOnError validationCfg) eqn:Hstop.
    + destruct (runFiles_stop _ _ _ _ _ (logEvent st0 (evList (PathsDir cfg))) _ _ Hstop Hrun) as [[[H|(e & [= <-] & [])] _]|[[=] _]].
      discriminate.
    + destruct (runFiles_nostop _ _ _ _ _ (logEvent st0 (evList (PathsDir cfg))) _ _ Hstop Hrun) as [[H|(e & [= <-] & [])] _].
      discriminate.
  - destruct Hall as (Ht & Hr & Hpr & Hs & Hh). cbn [hasErrors st0 orb] in Hh.
    destruct (hasErrors st1) eqn:Herr; intros [= <- <-];
      apply (Hend st1 ([evList (PathsDir cfg)] ++ p) _);
      try (repeat (split; [assumption|]); rewrite Herr; exact Hh).
    + discriminate.
    + intros _ Hnil. rewrite Hnil in Hh. discriminate.
    + intros _. destruct (resultsOf _); [reflexivity | discriminate].
    + discriminate.
Qed.

Lemma X5_witness :
  exists pre,
    trace stoppedRun = [] ++ pre
    /\ Results (vcfg stoppedRun) = [] ++ resultsOf pre
    /\ Preset (vcfg stoppedRun) = "restful"
    /\ StopOnError (vcfg stoppedRun) = true
    /\ (Some errStopped = None -> resultsOf pre = [])
    /\ (Some errStopped = Some errFailed -> resultsOf pre <> []).
Proof.
  apply (X5_results_mirror_trace exampleUnmarshal
           (usersFS "get: {summary: List users}" brokenFragment) apiCfg
           (vcfgOf "restful" true) [] stoppedRun (Some errStopped)).
  vm_compute. reflexivity.
Defined.

(** ** Parameter names *)

Lemma scanParams_shape s :
  forall cur,
    match cur with Some body => allBytes notClose body = true | None => True end ->
    Forall (fun name => name <> "" /\ allBytes notClose name = true) (scanParams s cur).
Proof.
  induction s as [|c s IH]; intros cur Hcur; [constructor|].
  cbn [scanParams]. destruct cur as [body|].
  - destruct (Ascii.eqb c "}") eqn:Hc.
    + destruct (String.eqb body "") eqn:Hb; [apply IH; exact I|].
      constructor; [|apply IH; exact I].
      split; [|exact Hcur]. intros ->. discriminate.
    + apply IH. rewrite allBytes_app, Hcur. cbn. unfold notClose. rewrite Hc. reflexivity.
  - destruct (Ascii.eqb c "{"); apply IH; [reflexivity | exact I].
Qed.

Lemma scanParams_skip pre rest :
  allBytes notOpen pre = true -> scanParams (pre +:+ rest) None = scanParams rest None.
Proof.
  induction pre as [|c pre IH]; [reflexivity|].
  rewrite str_app_cons. cbn [allBytes scanParams]. unfold notOpen at 1.
  intros [Hc Hpre]%andb_true_iff. apply negb_true_iff in Hc. rewrite Hc. exact (IH Hpre).
Qed.

Lemma scanParams_body name post :
  forall body,
    allBytes notClose name = true ->
    scanParams (name +:+ "}" +:+ post) (Some body)
    = if String.eqb (body +:+ name) "" then scanParams post None
      else (body +:+ name) :: scanParams post None.
Proof.
  induction name as [|c name IH]; intros body.
  - intros _. rewrite str_app_nil_l, str_app_nil_r. reflexivity.
  - rewrite str_app_cons. cbn [allBytes scanParams]. unfold notClose at 1.
    intros [Hc Hname]%andb_true_iff. apply negb_true_iff in Hc. rewrite Hc.
    rewrite (IH _ Hname), !str_app_assoc. reflexivity.
Qed.

Lemma isValidParamName_spec name :
  isValidParamName name = true
  <-> name = "id" \/ (strings.HasSuffix name "Id" = true /\ 2 < String.length name).
Proof.
  unfold isValidParamName. split.
  - destruct (existsb _ _) eqn:Hex.
    + intros _. apply existsb_exists in Hex. destruct Hex as (pattern & Hin & Heq).
      apply String.eqb_eq in Heq. subst pattern. cbn [In] in Hin.
      destruct Hin as [<-|Hin]; [left; reflexivity|].
      right. repeat (destruct Hin as [<-|Hin]; [split; [reflexivity | cbn; lia]|]).
      destruct Hin.
    + destruct (strings.HasSuffix name "Id"); [|discriminate].
      destruct (2 <? String.length name) eqn:Hlen; [|discriminate].
      intros _. right. split; [reflexivity|]. apply Nat.ltb_lt. exact Hlen.
  - intros [->|[Hsuf Hlen]]; [reflexivity|].
    destruct (existsb _ _); [reflexivity|].
    rewrite Hsuf. apply Nat.ltb_lt in Hlen. rewrite Hlen. reflexivity.
Qed.

(** X6: the parameter rule accepts a name exactly when it is id, or ends
    in Id and has more than two bytes: the other eight names of its list
    add nothing.  The rule passes exactly when every captured name is
    accepted; a captured name is never empty and holds no closing brace; a
    path without an opening brace passes; and a path that goes on, after a
    text without opening brace, with a non-empty name without closing brace
    between braces has that name as its first capture. *)
Theorem X6_parameter_names :
  (forall name,
     isValidParamName name = true
     <-> name = "id" \/ (strings.HasSuffix name "Id" = true /\ 2 < String.length name))
  /\ (forall path method operation,
        validateResourceIdParam path method operation = None
        <-> Forall (fun name => isValidParamName name = true) (scanParams path None))
  /\ (forall path,
        Forall (fun name => name <> "" /\ allBytes notClose name = true)
          (scanParams path None))
  /\ (forall path method operation,
        allBytes notOpen path = true -> validateResourceIdParam path method operation = None)
  /\ (forall pre name post,
        allBytes notOpen pre = true -> name <> "" -> allBytes notClose name = true ->
        scanParams (pre +:+ "{" +:+ name +:+ "}" +:+ post) None
        = name :: scanParams post None).
Proof.
  split; [exact isValidParamName_spec|]. split; [|split; [|split]].
  - intros path method operation. unfold validateResourceIdParam.
    induction (scanParams path None) as [|name names IH]; cbn [List.find].
    + split; [constructor | reflexivity].
    + destruct (isValidParamName name) eqn:Hname; cbn [negb].
      * rewrite IH. split; [intros H; constructor; assumption|].
        intros H. inversion H; assumption.
      * split; [discriminate|]. intros H. inversion H; congruence.
  - intros path. apply scanParams_shape. exact I.
  - intros path method operation Hpath. unfold validateResourceIdParam.
    rewrite <- (str_app_nil_r path), (scanParams_skip path "" Hpath). reflexivity.
  - intros pre name post Hpre Hne Hname.
    rewrite (scanParams_skip pre _ Hpre). rewrite str_app_cons. cbn [scanParams Ascii.eqb].
    change (scanParams ("" +:+ name +:+ "}" +:+ post) (Some ""))
      with (scanParams (name +:+ "}" +:+ post) (Some "")).
    rewrite (scanParams_body name post "" Hname), str_app_nil_l.
    destruct (String.eqb_spec name ""); [contradiction | reflexivity].
Qed.

Lemma X6_witness :
  scanParams ("/v1/users/" +:+ "{" +:+ "userId" +:+ "}" +:+ "/cars/{car_id}") None
  = "userId" :: scanParams "/cars/{car_id}" None.
Proof.
  apply (proj2 (proj2 (proj2 (proj2 X6_parameter_names)))); [reflexivity | discriminate | reflexivity].
Defined.

(** ** Camel-cased keys under the kebab-case rule *)

Lemma notSlash_toUpperByte c : notSlash c = true -> notSlash (strings.toUpperByte c) = true.
Proof. destruct c as [[] [] [] [] [] [] [] []]; intros H; try exact H; reflexivity. Qed.

Lemma isUpper_toUpperByte c : strings.isLower c = true -> notUpper (strings.toUpperByte c) = false.
Proof. destruct c as [[] [] [] [] [] [] [] []]; intros H; try discriminate H; reflexivity. Qed.

Lemma isLower_not_separator c : strings.isLower c = true -> isSeparator c = false.
Proof. destruct c as [[] [] [] [] [] [] [] []]; intros H; try discriminate H; reflexivity. Qed.

Lemma lowerDigit_notUpper c :
  strings.isLower c || strings.isDigit c = true -> notUpper c = true.
Proof. destruct c as [[] [] [] [] [] [] [] []]; intros H; try discriminate H; reflexivity. Qed.

Lemma isDigit_notUpper c : strings.isDigit c = true -> notUpper c = true.
Proof. intros H. apply lowerDigit_notUpper. rewrite H. apply orb_true_r. Qed.

Lemma notSlash_high b : asciiByte b = false -> notSlash b = true.
Proof. destruct b as [[] [] [] [] [] [] [] []]; intros H; try discriminate H; reflexivity. Qed.

Lemma kebabLoop_grows (p : ascii -> bool) s :
  forall out up, allBytes p out = false -> allBytes p (kebabLoop s out up) = false.
Proof.
  induction s as [|c s IH]; intros out up Hout; [exact Hout|].
  cbn [kebabLoop]. destruct (_ || _); [exact (IH _ _ Hout)|].
  destruct up; apply IH; rewrite allBytes_app, Hout; reflexivity.
Qed.

Lemma kebabLoop_capital a sep c b :
  isSeparator sep = true -> strings.isLower c = true ->
  forall out up,
    allBytes notUpper (kebabLoop (a +:+ String sep (String c b)) out up) = false.
Proof.
  intros Hsep Hc. induction a as [|x a IH]; intros out up.
  - rewrite str_app_nil_l. cbn [kebabLoop].
    change (Ascii.eqb sep "-" || Ascii.eqb sep "_" || Ascii.eqb sep " ") with (isSeparator sep).
    change (Ascii.eqb c "-" || Ascii.eqb c "_" || Ascii.eqb c " ") with (isSeparator c).
    rewrite Hsep, (isLower_not_separator c Hc).
    apply kebabLoop_grows. rewrite allBytes_app.
    destruct (upperOfByte_cases c) as [[_ ->]|[Hhigh _]];
      [|rewrite (notLower_high c Hhigh) in Hc; discriminate].
    cbn [allBytes]. rewrite (isUpper_toUpperByte c Hc). apply andb_false_r.
  - rewrite str_app_cons. cbn [kebabLoop]. destruct (_ || _); [apply IH|].
    destruct up; apply IH.
Qed.

Lemma allBytes_Join p l sep :
  Forall (fun x => allBytes p x = true) l -> allBytes p sep = true ->
  allBytes p (strings.Join l sep) = true.
Proof.
  intros Hl Hsep. induction Hl as [|x rest Hx Hrest IH]; [reflexivity|].
  destruct rest as [|y rest]; [exact Hx|].
  change (strings.Join (x :: y :: rest) sep) with (x +:+ sep +:+ strings.Join (y :: rest) sep).
  rewrite !allBytes_app, Hx, Hsep, IH. reflexivity.
Qed.

Lemma isVersionSegment_inv s :
  isVersionSegment s = true ->
  exists digits, s = String "v" digits /\ allBytes strings.isDigit digits = true.
Proof.
  destruct s as [|[[] [] [] [] [] [] [] []] digits]; try discriminate.
  cbn. intros [_ Hd]%andb_true_iff. exists digits. split; [reflexivity | exact Hd].
Qed.

Lemma brace_match (f : string -> bool) s :
  strings.HasPrefix s "{" = false ->
  match s with String "{" rest => f rest | _ => false end = false.
Proof.
  destruct s as [|[[] [] [] [] [] [] [] []] rest]; intros H; try reflexivity.
  cbn in H. discriminate H.
Qed.

Lemma isKebabSegment_capital s :
  strings.HasPrefix s "{" = false -> allBytes notUpper s = false ->
  isKebabSegment s = false.
Proof.
  intros Hpre Hup. unfold isKebabSegment.
  assert (HA : forallb (fun g => negb (String.eqb g "")
                                 && allBytes (fun c => strings.isLower c || strings.isDigit c) g)
                 (strings.Split s "-") = false).
  { destruct (forallb _ _) eqn:HA; [|reflexivity].
    rewrite forallb_forall in HA.
    assert (Hall : Forall (fun x => allBytes notUpper x = true) (strings.Split s "-")).
    { apply List.Forall_forall. intros x Hx. specialize (HA x Hx).
      apply andb_true_iff in HA. destruct HA as [_ HA].
      exact (allBytes_impl _ _ x lowerDigit_notUpper HA). }
    pose proof (allBytes_Join notUpper _ "-" Hall eq_refl) as Hj.
    change "-"%string with (String "-"%char "") in Hj.
    rewrite Join_Split in Hj. congruence. }
  assert (HB : isVersionSegment s = false).
  { destruct (isVersionSegment s) eqn:HB; [|reflexivity].
    destruct (isVersionSegment_inv s HB) as (digits & -> & Hd).
    cbn [allBytes] in Hup.
    rewrite (allBytes_impl _ _ digits isDigit_notUpper Hd) in Hup. discriminate. }
  rewrite HA, HB. cbn [orb]. exact (brace_match _ s Hpre).
Qed.

Lemma TrimRightFunc_app_keep f s x :
  x <> "" -> allBytes (fun c => negb (f c)) x = true ->
  strings.TrimRightFunc f (s +:+ x) = s +:+ x.
Proof.
  intros Hne Hx. induction s as [|a s IH]; [rewrite str_app_nil_l; exact (TrimRightFunc_plain f x Hx)|].
  rewrite str_app_cons. cbn [strings.TrimRightFunc]. rewrite IH.
  destruct (s +:+ x) eqn:Hsx; [|reflexivity].
  destruct s; [rewrite str_app_nil_l in Hsx; contradiction | rewrite str_app_cons in Hsx; discriminate].
Qed.

Lemma Trim_key l x :
  Forall (fun e => isElem e = true) l ->
  x <> "" -> allBytes notSlash x = true ->
  strings.Trim ("/" +:+ strings.Join (l ++ [x]) "/") "/" = strings.Join (l ++ [x]) "/".
Proof.
  intros Hl Hne Hx. unfold strings.Trim.
  assert (Hx' : allBytes (fun c => negb (Ascii.eqb "/" c)) x = true).
  { refine (allBytes_impl _ _ x _ Hx). intros c. unfold notSlash.
    rewrite (Ascii.eqb_sym c "/"). exact id. }
  assert (Hleft : strings.TrimLeftFunc (Ascii.eqb "/") ("/" +:+ strings.Join (l ++ [x]) "/")
                  = strings.Join (l ++ [x]) "/").
  { change ("/" +:+ strings.Join (l ++ [x]) "/") with (String "/" (strings.Join (l ++ [x]) "/")).
    cbn [strings.TrimLeftFunc Ascii.eqb Bool.eqb].
    assert (Hhead : exists c t, strings.Join (l ++ [x]) "/" = String c t /\ notSlash c = true).
    { destruct l as [|e l].
      - destruct x as [|c t]; [contradiction|]. exists c, t. split; [reflexivity|].
        cbn [allBytes] in Hx. apply andb_true_iff in Hx. apply Hx.
      - inversion Hl as [|? ? He _]; subst. apply isElem_inv in He.
        destruct He as (He & _ & _ & Hs). destruct e as [|c t]; [discriminate|].
        cbn [allBytes] in Hs. apply andb_true_iff in Hs.
        destruct (l ++ [x]) as [|y r] eqn:Hlx; [destruct l; discriminate|].
        exists c. eexists. split; [|apply Hs].
        change (strings.Join ((String c t :: l) ++ [x]) "/")
          with (strings.Join (String c t :: (l ++ [x])) "/").
        rewrite Hlx. reflexivity. }
    destruct Hhead as (c & t & -> & Hc). cbn [strings.TrimLeftFunc].
    unfold notSlash in Hc. apply negb_true_iff in Hc. rewrite Ascii.eqb_sym, Hc. reflexivity. }
  rewrite Hleft.
  destruct l as [|e l]; [exact (TrimRightFunc_plain _ x Hx')|].
  rewrite (Join_snoc (e :: l) x "/" ltac:(discriminate)), <- str_app_assoc.
  exact (TrimRightFunc_app_keep _ _ x Hne Hx').
Qed.

(** X7: a path segment that holds an upper-case letter and does not start
    with an opening brace is not kebab-case.  Camel-casing a name in which a
    separator is followed by a lower-case letter yields an upper-case letter.
    So the path key of a fragment whose camel-cased file name holds an
    upper-case letter (and does not start with a brace) is always rejected
    by the kebab-case rule, whatever its directories. *)
Theorem X7_camel_keys_fail_kebab_rule :
  (forall s,
     strings.HasPrefix s "{" = false -> allBytes notUpper s = false ->
     isKebabSegment s = false)
  /\ (forall a sep c b,
        isSeparator sep = true -> strings.isLower c = true ->
        allBytes notUpper (kebabToCamel (a +:+ String sep (String c b))) = false)
  /\ (forall root dirs name method operation,
        Forall (fun e => isElem e = true) root ->
        Forall (fun e => isElem e = true) dirs ->
        isElem (name +:+ ".yaml") = true ->
        strings.HasPrefix (kebabToCamel name) "{" = false ->
        allBytes notUpper (kebabToCamel name) = false ->
        exists segment,
          In segment (dirs ++ [kebabToCamel name])
          /\ validateKebabCase
               (buildPathKey (absPath root) (absPath (root ++ dirs ++ [name +:+ ".yaml"])))
               method operation
             = Some ("path segment '" +:+ segment
                     +:+ "' should use kebab-case (lowercase with dashes)")).
Proof.
  split; [exact isKebabSegment_capital|]. split.
  - intros a sep c b Hsep Hc. apply kebabLoop_capital; assumption.
  - intros root dirs name method operation Hroot Hdirs Hfile Hpre Hup.
    rewrite (buildPathKey_absPath root dirs _ Hroot Hdirs Hfile), TrimSuffix_app.
    set (camel := kebabToCamel name) in *.
    assert (Hne : camel <> "") by (intros Heq; rewrite Heq in Hup; discriminate).
    assert (Hslash : allBytes notSlash camel = true).
    { apply (kebabLoop_keeps notSlash name notSlash_high notSlash_toUpperByte); [reflexivity|].
      apply isElem_inv in Hfile. destruct Hfile as (_ & _ & _ & Hs).
      rewrite allBytes_app in Hs. apply andb_true_iff in Hs. apply Hs. }
    unfold validateKebabCase. rewrite (Trim_key dirs camel Hdirs Hne Hslash).
    assert (Hsplit : strings.Split (strings.Join (dirs ++ [camel]) "/") "/" = dirs ++ [camel]).
    { apply (Split_Join (dirs ++ [camel]) "/"); [destruct dirs; discriminate|].
      apply Forall_app. split; [exact (Forall_isElem_notSlash dirs Hdirs)|].
      repeat constructor. exact Hslash. }
    rewrite Hsplit.
    destruct (List.find _ (dirs ++ [camel])) as [segment|] eqn:Hfind.
    + exists segment. split; [|reflexivity]. apply (List.find_some _ _ Hfind).
    + exfalso.
      assert (Hin : In camel (dirs ++ [camel])) by (apply in_or_app; right; left; reflexivity).
      pose proof (List.find_none _ _ Hfind camel Hin) as Hnone. cbn beta in Hnone.
      rewrite (isKebabSegment_capital camel Hpre Hup) in Hnone. discriminate.
Qed.

Lemma X7_witness :
  exists segment,
    In segment (["v1"] ++ [kebabToCamel "list-items"])
    /\ validateKebabCase
         (buildPathKey (absPath ["api"; "paths"])
            (absPath (["api"; "paths"] ++ ["v1"] ++ ["list-items" +:+ ".yaml"])))
         "get" []
       = Some ("path segment '" +:+ segment
               +:+ "' should use kebab-case (lowercase with dashes)").
Proof.
  apply (proj2 (proj2 X7_camel_keys_fail_kebab_rule) ["api"; "paths"] ["v1"] "list-items" "get" []);
    try reflexivity; repeat constructor.
Defined.

(** ** The shape of the name map *)

Lemma toLowerByte_idem c : strings.toLowerByte (strings.toLowerByte c) = strings.toLowerByte c.
Proof. destruct c as [[] [] [] [] [] [] [] []]; reflexivity. Qed.

Lemma ToLower_idem s : strings.ToLower (strings.ToLower s) = strings.ToLower s.
Proof.
  unfold strings.ToLower. induction s as [|c s IH]; [reflexivity|].
  cbn [strings.mapBytes]. rewrite toLowerByte_idem, IH. reflexivity.
Qed.

Lemma allBytes_last p l d :
  Forall (fun x => allBytes p x = true) l -> allBytes p d = true ->
  allBytes p (List.last l d) = true.
Proof.
  intros Hl Hd. induction Hl as [|x rest Hx Hrest IH]; [exact Hd|].
  destruct rest; [exact Hx | exact IH].
Qed.

Lemma Split_keeps p s sep :
  allBytes p s = true -> Forall (fun x => allBytes p x = true) (strings.Split s sep).
Proof.
  induction s as [|c s IH]; [repeat constructor|]. cbn [allBytes strings.Split].
  intros [Hc Hs]%andb_true_iff. specialize (IH Hs).
  destruct (Ascii.eqb c sep); [constructor; [reflexivity | exact IH]|].
  destruct (strings.Split s sep) as [|h t]; [repeat constructor; cbn; rewrite Hc; reflexivity|].
  inversion IH as [|? ? Hh Ht]; subst. constructor; [|exact Ht].
  cbn [allBytes]. rewrite Hc, Hh. reflexivity.
Qed.

Lemma stem_keeps (p : ascii -> bool) f :
  p "."%char = true -> p "/"%char = true ->
  allBytes p f = true -> allBytes p (stem f) = true.
Proof.
  intros Hdot Hslash Hf. unfold stem, strings.TrimSuffix.
  assert (Hbase : allBytes p (filepath.Base f) = true).
  { unfold filepath.Base. destruct (String.eqb f ""); [cbn; rewrite Hdot; reflexivity|].
    destruct (String.eqb _ ""); [cbn; rewrite Hslash; reflexivity|].
    apply allBytes_last; [|reflexivity]. apply Split_keeps.
    apply allBytes_TrimRight. exact Hf. }
  destruct (strings.HasSuffix _ _); [apply allBytes_take|]; exact Hbase.
Qed.

(** X8: in the map that buildNameMap returns every key is in lower case
    and every name holds none of the separators and does not start with a
    lower-case letter.  A directory that is missing, or is not a directory,
    gives the empty map.  When no listed file has a line feed in its path,
    no name of the map holds one; and when the listed paths are made of
    ASCII bytes, every name is made of ASCII bytes and is its own
    Pascal-case form. *)
Theorem X8_name_map_shape :
  (forall fs dir k v,
     buildNameMap fs dir !! k = Some v ->
     strings.ToLower k = k
     /\ allBytes (fun c => negb (isSeparator c)) v = true
     /\ match v with "" => True | String c _ => strings.isLower c = false end)
  /\ (forall fs dir,
        match fsLookup fs dir with Some d => IsDir d = false | None => True end ->
        buildNameMap fs dir = ∅)
  /\ (forall fs dir,
        Forall (fun f => allBytes notLF f = true) (fst (listYAMLFiles fs dir)) ->
        lfFree (buildNameMap fs dir))
  /\ (forall fs dir k v,
        Forall (fun f => allBytes asciiByte f = true) (fst (listYAMLFiles fs dir)) ->
        buildNameMap fs dir !! k = Some v ->
        allBytes asciiByte v = true /\ pascalCase v = v).
Proof.
  split; [|split; [|split]].
  - intros fs dir k v Hk. rewrite buildNameMap_fold in Hk.
    destruct (nameFold_sound _ k v Hk) as (f & _ & Hkey & ->).
    split; [destruct Hkey as [->| ->]; apply ToLower_idem|].
    split; [apply pascalCase_no_separator|].
    pose proof (pascalCase_start (stem f)) as Hstart.
    destruct (pascalCase (stem f)); [exact I | exact Hstart].
  - intros fs dir Hdir. unfold buildNameMap, listYAMLFiles.
    destruct (fsLookup fs dir) as [d|]; [rewrite Hdir|]; reflexivity.
  - intros fs dir Hfiles k v Hk. rewrite buildNameMap_fold in Hk.
    destruct (nameFold_sound _ k v Hk) as (f & Hf & _ & ->).
    apply allBytes_pascalCase, (stem_keeps notLF); [reflexivity | reflexivity|].
    rewrite List.Forall_forall in Hfiles. exact (Hfiles f Hf).
  - intros fs dir k v Hfiles Hk. rewrite buildNameMap_fold in Hk.
    destruct (nameFold_sound _ k v Hk) as (f & Hf & _ & ->).
    rewrite List.Forall_forall in Hfiles.
    pose proof (stem_keeps asciiByte f eq_refl eq_refl (Hfiles f Hf)) as Hstem.
    split; [exact (proj2 (pascalCase_ascii _ Hstem)) | exact (pascalCase_idem _ Hstem)].
Qed.

Lemma X8_witness :
  (strings.ToLower "user-account.yaml" = "user-account.yaml"
   /\ allBytes (fun c => negb (isSeparator c)) "UserAccount" = true
   /\ strings.isLower "U" = false)
  /\ buildNameMap schemasFS "/api/missing" = ∅
  /\ lfFree (buildNameMap schemasFS "/api/components/schemas")
  /\ allBytes asciiByte "UserAccount" = true /\ pascalCase "UserAccount" = "UserAccount".
Proof.
  split; [|split; [|split]].
  - apply (proj1 X8_name_map_shape schemasFS "/api/components/schemas"
             "user-account.yaml" "UserAccount").
    vm_compute. reflexivity.
  - apply (proj1 (proj2 X8_name_map_shape) schemasFS "/api/missing"). exact I.
  - apply (proj1 (proj2 (proj2 X8_name_map_shape)) schemasFS "/api/components/schemas").
    repeat constructor.
  - apply (proj2 (proj2 (proj2 X8_name_map_shape)) schemasFS "/api/components/schemas"
             "user-account.yaml" "UserAccount").
    + repeat constructor.
    + vm_compute. reflexivity.
Defined.

(** ** The Go package name *)

Lemma Base_cases p : filepath.Base p = "/" \/ allBytes notSlash (filepath.Base p) = true.
Proof.
  unfold filepath.Base. destruct (String.eqb p ""); [right; reflexivity|].
  destruct (String.eqb _ ""); [left; reflexivity|]. right.
  apply allBytes_last; [|reflexivity]. apply Split_pieces.
Qed.

Lemma Base_plain s : s <> "" -> allBytes notSlash s = true -> filepath.Base s = s.
Proof.
  intros Hne Hs. unfold filepath.Base, strings.TrimRight.
  destruct (String.eqb_spec s ""); [contradiction|].
  assert (Hs' : allBytes (fun c => negb (Ascii.eqb "/" c)) s = true).
  { refine (allBytes_impl _ _ s _ Hs). intros c. unfold notSlash.
    rewrite (Ascii.eqb_sym c "/"). exact id. }
  rewrite (TrimRightFunc_plain _ s Hs').
  destruct (String.eqb_spec s ""); [contradiction|].
  rewrite (Split_none s "/" Hs). reflexivity.
Qed.

Lemma Replace_shape b :
  allBytes (fun c => negb (Ascii.eqb c "-") && negb (Ascii.eqb c "."))
    (ReplaceAllByte (ReplaceAllByte b "-" "_") "." "_") = true.
Proof.
  unfold ReplaceAllByte. induction b as [|c b IH]; [reflexivity|].
  cbn [strings.mapBytes allBytes]. rewrite IH, andb_true_r.
  destruct (Ascii.eqb_spec c "-") as [->|H1]; [reflexivity|].
  destruct (Ascii.eqb_spec c ".") as [->|H2]; [reflexivity|].
  destruct (Ascii.eqb_spec c "-"); [contradiction|].
  destruct (Ascii.eqb_spec c "."); [contradiction | reflexivity].
Qed.

Lemma Replace_notSlash b :
  allBytes notSlash b = true ->
  allBytes notSlash (ReplaceAllByte (ReplaceAllByte b "-" "_") "." "_") = true.
Proof.
  unfold ReplaceAllByte. induction b as [|c b IH]; [reflexivity|].
  cbn [strings.mapBytes allBytes]. intros [Hc Hb]%andb_true_iff. rewrite (IH Hb), andb_true_r.
  destruct (Ascii.eqb c "-"); [reflexivity|]. destruct (Ascii.eqb c "."); [reflexivity | exact Hc].
Qed.

Lemma Replace_plain s :
  allBytes pkgByte s = true -> ReplaceAllByte (ReplaceAllByte s "-" "_") "." "_" = s.
Proof.
  unfold ReplaceAllByte. induction s as [|c s IH]; [reflexivity|].
  cbn [strings.mapBytes allBytes]. intros [Hc Hs]%andb_true_iff. rewrite (IH Hs).
  unfold pkgByte in Hc. apply andb_true_iff in Hc as [Hc _]. apply andb_true_iff in Hc as [H1 H2].
  apply negb_true_iff in H1, H2. rewrite H1, H2. reflexivity.
Qed.

Lemma letter_test c :
  (let n := nat_of_ascii c in ((n <? 65) || (122 <? n)) || ((90 <? n) && (n <? 97))) = false
  <-> isLetter c = true.
Proof.
  unfold isLetter, strings.isUpper, strings.isLower. cbn zeta.
  destruct (Nat.ltb_spec (nat_of_ascii c) 65), (Nat.ltb_spec 122 (nat_of_ascii c)),
    (Nat.ltb_spec 90 (nat_of_ascii c)), (Nat.ltb_spec (nat_of_ascii c) 97),
    (Nat.leb_spec 65 (nat_of_ascii c)), (Nat.leb_spec (nat_of_ascii c) 90),
    (Nat.leb_spec 97 (nat_of_ascii c)), (Nat.leb_spec (nat_of_ascii c) 122);
    cbn; split; intros; try reflexivity; try discriminate; lia.
Qed.

Lemma guessPackage_shape dir :
  exists c rest,
    guessPackage dir = String c rest /\ isLetter c = true
    /\ allBytes pkgByte (guessPackage dir) = true.
Proof.
  unfold guessPackage.
  set (base := ReplaceAllByte (ReplaceAllByte (filepath.Base dir) "-" "_") "." "_").
  destruct (String.eqb_spec base "") as [|H0]; [exists "a"%char, "pi"; repeat split|].
  destruct (String.eqb_spec base "/") as [|H1]; [exists "a"%char, "pi"; repeat split|].
  destruct (String.eqb_spec base ".") as [|H2]; [exists "a"%char, "pi"; repeat split|].
  cbn [orb]. destruct base as [|b0 rest] eqn:Hbase; [contradiction|].
  destruct (_ || _) eqn:Htest; [exists "a"%char, "pi"; repeat split|].
  exists b0, rest. split; [reflexivity|]. split; [apply letter_test; exact Htest|].
  rewrite <- Hbase. subst base.
  pose proof (Replace_shape (filepath.Base dir)) as Hshape.
  destruct (Base_cases dir) as [Hroot|Hplain].
  - rewrite Hroot in Hbase. vm_compute in Hbase. symmetry in Hbase. contradiction.
  - pose proof (Replace_notSlash _ Hplain) as Hslash.
    revert Hshape Hslash. generalize (ReplaceAllByte (ReplaceAllByte (filepath.Base dir) "-" "_") "." "_").
    intros s. induction s as [|c s IH]; [reflexivity|]. cbn [allBytes].
    intros [Hc Hs]%andb_true_iff [Hc' Hs']%andb_true_iff.
    rewrite (IH Hs Hs'), andb_true_r. unfold pkgByte. rewrite Hc. exact Hc'.
Qed.

(** X9: the package name guessed for a directory always starts with an
    ASCII letter and holds no dash, dot or slash; guessing again from the
    guessed name gives the same name; and a directory whose base name starts
    with a byte that is not a letter (a digit, or the dot of . and ..) gets
    the name api. *)
Theorem X9_guessPackage_shape :
  (forall dir,
     exists c rest,
       guessPackage dir = String c rest /\ isLetter c = true
       /\ allBytes pkgByte (guessPackage dir) = true)
  /\ (forall dir, guessPackage (guessPackage dir) = guessPackage dir)
  /\ (forall c rest,
        isLetter c = false -> allBytes notSlash (String c rest) = true ->
        guessPackage (String c rest) = "api").
Proof.
  split; [exact guessPackage_shape|]. split.
  - intros dir. destruct (guessPackage_shape dir) as (c & rest & Heq & Hc & Hall).
    rewrite Heq in Hall |- *. unfold guessPackage.
    assert (Hslash : allBytes notSlash (String c rest) = true).
    { refine (allBytes_impl _ _ _ _ Hall). intros x. unfold pkgByte, notSlash.
      intros [_ H]%andb_true_iff. exact H. }
    rewrite (Base_plain (String c rest) ltac:(discriminate) Hslash), (Replace_plain _ Hall).
    destruct (String.eqb_spec (String c rest) "/") as [Heq'|_].
    { rewrite Heq' in Hslash. discriminate. }
    destruct (String.eqb_spec (String c rest) ".") as [Heq'|_].
    { rewrite Heq' in Hall. discriminate. }
    cbn [String.eqb orb]. apply letter_test in Hc. cbn zeta in Hc. rewrite Hc. reflexivity.
  - intros c rest Hc Hslash. unfold guessPackage.
    rewrite (Base_plain (String c rest) ltac:(discriminate) Hslash).
    destruct (_ || _ || _); [reflexivity|].
    unfold ReplaceAllByte at 1 2. cbn [strings.mapBytes].
    assert (Hkeep : forall x, isLetter x = false ->
              isLetter (if Ascii.eqb (if Ascii.eqb x "-" then "_"%char else x) "." then "_"%char
                        else if Ascii.eqb x "-" then "_"%char else x) = false).
    { intros x Hx. destruct (Ascii.eqb x "-"); [reflexivity|].
      destruct (Ascii.eqb x "."); [reflexivity | exact Hx]. }
    specialize (Hkeep c Hc).
    destruct (_ || _) eqn:Htest; [reflexivity|].
    apply letter_test in Htest. congruence.
Qed.

Lemma X9_witness : guessPackage "2fa-client" = "api".
Proof.
  apply (proj2 (proj2 X9_guessPackage_shape) "2"%char "fa-client"); reflexivity.
Defined.

(** ** Cleaned absolute paths and the configuration *)

Lemma Forall_removelast {A} (P : A -> Prop) (l : list A) :
  Forall P l -> Forall P (removelast l).
Proof.
  intros Hl. induction Hl as [|x rest Hx Hrest IH]; [constructor|].
  cbn [removelast]. destruct rest; [constructor|]. constructor; [exact Hx | exact IH].
Qed.

Lemma cleanStep_elems kept elem :
  allBytes notSlash elem = true ->
  Forall (fun e => isElem e = true) kept ->
  Forall (fun e => isElem e = true) (filepath.cleanStep true kept elem).
Proof.
  intros Helem Hkept. unfold filepath.cleanStep.
  destruct (String.eqb elem "") eqn:H0; [exact Hkept|].
  destruct (String.eqb elem ".") eqn:H1; [exact Hkept|]. cbn [orb].
  destruct (String.eqb elem "..") eqn:H2.
  - destruct (rev kept) as [|top rest] eqn:Hrev; [exact Hkept|].
    destruct (String.eqb top "..") eqn:Htop; [|apply Forall_removelast; exact Hkept].
    exfalso.
    assert (Hin : In top kept) by (apply in_rev; rewrite Hrev; left; reflexivity).
    rewrite List.Forall_forall in Hkept. specialize (Hkept top Hin).
    apply isElem_inv in Hkept. destruct Hkept as (_ & _ & Hk & _). congruence.
  - apply Forall_app. split; [exact Hkept|]. repeat constructor.
    unfold isElem. rewrite H0, H1, H2, Helem. reflexivity.
Qed.

Lemma fold_cleanStep_elems l :
  forall kept,
    Forall (fun x => allBytes notSlash x = true) l ->
    Forall (fun e => isElem e = true) kept ->
    Forall (fun e => isElem e = true) (fold_left (filepath.cleanStep true) l kept).
Proof.
  induction l as [|x l IH]; intros kept Hl Hkept; [exact Hkept|].
  inversion Hl as [|? ? Hx Hrest]; subst. cbn [fold_left].
  apply IH; [exact Hrest|]. apply cleanStep_elems; assumption.
Qed.

Lemma Clean_rooted p :
  filepath.rooted p = true ->
  exists l, Forall (fun e => isElem e = true) l /\ filepath.Clean p = absPath l.
Proof.
  intros Hp. unfold filepath.Clean. rewrite Hp.
  exists (fold_left (filepath.cleanStep true) (strings.Split p "/") []).
  split; [|reflexivity].
  apply fold_cleanStep_elems; [apply Split_pieces | constructor].
Qed.

Lemma Join_app l m sep :
  l <> [] -> m <> [] ->
  strings.Join (l ++ m) sep = strings.Join l sep +:+ sep +:+ strings.Join m sep.
Proof.
  intros Hl Hm. induction l as [|a [|b l] IH]; [contradiction| |].
  - destruct m; [contradiction | reflexivity].
  - change (strings.Join ((a :: b :: l) ++ m) sep)
      with (a +:+ sep +:+ strings.Join ((b :: l) ++ m) sep).
    rewrite (IH ltac:(discriminate)).
    change (strings.Join (a :: b :: l) sep) with (a +:+ sep +:+ strings.Join (b :: l) sep).
    rewrite !str_app_assoc. reflexivity.
Qed.

Lemma Clean_absPath_app l m :
  Forall (fun e => isElem e = true) l -> Forall (fun e => isElem e = true) m -> m <> [] ->
  filepath.Clean (absPath l +:+ "/" +:+ strings.Join m "/") = absPath (l ++ m).
Proof.
  intros Hl Hm Hne. destruct l as [|e l].
  - unfold filepath.Clean.
    change (filepath.rooted (absPath [] +:+ "/" +:+ strings.Join m "/")) with true. cbn match.
    change (absPath [] +:+ "/" +:+ strings.Join m "/")
      with ("" +:+ String "/" ("" +:+ String "/" (strings.Join m "/"))).
    rewrite !(Split_app_sep "" _ "/" eq_refl).
    rewrite (Split_Join m "/" Hne (Forall_isElem_notSlash m Hm)).
    cbn [fold_left].
    change (filepath.cleanStep true (filepath.cleanStep true [] "") "") with (@nil string).
    rewrite (fold_cleanStep true m [] Hm). cbn [app].
    destruct m; [contradiction | reflexivity].
  - unfold absPath at 1. rewrite !str_app_assoc.
    rewrite <- (Join_app (e :: l) m "/" ltac:(discriminate) Hne).
    apply (Clean_absPath ((e :: l) ++ m)). apply Forall_app. split; assumption.
Qed.

Lemma absJoin_absolute base p :
  filepath.IsAbs base = true ->
  exists l, Forall (fun e => isElem e = true) l /\ absJoin base p = absPath l.
Proof.
  intros Hbase. unfold absJoin.
  destruct (filepath.IsAbs p) eqn:Hp; [exact (Clean_rooted p Hp)|].
  assert (Hjoin : exists l, Forall (fun e => isElem e = true) l /\ filepath.Join base p = absPath l).
  { unfold filepath.Join. destruct base as [|c base]; [discriminate|].
    cbn [String.eqb]. destruct (String.eqb p "").
    - exact (Clean_rooted _ Hbase).
    - apply Clean_rooted. exact (HasPrefix_app_l _ _ "/" Hbase). }
  destruct Hjoin as (l & Hl & ->). exists l. split; [exact Hl | exact (Clean_absPath l Hl)].
Qed.

Lemma absPath_nonempty l : String.eqb (absPath l) "" = false.
Proof. reflexivity. Qed.

Lemma Join_absPath l m :
  Forall (fun e => isElem e = true) l -> Forall (fun e => isElem e = true) m -> m <> [] ->
  JoinElems (absPath l :: m) = absPath (l ++ m).
Proof.
  intros Hl Hm Hne. unfold JoinElems. cbn [List.filter]. rewrite absPath_nonempty. cbn [negb].
  assert (Hfilter : List.filter (fun e => negb (String.eqb e "")) m = m).
  { clear Hne. induction Hm as [|e rest He Hrest IH]; [reflexivity|].
    cbn [List.filter]. apply isElem_inv in He. destruct He as (-> & _). cbn [negb].
    rewrite IH. reflexivity. }
  rewrite Hfilter. destruct m as [|e rest]; [contradiction|].
  exact (Clean_absPath_app l (e :: rest) Hl Hm Hne).
Qed.

(** X10: cleaning an absolute path gives a slash followed by proper path
    elements joined by slashes, and so does absJoin on an absolute base,
    whatever its second argument.  buildConfig fails only for want of an
    input directory, and then with the missing-flag error; when the working
    directory is absolute the directories of the configuration it returns
    are such cleaned absolute paths, the three fragment directories being
    paths, components/schemas and components/parameters below the input
    directory, and the root file lying at or below the root of the file
    system. *)
Theorem X10_config_paths_absolute :
  (forall p,
     filepath.IsAbs p = true ->
     exists l, Forall (fun e => isElem e = true) l /\ filepath.Clean p = absPath l)
  /\ (forall base p,
        filepath.IsAbs base = true ->
        exists l, Forall (fun e => isElem e = true) l /\ absJoin base p = absPath l)
  /\ (forall fs cwd fl,
        snd (buildConfig fs cwd fl) = None \/ snd (buildConfig fs cwd fl) = Some errMissingInput)
  /\ (forall fs cwd fl,
        snd (buildConfig fs cwd fl) = Some errMissingInput
        <-> listPresets fl = false
            /\ strings.TrimSpace (inputDirFlag fl) = ""
            /\ strings.TrimSpace (inputDirFlagS fl) = "")
  /\ (forall fs cwd fl c,
        filepath.IsAbs cwd = true ->
        buildConfig fs cwd fl = (Some c, None) ->
        exists li lo lr,
          Forall (fun e => isElem e = true) li
          /\ Forall (fun e => isElem e = true) lo
          /\ Forall (fun e => isElem e = true) lr
          /\ InputDir c = absPath li
          /\ OutputDir c = absPath lo
          /\ RootPath (Compose c) = absPath lr
          /\ PathsDir (Compose c) = absPath (li ++ ["paths"])
          /\ SchemasDir (Compose c) = absPath (li ++ ["components"; "schemas"])
          /\ ParamsDir (Compose c) = absPath (li ++ ["components"; "parameters"])).
Proof.
  split; [exact Clean_rooted|]. split; [exact absJoin_absolute|]. split; [|split].
  - intros fs cwd fl. unfold buildConfig. destruct (listPresets fl); [left; reflexivity|].
    destruct (String.eqb _ ""); [right | left]; reflexivity.
  - intros fs cwd fl. unfold buildConfig. cbn [firstNonEmpty].
    destruct (listPresets fl); [split; [discriminate | intros [[=] _]]|].
    destruct (String.eqb_spec (strings.TrimSpace (inputDirFlag fl)) "") as [H1|H1]; cbn [negb].
    + destruct (String.eqb_spec (strings.TrimSpace (inputDirFlagS fl)) "") as [H2|H2]; cbn [negb].
      * change (strings.TrimSpace "") with "". cbn [String.eqb snd]. tauto.
      * destruct (String.eqb_spec (strings.TrimSpace (inputDirFlagS fl)) ""); [contradiction|].
        cbn [snd]. split; [discriminate | tauto].
    + destruct (String.eqb_spec (strings.TrimSpace (inputDirFlag fl)) ""); [contradiction|].
      cbn [snd]. split; [discriminate | tauto].
  - intros fs cwd fl c Hcwd. unfold buildConfig. destruct (listPresets fl); [discriminate|].
    set (inputDir := firstNonEmpty [inputDirFlag fl; inputDirFlagS fl]).
    set (outputDir := firstNonEmpty [outputDirFlag fl; outputDirFlagS fl]).
    destruct (String.eqb (strings.TrimSpace inputDir) ""); [discriminate|].
    intros [= <-]. cbn [InputDir OutputDir Compose RootPath PathsDir SchemasDir ParamsDir].
    destruct (absJoin_absolute cwd inputDir Hcwd) as (li & Hli & Ei).
    destruct (absJoin_absolute cwd
                (if String.eqb (strings.TrimSpace outputDir) "" then inputDir else outputDir)
                Hcwd) as (lo & Hlo & Eo).
    rewrite Ei, Eo.
    destruct (absJoin_absolute (absPath lo)
                (if String.eqb (strings.TrimSpace
                                  (firstNonEmpty [rootFileFlag fl; rootFileFlagS fl])) ""
                 then "root.yaml" else firstNonEmpty [rootFileFlag fl; rootFileFlagS fl])
                eq_refl) as (lr & Hlr & Er).
    exists li, lo, lr. repeat (split; [first [assumption | reflexivity]|]).
    split; [|split].
    + unfold filepath.Join. rewrite absPath_nonempty. cbn [String.eqb].
      exact (Clean_absPath_app li ["paths"] Hli ltac:(repeat constructor) ltac:(discriminate)).
    + exact (Join_absPath li ["components"; "schemas"] Hli
               ltac:(repeat constructor) ltac:(discriminate)).
    + exact (Join_absPath li ["components"; "parameters"] Hli
               ltac:(repeat constructor) ltac:(discriminate)).
Qed.

Lemma X10_witness :
  exists li lo lr,
    Forall (fun e => isElem e = true) li
    /\ Forall (fun e => isElem e = true) lo
    /\ Forall (fun e => isElem e = true) lr
    /\ "/work/api" = absPath li
    /\ "/work/api" = absPath lo
    /\ "/work/api/root.yaml" = absPath lr
    /\ "/work/api/paths" = absPath (li ++ ["paths"])
    /\ "/work/api/components/schemas" = absPath (li ++ ["components"; "schemas"])
    /\ "/work/api/components/parameters" = absPath (li ++ ["components"; "parameters"]).
Proof.
  exact (proj2 (proj2 (proj2 (proj2 X10_config_paths_absolute))) (FDir []) "/work"
           (plainFlags "./api/" false)
           {| Compose := {| RootPath := "/work/api/root.yaml";
                            PathsDir := "/work/api/paths";
                            SchemasDir := "/work/api/components/schemas";
                            ParamsDir := "/work/api/components/parameters";
                            Join := false |};
              Cwd := "/work"; InputDir := "/work/api"; OutputDir := "/work/api";
              RootFile := "root.yaml"; OutputTS := ""; OutputGo := ""; Redocly := "";
              BundleOut := ""; RedoclyConfig := ""; TSGenerator := "typescript-fetch";
              GoGenerator := "go"; ValidatePreset := ""; SkipValidation := false;
              ValidateStopOnError := false |}
           eq_refl eq_refl).
Defined.

(** ** When validation passes *)

Lemma resultsOf_failed path method rule msg pre :
  resultsOf ([evRule path method rule (Some msg)] ++ pre) <> [].
Proof. discriminate. Qed.

Lemma runRules_pass rules apiPath method operation :
  forall st st' err,
    runRules rules apiPath method operation st = (st', err) ->
    exists pre,
      ledgerStep st st' pre
      /\ ((err = None /\ resultsOf pre = [])
          <-> forall rule, In rule rules ->
                ValidationRule.Validate rule apiPath method operation = None).
Proof.
  induction rules as [|rule rest IH]; intros st st' err; cbn [runRules].
  - intros [= <- <-]. exists []. split; [apply ledgerStep_refl|].
    split; [intros _ rule [] | intros _; split; reflexivity].
  - destruct (ValidationRule.Validate rule apiPath method operation) as [msg|] eqn:Hv.
    + pose proof (ledgerStep_record st apiPath method (ValidationRule.Name rule) msg) as Hrec.
      assert (Hfail : ~ (forall r, In r (rule :: rest) ->
                           ValidationRule.Validate r apiPath method operation = None)).
      { intros Hall. specialize (Hall rule (or_introl eq_refl)). congruence. }
      destruct (StopOnError _).
      * intros [= <- <-]. eexists. split; [exact Hrec|].
        split; [intros [[=] _] | intros Hall; contradiction].
      * intros Hrun. destruct (IH _ _ _ Hrun) as (pre & Hpre & _).
        eexists. split; [exact (ledgerStep_trans _ _ _ _ _ Hrec Hpre)|].
        split; [intros [_ Hnil]; destruct (resultsOf_failed _ _ _ _ _ Hnil)
               | intros Hall; contradiction].
    + intros Hrun. destruct (IH _ _ _ Hrun) as (pre & Hpre & Hiff).
      eexists. split.
      * exact (ledgerStep_trans _ _ _ _ _
                 (ledgerStep_log st (evRule apiPath method (ValidationRule.Name rule) None)
                    eq_refl) Hpre).
      * change (resultsOf ([evRule apiPath method (ValidationRule.Name rule) None] ++ pre))
          with (resultsOf pre).
        rewrite Hiff. split.
        -- intros Hall r [<-|Hr]; [exact Hv | exact (Hall r Hr)].
        -- intros Hall r Hr. apply Hall. right. exact Hr.
Qed.

Lemma runMethods_pass rules apiPath pathSpec :
  forall st st' err,
    runMethods rules apiPath pathSpec st = (st', err) ->
    exists pre,
      ledgerStep st st' pre
      /\ ((err = None /\ resultsOf pre = []) <-> opsPass rules apiPath pathSpec).
Proof.
  induction pathSpec as [|[method [operation|]] rest IH]; intros st st' err;
    cbn [runMethods].
  - intros [= <- <-]. exists []. split; [apply ledgerStep_refl|].
    split; [intros _ m o r [] | intros _; split; reflexivity].
  - destruct (runRules rules apiPath method operation st) as [st1 e1] eqn:Hrules.
    destruct (runRules_pass _ _ _ _ _ _ _ Hrules) as (p & Hp & Hiff).
    assert (Hhead : opsPass rules apiPath ((method, YMap operation) :: rest) ->
                    e1 = None /\ resultsOf p = []).
    { intros Hall. apply Hiff. intros r Hr. exact (Hall method operation r (or_introl eq_refl) Hr). }
    destruct e1 as [e|].
    + intros [= <- <-]. exists p. split; [exact Hp|].
      split; [intros [[=] _] | intros Hall; destruct (Hhead Hall) as [[=] _]].
    + intros Hrun. destruct (IH _ _ _ Hrun) as (q & Hq & Hiffq).
      exists (p ++ q). split; [exact (ledgerStep_trans _ _ _ _ _ Hp Hq)|].
      rewrite resultsOf_app. split.
      * intros [He Hnil]. apply app_eq_nil in Hnil as [Hnp Hnq].
        pose proof (proj1 Hiff (conj eq_refl Hnp)) as Hfirst.
        pose proof (proj1 Hiffq (conj He Hnq)) as Hrest.
        intros m o r [[= <- <-]|Hin] Hr; [exact (Hfirst r Hr) | exact (Hrest m o r Hin Hr)].
      * intros Hall. destruct (Hhead Hall) as [_ Hnp].
        destruct (proj2 Hiffq) as [He Hnq].
        { intros m o r Hin Hr. exact (Hall m o r (or_intror Hin) Hr). }
        rewrite Hnp, Hnq. split; [exact He | reflexivity].
  - intros Hrun. destruct (IH _ _ _ Hrun) as (q & Hq & Hiffq).
    exists q. split; [exact Hq|]. rewrite Hiffq. split.
    + intros Hall m o r [[=]|Hin] Hr. exact (Hall m o r Hin Hr).
    + intros Hall m o r Hin Hr. exact (Hall m o r (or_intror Hin) Hr).
Qed.

Lemma runFiles_pass Unmarshal fs cfg rules paths :
  forall st st' err,
    runFiles Unmarshal fs cfg rules paths st = (st', err) ->
    exists pre,
      ledgerStep st st' pre
      /\ ((err = None /\ resultsOf pre = [])
          <-> Forall (fileOK Unmarshal fs cfg rules) paths).
Proof.
  induction paths as [|pathFile rest IH]; intros st st' err; cbn [runFiles].
  - intros [= <- <-]. exists []. split; [apply ledgerStep_refl|].
    split; [intros _; constructor | intros _; split; reflexivity].
  - assert (Hinv : Forall (fileOK Unmarshal fs cfg rules) (pathFile :: rest)
                   <-> fileOK Unmarshal fs cfg rules pathFile
                       /\ Forall (fileOK Unmarshal fs cfg rules) rest).
    { split; [intros H; inversion H; split; assumption | intros [H1 H2]; constructor; assumption]. }
    destruct (String.eqb_spec (buildPathKey (PathsDir cfg) pathFile) "") as [Hkey|Hkey].
    { intros Hrun. destruct (IH _ _ _ Hrun) as (q & Hq & Hiffq).
      exists q. split; [exact Hq|]. rewrite Hiffq, Hinv.
      split; [intros H; split; [left; exact Hkey | exact H] | intros [_ H]; exact H]. }
    pose proof (ledgerStep_log st (evRead pathFile) eq_refl) as Hread.
    destruct (ReadFile fs pathFile) as [e|content] eqn:Hfile.
    { intros [= <- <-]. eexists. split; [exact Hread|]. rewrite Hinv.
      split; [intros [[=] _]|]. intros [[Hk|(c & s & Hr & _)] _]; [contradiction|].
      rewrite Hfile in Hr. discriminate. }
    pose proof (ledgerStep_trans _ _ _ _ _ Hread
                  (ledgerStep_log (logEvent st (evRead pathFile)) (evParse pathFile) eq_refl))
      as Hparse.
    destruct (Unmarshal content) as [e|pathSpec] eqn:Hdec.
    { intros [= <- <-]. eexists. split; [exact Hparse|]. rewrite Hinv.
      split; [intros [[=] _]|]. intros [[Hk|(c & s & Hr & Hs & _)] _]; [contradiction|].
      rewrite Hfile in Hr. injection Hr as <-. rewrite Hdec in Hs. discriminate. }
    destruct (runMethods _ _ _ _) as [st1 e1] eqn:Hm.
    destruct (runMethods_pass _ _ _ _ _ _ Hm) as (p & Hp & Hiff).
    pose proof (ledgerStep_trans _ _ _ _ _ Hparse Hp) as Hfirst.
    assert (Hhead : fileOK Unmarshal fs cfg rules pathFile
                    <-> e1 = None /\ resultsOf p = []).
    { rewrite Hiff. split.
      - intros [Hk|(c & s & Hr & Hs & Hops)]; [contradiction|].
        rewrite Hfile in Hr. injection Hr as <-.
        rewrite Hdec in Hs. injection Hs as <-. exact Hops.
      - intros Hops. right. exists content, pathSpec. repeat split; assumption. }
    destruct e1 as [e|].
    + intros [= <- <-]. eexists. split; [exact Hfirst|]. rewrite Hinv, Hhead.
      split; [intros [[=] _] | intros [[[=] _] _]].
    + intros Hrun. destruct (IH _ _ _ Hrun) as (q & Hq & Hiffq).
      eexists. split; [exact (ledgerStep_trans _ _ _ _ _ Hfirst Hq)|].
      rewrite Hinv, Hhead, <- Hiffq, !resultsOf_app. cbn [resultsOf flat_map resultOf app].
      split.
      * intros [He Hnil]. apply app_eq_nil in Hnil as [Hnp Hnq]. tauto.
      * intros [[_ Hnp] [He Hnq]]. rewrite Hnp, Hnq. tauto.
Qed.

Lemma validatePaths_pass Unmarshal fs cfg validationCfg tr :
  snd (validatePaths Unmarshal fs cfg validationCfg tr) = None
  <-> exists preset,
        ValidationPresets !! Preset validationCfg = Some preset
        /\ snd (listYAMLFiles fs (PathsDir cfg)) = None
        /\ Forall (fileOK Unmarshal fs cfg (ValidationPreset.Rules preset))
             (fst (listYAMLFiles fs (PathsDir cfg))).
Proof.
  unfold validatePaths.
  destruct (ValidationPresets !! Preset validationCfg) as [preset|];
    [|split; [discriminate | intros (p & [=] & _)]].
  destruct (listYAMLFiles fs (PathsDir cfg)) as [paths [e|]]; cbn [fst snd].
  { split; [discriminate | intros (p & _ & [=] & _)]. }
  destruct (runFiles _ _ _ _ _ _) as [st1 e1] eqn:Hrun.
  destruct (runFiles_pass _ _ _ _ _ _ _ _ Hrun) as (pre & (_ & _ & _ & _ & Hh) & Hiff).
  cbn [hasErrors orb] in Hh.
  assert (Hgoal : (e1 = None /\ resultsOf pre = [])
                  <-> exists p, Some preset = Some p /\ None = (None : option error)
                                /\ Forall (fileOK Unmarshal fs cfg (ValidationPreset.Rules p)) paths).
  { rewrite Hiff. split; [intros H; exists preset; auto | intros (p & [= <-] & _ & H); exact H]. }
  rewrite <- Hgoal. destruct e1 as [e|]; cbn [snd].
  - split; [discriminate | intros [[=] _]].
  - rewrite Hh. destruct (resultsOf pre); cbn [snd];
      [tauto | split; [discriminate | intros [_ [=]]]].
Qed.

(** X11: a run of validatePaths returns no error exactly when the preset
    exists, the listing of the paths directory succeeds, and every listed
    fragment either has no path key or can be read and decoded and passes
    every rule of the preset on every one of its operations.  So whether it
    passes depends neither on the stop flag nor on what was recorded
    before, and fragments that pass under the google preset pass under the
    restful preset, whose rules are among google's. *)
Theorem X11_validation_passes_iff :
  (forall Unmarshal fs cfg validationCfg tr,
     snd (validatePaths Unmarshal fs cfg validationCfg tr) = None
     <-> exists preset,
           ValidationPresets !! Preset validationCfg = Some preset
           /\ snd (listYAMLFiles fs (PathsDir cfg)) = None
           /\ Forall (fileOK Unmarshal fs cfg (ValidationPreset.Rules preset))
                (fst (listYAMLFiles fs (PathsDir cfg))))
  /\ (forall Unmarshal fs cfg v1 v2 tr1 tr2,
        Preset v1 = Preset v2 ->
        snd (validatePaths Unmarshal fs cfg v1 tr1) = None ->
        snd (validatePaths Unmarshal fs cfg v2 tr2) = None)
  /\ (forall Unmarshal fs cfg v1 v2 tr1 tr2,
        Preset v1 = "google" -> Preset v2 = "restful" ->
        snd (validatePaths Unmarshal fs cfg v1 tr1) = None ->
        snd (validatePaths Unmarshal fs cfg v2 tr2) = None).
Proof.
  split; [exact validatePaths_pass|]. split.
  - intros Unmarshal fs cfg v1 v2 tr1 tr2 Hp. rewrite !validatePaths_pass, Hp. exact id.
  - intros Unmarshal fs cfg v1 v2 tr1 tr2 H1 H2.
    rewrite !validatePaths_pass, H1, H2.
    intros (google & [= <-] & Hlist & Hall).
    eexists. split; [reflexivity|]. split; [exact Hlist|].
    refine (List.Forall_impl _ _ Hall). intros f [Hk|(c & s & Hread & Hdec & Hops)]; [left; exact Hk|].
    right. exists c, s. split; [exact Hread|]. split; [exact Hdec|].
    intros m o r Hin Hr. apply (Hops m o r Hin).
    cbn [ValidationPreset.Rules In] in Hr |- *.
    destruct Hr as [<-|[<-|[<-|[<-|[]]]]]; repeat (first [left; reflexivity | right]).
Qed.

Lemma X11_witness :
  snd (validatePaths fullUnmarshal fullFS apiCfg (vcfgOf "restful" true) []) = None.
Proof.
  apply (proj2 (proj2 X11_validation_passes_iff) fullUnmarshal fullFS apiCfg
           (vcfgOf "google" false) (vcfgOf "restful" true) [] []); reflexivity.
Defined.

(** ** The run *)

Lemma andThen_ok l b : (l, None) >>> b = (l ++ fst b, snd b).
Proof. reflexivity. Qed.

Lemma andThen_err l e b : (l, Some e) >>> b = (l, Some e).
Proof. reflexivity. Qed.

Lemma execCount_app a b : execCount (a ++ b) = execCount a + execCount b.
Proof. unfold execCount. rewrite List.filter_app, List.length_app. reflexivity. Qed.

Lemma toolStage_nil c n e : toolStage c n ([], e).
Proof. split; [constructor|]. split; [cbn; lia | intros ? ? []]. Qed.

Lemma toolStage_andThen c n m a b :
  toolStage c n a -> toolStage c m b -> toolStage c (n + m) (a >>> b).
Proof.
  intros (Ha & Hna & Hia) (Hb & Hnb & Hib). destruct a as [l [e|]].
  - rewrite andThen_err. split; [exact Ha|]. split; [cbn [fst] in *; lia | exact Hia].
  - rewrite andThen_ok. unfold toolStage. cbn [fst] in *.
    split; [apply Forall_app; split; assumption|].
    split; [rewrite execCount_app; lia|].
    intros name args [Hin|Hin]%in_app_or; [exact (Hia _ _ Hin) | exact (Hib _ _ Hin)].
Qed.

Lemma toolStage_weaken c n m s : n <= m -> toolStage c n s -> toolStage c m s.
Proof. intros Hnm (H1 & H2 & H3). split; [exact H1|]. split; [lia | exact H3]. Qed.

Lemma toolStage_ensureDir c h dir : toolStage c 0 (ensureDir h dir).
Proof.
  unfold ensureDir. destruct (String.eqb dir ""); [apply toolStage_nil|].
  split; [repeat constructor|]. split; [cbn; lia|]. intros name args [[=]|[]].
Qed.

Lemma toolStage_stderr c line : toolStage c 0 ([efStderr line], None).
Proof.
  split; [repeat constructor|]. split; [cbn; lia|]. intros name args [[=]|[]].
Qed.

Lemma toolStage_runCmd c h name args :
  In (RootPath (Compose c)) args \/ (BundleOut c <> "" /\ In (BundleOut c) args) ->
  toolStage c 1 (runCmd h name args).
Proof.
  intros Hin. split; [repeat constructor|]. split; [cbn; lia|].
  intros n a [[= <- <-]|[]]. exact Hin.
Qed.

Lemma toolStage_typeScriptWith c h generator :
  (forall out, toolStage c 1 (generator out)) ->
  toolStage c 1 (typeScriptWith h c generator).
Proof.
  intros Hgen. unfold typeScriptWith. destruct (strings.HasSuffix _ _); [|apply Hgen].
  destruct (negb _); [apply toolStage_runCmd; root_arg|].
  exact (toolStage_andThen c 0 1 _ _ (toolStage_stderr c _) (Hgen _)).
Qed.

Lemma toolStage_generateTypeScript c h : toolStage c 1 (generateTypeScript h c).
Proof.
  unfold generateTypeScript. destruct (String.eqb (OutputTS c) ""); [apply toolStage_nil|].
  destruct (negb _); [apply toolStage_typeScriptWith; intros out; apply toolStage_runCmd; root_arg|].
  destruct (negb _); [|apply toolStage_nil].
  apply toolStage_typeScriptWith. intros out. apply toolStage_runCmd. root_arg.
Qed.

Lemma toolStage_oapiCodegen c h out : toolStage c 1 (oapiCodegen h c out).
Proof. unfold oapiCodegen. apply toolStage_runCmd. root_arg. Qed.

Lemma toolStage_goWith c h exe : toolStage c 1 (goWith h c exe).
Proof.
  unfold goWith. destruct (strings.HasSuffix _ _); [|apply toolStage_runCmd; root_arg].
  destruct (negb _); [apply toolStage_oapiCodegen|].
  refine (toolStage_andThen c 0 1 _ _ (toolStage_stderr c _) _).
  apply toolStage_runCmd. root_arg.
Qed.

Lemma toolStage_generateGo c h : toolStage c 1 (generateGo h c).
Proof.
  unfold generateGo. destruct (String.eqb (OutputGo c) ""); [apply toolStage_nil|].
  destruct (negb _); [apply toolStage_goWith|].
  destruct (negb _); [apply toolStage_goWith|].
  destruct (negb _); [|apply toolStage_nil].
  destruct (negb _).
  - pose proof (toolStage_ensureDir c h (OutputGo c)) as Hdir.
    destruct (ensureDir h (OutputGo c)) as [l [e|]].
    + refine (toolStage_andThen c 0 1 (l, None) _ _ (toolStage_oapiCodegen c h _)).
      destruct Hdir as (H1 & H2 & H3). split; [exact H1|]. split; [exact H2 | exact H3].
    + exact (toolStage_andThen c 0 1 _ _ Hdir (toolStage_oapiCodegen c h _)).
  - exact (toolStage_andThen c 0 1 _ _ (toolStage_ensureDir c h _) (toolStage_oapiCodegen c h _)).
Qed.

Lemma toolStage_bundleWithRedocly c h fs : toolStage c 1 (bundleWithRedocly h fs c).
Proof.
  unfold bundleWithRedocly. destruct (String.eqb (BundleOut c) ""); [apply toolStage_nil|].
  destruct (String.eqb _ ""); [apply toolStage_nil|].
  refine (toolStage_andThen c 0 1 _ _ (toolStage_ensureDir c h _) _).
  apply toolStage_runCmd. destruct (negb _); root_arg.
Qed.

Lemma toolStage_buildDocsHTML c h fs : toolStage c 1 (buildDocsHTML h fs c).
Proof.
  unfold buildDocsHTML. destruct (String.eqb (Redocly c) ""); [apply toolStage_nil|].
  assert (Hinput : forall args,
            In (if String.eqb (strings.TrimSpace (BundleOut c)) ""
                then RootPath (Compose c) else BundleOut c) args ->
            In (RootPath (Compose c)) args \/ (BundleOut c <> "" /\ In (BundleOut c) args)).
  { intros args. destruct (String.eqb_spec (strings.TrimSpace (BundleOut c)) "") as [|Hne];
      [left; assumption|].
    right. split; [|assumption]. intros Heq. rewrite Heq in Hne. apply Hne. reflexivity. }
  destruct (negb (String.eqb (findRedocly h fs (Cwd c)) "")).
  - refine (toolStage_andThen c 0 1 _ _ (toolStage_ensureDir c h _) _).
    apply toolStage_runCmd, Hinput. destruct (negb _); right; left; reflexivity.
  - destruct (negb _); [|apply toolStage_nil].
    refine (toolStage_andThen c 0 1 _ _ (toolStage_ensureDir c h _) _).
    apply toolStage_runCmd, Hinput. right; left; reflexivity.
Qed.

Lemma toolStage_tools c h fs :
  toolStage c 4 (generateTypeScript h c >>> generateGo h c >>>
                 bundleWithRedocly h fs c >>> buildDocsHTML h fs c).
Proof.
  apply (toolStage_andThen c 1 3); [apply toolStage_generateTypeScript|].
  apply (toolStage_andThen c 1 2); [apply toolStage_generateGo|].
  apply (toolStage_andThen c 1 1);
    [apply toolStage_bundleWithRedocly | apply toolStage_buildDocsHTML].
Qed.

Lemma ensureDir_quiet h dir : Forall (fun ef => quiet ef = true) (fst (ensureDir h dir)).
Proof. unfold ensureDir. destruct (String.eqb dir ""); repeat constructor. Qed.

Lemma validateStage_quiet Unmarshal fs c :
  Forall (fun ef => quiet ef = true) (fst (validateStage Unmarshal fs c)).
Proof.
  unfold validateStage. destruct (_ && _); [|constructor].
  destruct (validatePaths _ _ _ _ _) as [st [e|]]; repeat constructor.
Qed.

Lemma writeStage_cases h fs c :
  exists l,
    Forall (fun ef => quiet ef = true) l
    /\ ((exists content,
           writeStage h fs c = (l ++ [efWriteRoot (RootPath (Compose c)) content], None))
        \/ (exists e, writeStage h fs c = (l, Some e))).
Proof.
  unfold writeStage.
  pose proof (ensureDir_quiet h (filepath.Dir (RootPath (Compose c)))) as Hq.
  destruct (ensureDir h (filepath.Dir (RootPath (Compose c)))) as [l [e|]]; cbn [fst] in Hq;
    exists l; (split; [exact Hq|]); [right; eexists; reflexivity|].
  destruct (listYAMLFiles fs (PathsDir (Compose c))) as [paths [e|]];
    [right; eexists; reflexivity|].
  destruct (listYAMLFiles fs (SchemasDir (Compose c))) as [schemas [e|]];
    [right; eexists; reflexivity|].
  destruct (listYAMLFiles fs (ParamsDir (Compose c))) as [params [e|]];
    [right; eexists; reflexivity|].
  destruct (Create h (RootPath (Compose c))) as [e|]; [right; eexists; reflexivity|].
  destruct (Join (Compose c)); [|left; eexists; reflexivity].
  destruct (composeJoined _ _ _ _ _) as [e|content];
    [right; eexists; reflexivity | left; eexists; reflexivity].
Qed.

Lemma run_shape Unmarshal h fs c :
  exists before,
    Forall (fun ef => quiet ef = true) before
    /\ ((fst (run Unmarshal h fs c) = before /\ snd (run Unmarshal h fs c) <> None)
        \/ exists content after,
             fst (run Unmarshal h fs c)
             = before ++ efWriteRoot (RootPath (Compose c)) content :: after
             /\ toolStage c 4 (after, snd (run Unmarshal h fs c))).
Proof.
  unfold run.
  pose proof (ensureDir_quiet h (OutputDir c)) as H0.
  destruct (ensureDir h (OutputDir c)) as [l0 [e0|]]; cbn [fst] in H0.
  { rewrite andThen_err. exists l0. split; [exact H0|]. left. split; [reflexivity | discriminate]. }
  rewrite andThen_ok.
  pose proof (validateStage_quiet Unmarshal fs c) as H1.
  destruct (validateStage Unmarshal fs c) as [l1 [e1|]]; cbn [fst] in H1.
  { rewrite andThen_err. exists (l0 ++ l1). split; [apply Forall_app; split; assumption|].
    left. split; [reflexivity | discriminate]. }
  rewrite andThen_ok.
  destruct (writeStage_cases h fs c) as (l2 & H2 & [(content & ->)|(e2 & ->)]).
  + rewrite andThen_ok. cbn [fst snd].
    exists (l0 ++ l1 ++ l2). split; [repeat (apply Forall_app; split); assumption|].
    right. exists content. eexists. split.
    * rewrite <- !app_assoc. reflexivity.
    * pose proof (toolStage_tools c h fs) as Htools.
      destruct (generateTypeScript h c >>> generateGo h c >>>
                bundleWithRedocly h fs c >>> buildDocsHTML h fs c) as [lt rt].
      exact Htools.
  + rewrite andThen_err. cbn [fst snd].
    exists (l0 ++ l1 ++ l2). split; [repeat (apply Forall_app; split); assumption|].
    left. split; [reflexivity | discriminate].
Qed.

(** X12: a run that is asked to validate and whose validation returns an
    error stops there: it has made the output directory and validated,
    writes no root file, starts no command, and returns that error wrapped
    as a failed validation.  In every run, whatever happens before the root
    file is written neither starts a command nor writes; either the run
    ends there with an error, or the root file is written once, in full,
    and after it come only the effects of the tool stages, with at most
    four commands, each handed the root file or the bundle. *)
Theorem X12_run_gated_by_validation :
  (forall Unmarshal h fs c st e,
     SkipValidation c = false -> ValidatePreset c <> "" ->
     OutputDir c <> "" -> MkdirAll h (OutputDir c) = None ->
     validatePaths Unmarshal fs (Compose c) (runValidation c) [] = (st, Some e) ->
     run Unmarshal h fs c
     = ([efMkdirAll (OutputDir c); efValidate st], Some (errWrap "validation failed: " e)))
  /\ (forall Unmarshal h fs c,
        exists before,
          Forall (fun ef => quiet ef = true) before
          /\ ((fst (run Unmarshal h fs c) = before /\ snd (run Unmarshal h fs c) <> None)
              \/ exists content after,
                   fst (run Unmarshal h fs c)
                   = before ++ efWriteRoot (RootPath (Compose c)) content :: after
                   /\ toolStage c 4 (after, snd (run Unmarshal h fs c)))).
Proof.
  split.
  - intros Unmarshal h fs c st e Hskip Hpreset Hout Hmk Hval.
    unfold run, ensureDir, validateStage.
    destruct (String.eqb_spec (OutputDir c) ""); [contradiction|].
    destruct (String.eqb_spec (ValidatePreset c) ""); [contradiction|].
    rewrite Hmk, Hskip. cbn [negb andb]. fold (runValidation c). rewrite Hval.
    reflexivity.
  - intros Unmarshal h fs c. apply run_shape.
Qed.

Lemma X12_witness :
  run exampleUnmarshal bareHost (usersFS "get: {summary: List users}" brokenFragment) usersRun
  = ([efMkdirAll "/api"; efValidate stoppedRun],
     Some (errWrap "validation failed: " errStopped)).
Proof.
  apply (proj1 X12_run_gated_by_validation exampleUnmarshal bareHost
           (usersFS "get: {summary: List users}" brokenFragment) usersRun
           stoppedRun errStopped);
    try reflexivity; try discriminate.
Defined.

(** X13: each of the four tool stages has only tool effects and starts at
    most one command, which is handed the root file or the bundle.  When
    neither openapi nor openapi-generator is installed the TypeScript stage
    fails without starting anything, also when openapi-typescript is
    installed.  Every oapi-codegen command that the Go stage starts has the
    package name guessed from the directory of its output file, a name that
    starts with an ASCII letter and holds no dash, dot or slash. *)
Theorem X13_tool_stages :
  (forall h fs c,
     toolStage c 1 (generateTypeScript h c) /\ toolStage c 1 (generateGo h c)
     /\ toolStage c 1 (bundleWithRedocly h fs c) /\ toolStage c 1 (buildDocsHTML h fs c))
  /\ (forall h c,
        OutputTS c <> "" ->
        LookPath h "openapi" = None -> LookPath h "openapi-generator" = None ->
        generateTypeScript h c = ([], Some errNoTSGenerator))
  /\ (forall h c args,
        In (efExec "oapi-codegen" args) (fst (generateGo h c)) ->
        exists out c0 rest,
          args = ["-generate"; "types,client,server"; "-o"; out; "-package";
                  guessPackage (filepath.Dir out); RootPath (Compose c)]
          /\ guessPackage (filepath.Dir out) = String c0 rest
          /\ isLetter c0 = true
          /\ allBytes pkgByte (guessPackage (filepath.Dir out)) = true).
Proof.
  split; [|split].
  - intros h fs c. split; [apply toolStage_generateTypeScript|].
    split; [apply toolStage_generateGo|].
    split; [apply toolStage_bundleWithRedocly | apply toolStage_buildDocsHTML].
  - intros h c Hout H1 H2. unfold generateTypeScript, which. rewrite H1, H2.
    destruct (String.eqb_spec (OutputTS c) ""); [contradiction | reflexivity].
  - intros h c args Hin.
    assert (Hpkg : forall out,
              efExec "oapi-codegen" args
              = efExec "oapi-codegen"
                  ["-generate"; "types,client,server"; "-o"; out; "-package";
                   guessPackage (filepath.Dir out); RootPath (Compose c)] ->
              exists out c0 rest,
                args = ["-generate"; "types,client,server"; "-o"; out; "-package";
                        guessPackage (filepath.Dir out); RootPath (Compose c)]
                /\ guessPackage (filepath.Dir out) = String c0 rest
                /\ isLetter c0 = true
                /\ allBytes pkgByte (guessPackage (filepath.Dir out)) = true).
    { intros out [= ->]. destruct (guessPackage_shape (filepath.Dir out)) as (c0 & rest & H1 & H2 & H3).
      exists out, c0, rest. repeat split; assumption. }
    unfold generateGo, goWith, oapiCodegen, runCmd, ensureDir, andThen, stageNil in Hin.
    repeat match type of Hin with
           | context [if ?b then _ else _] => destruct b
           | context [match MkdirAll ?h ?d with _ => _ end] => destruct (MkdirAll h d)
           end;
      cbn [fst snd app In] in Hin;
      repeat match type of Hin with
             | _ \/ _ => destruct Hin as [Hin|Hin]
             | False => destruct Hin
             | efExec "oapi-codegen" _ = efExec "oapi-codegen" _ =>
                 symmetry in Hin; exact (Hpkg _ Hin)
             | _ = _ => discriminate Hin
             end.
Qed.

Lemma X13_witness :
  generateTypeScript
    {| LookPath := fun bin => if String.eqb bin "openapi-typescript"
                              then Some "/usr/bin/openapi-typescript" else None;
       cmdRun := fun _ _ => None; MkdirAll := fun _ => None; Create := fun _ => None |}
    {| Compose := apiCfg; Cwd := "/"; InputDir := "/api"; OutputDir := "/api";
       RootFile := "root.yaml"; OutputTS := "/out/api.ts"; OutputGo := ""; Redocly := "";
       BundleOut := ""; RedoclyConfig := ""; TSGenerator := "typescript-fetch";
       GoGenerator := "go"; ValidatePreset := ""; SkipValidation := false;
       ValidateStopOnError := false |}
  = ([], Some errNoTSGenerator).
Proof.
  apply (proj1 (proj2 X13_tool_stages)); [discriminate | reflexivity | reflexivity].
Defined.

(** ** References to fragment files *)

Lemma cutYamlExt_spec file cap :
  cutYamlExt file = Some cap <-> exists ext, file = cap +:+ ext /\ yamlExt ext.
Proof.
  unfold cutYamlExt, yamlExt, strings.ToLower. split.
  - assert (Hcut : forall suf,
              strings.HasSuffix (strings.mapBytes strings.toLowerByte file) suf = true ->
              file = strings.take (String.length file - String.length suf) file
                     +:+ strings.drop (String.length file - String.length suf) file
              /\ strings.mapBytes strings.toLowerByte
                   (strings.drop (String.length file - String.length suf) file) = suf).
    { intros suf Hsuf. split; [symmetry; apply str_take_drop|].
      unfold strings.HasSuffix in Hsuf. apply andb_true_iff in Hsuf as [_ Heq].
      apply String.eqb_eq in Heq. rewrite mapBytes_length, mapBytes_drop in Heq. exact Heq. }
    destruct (strings.HasSuffix _ ".yaml") eqn:H1.
    { intros [= <-]. destruct (Hcut _ H1) as [Hfile Hext]. eexists. split; [exact Hfile|].
      left. exact Hext. }
    destruct (strings.HasSuffix _ ".yml") eqn:H2; [|discriminate].
    intros [= <-]. destruct (Hcut _ H2) as [Hfile Hext]. eexists. split; [exact Hfile|].
    right. exact Hext.
  - intros (ext & -> & Hext).
    assert (Hlen : String.length (strings.mapBytes strings.toLowerByte ext) = String.length ext)
      by apply mapBytes_length.
    rewrite mapBytes_app, str_length_app. destruct Hext as [Hext|Hext]; rewrite Hext in Hlen |- *.
    + rewrite HasSuffix_app. cbn [String.length] in Hlen. rewrite <- Hlen.
      replace (String.length cap + 5 - 5) with (String.length cap) by lia.
      rewrite str_take_app. reflexivity.
    + destruct (strings.HasSuffix _ ".yaml") eqn:H1.
      { exfalso. apply HasSuffix_inv in H1. revert H1.
        generalize (strings.take
                      (String.length (strings.mapBytes strings.toLowerByte cap +:+ ".yml")
                       - String.length ".yaml")
                      (strings.mapBytes strings.toLowerByte cap +:+ ".yml")).
        intros p H1.
        change (p +:+ ".yaml") with (p +:+ ("." +:+ "yaml")) in H1.
        rewrite <- str_app_assoc in H1.
        destruct (str_app_inj_len _ _ _ _ H1 eq_refl) as [_ [=]]. }
      rewrite HasSuffix_app. cbn [String.length] in Hlen. rewrite <- Hlen.
      replace (String.length cap + 4 - 4) with (String.length cap) by lia.
      rewrite str_take_app. reflexivity.
Qed.

Lemma foldStep_lower c b s :
  strings.toLowerByte b = c -> foldStep c (String b s) = Some s.
Proof. intros <-. cbn [foldStep]. rewrite Ascii.eqb_refl. reflexivity. Qed.

Lemma foldMatch_lower pat :
  forall s, strings.ToLower s = pat -> foldMatch pat s = true.
Proof.
  induction pat as [|c pat IH]; intros [|b s]; try discriminate; [reflexivity|].
  unfold strings.ToLower. cbn [strings.mapBytes]. intros [= Hb Hs].
  cbn [foldMatch]. rewrite (foldStep_lower c b s Hb). exact (IH s Hs).
Qed.

Lemma matchComponentPath_spec kind val cap :
  matchComponentPath kind val = Some cap
  <-> exists front dir ext,
        strings.Split val "/" = front ++ [dir; cap +:+ ext]
        /\ foldMatch kind dir = true /\ yamlExt ext
        /\ cap <> "" /\ allBytes isRefNameByte cap = true.
Proof.
  unfold matchComponentPath. split.
  - destruct (rev (strings.Split val "/")) as [|file [|dir rest]] eqn:Hrev; try discriminate.
    destruct (foldMatch kind dir) eqn:Hdir; [|discriminate].
    destruct (cutYamlExt file) as [c|] eqn:Hcut; [|discriminate].
    destruct (String.eqb_spec c "") as [|Hne]; [discriminate|]. cbn [negb andb].
    destruct (allBytes isRefNameByte c) eqn:Hall; [|discriminate].
    intros [= <-]. apply cutYamlExt_spec in Hcut. destruct Hcut as (ext & -> & Hext).
    exists (rev rest), dir, ext. split; [|auto].
    rewrite <- (rev_involutive (strings.Split val "/")), Hrev. cbn [rev].
    rewrite <- app_assoc. reflexivity.
  - intros (front & dir & ext & -> & Hdir & Hext & Hne & Hall).
    rewrite rev_app_distr. cbn [rev app]. rewrite Hdir.
    rewrite (proj2 (cutYamlExt_spec (cap +:+ ext) cap)) by (exists ext; auto).
    destruct (String.eqb_spec cap ""); [contradiction|]. rewrite Hall. reflexivity.
Qed.

(** X14: the two path patterns capture the name [cap] exactly when the
    last two elements of the reference, cut at slashes, are a directory that
    is schemas (or parameters) under the case folding of the pattern and a
    file made of [cap], which is not empty and holds no slash, hash or
    blank, followed by .yaml or .yml in any case.  A directory that is the
    word up to the case of its ASCII letters matches, and so does one
    written with U+017F for an s.  On a line whose reference is neither an
    internal pointer nor one of the schema: and param: forms, the rewriter
    tries the schema pattern, then the parameter pattern, and puts the name
    that the map has for the lower-cased capture, or its Pascal-case form
    when the map has none; a reference that matches neither leaves the line
    as it is. *)
Theorem X14_file_references :
  (forall kind val cap,
     matchComponentPath kind val = Some cap
     <-> exists front dir ext,
           strings.Split val "/" = front ++ [dir; cap +:+ ext]
           /\ foldMatch kind dir = true /\ yamlExt ext
           /\ cap <> "" /\ allBytes isRefNameByte cap = true)
  /\ (forall kind dir, strings.ToLower dir = kind -> foldMatch kind dir = true)
  /\ reSchemaPath (String "197" (String "191" "chemas/pet.yaml")) = Some "pet"
  /\ (forall sm pm ln idx val,
        strings.Index ln "$ref:" = Some idx ->
        refValue ln = Some val ->
        strings.HasPrefix val "#/components/" = false ->
        strings.HasPrefix (strings.ToLower val) "schema:" = false ->
        strings.HasPrefix (strings.ToLower val) "param:" = false ->
        rewriteLine sm pm ln
        = match reSchemaPath val, reParamPath val with
          | Some cap, _ =>
              strings.take idx ln +:+ "$ref: #/components/schemas/" +:+ chosenName sm cap
          | None, Some cap =>
              strings.take idx ln +:+ "$ref: #/components/parameters/" +:+ chosenName pm cap
          | None, None => ln
          end).
Proof.
  split; [exact matchComponentPath_spec|].
  split; [intros kind dir; apply foldMatch_lower|]. split; [reflexivity|].
  intros sm pm ln idx val Hidx. unfold refValue, rewriteLine. rewrite Hidx.
  cbn [String.length]. intros [= Hval] Hcanon Hschema Hparam. unfold rewriteAt, chosenName.
  cbn [String.length]. rewrite Hval, Hcanon, Hschema, Hparam.
  destruct (String.eqb_spec (strings.TrimSpace (strings.drop (idx + 5) ln)) "")
    as [Hrest|_]; [|reflexivity].
  rewrite Hrest in Hval. subst val. reflexivity.
Qed.

Lemma X14_witness :
  rewriteLine ∅ ∅ "      $ref: '../components/Schemas/user-account.YML'"
  = "      $ref: #/components/schemas/UserAccount".
Proof.
  exact (proj2 (proj2 (proj2 X14_file_references)) ∅ ∅
           "      $ref: '../components/Schemas/user-account.YML'" 6
           "../components/Schemas/user-account.YML" eq_refl eq_refl eq_refl eq_refl eq_refl).
Defined.

(** ** Defaults of the configuration *)

Lemma firstNonEmpty_spec vals :
  (firstNonEmpty vals = "" /\ Forall blank vals)
  \/ exists pre post,
       vals = pre ++ firstNonEmpty vals :: post
       /\ Forall blank pre /\ ~ blank (firstNonEmpty vals).
Proof.
  induction vals as [|v rest IH]; [left; split; [reflexivity | constructor]|].
  cbn [firstNonEmpty]. destruct (String.eqb_spec (strings.TrimSpace v) "") as [Hv|Hv]; cbn [negb].
  - destruct IH as [[Hnil Hall]|(pre & post & Heq & Hpre & Hne)].
    + left. split; [exact Hnil | constructor; assumption].
    + right. exists (v :: pre), post. split; [cbn [app]; f_equal; exact Heq|].
      split; [constructor; assumption | exact Hne].
  - right. exists [], rest. split; [reflexivity|]. split; [constructor | exact Hv].
Qed.

Lemma Clean_nonempty p : filepath.Clean p <> "".
Proof.
  unfold filepath.Clean. cbv zeta.
  match goal with
  | |- context [String.eqb ?out ""] => destruct (String.eqb_spec out "")
  end; [discriminate | assumption].
Qed.

Lemma absJoin_nonempty base p : absJoin base p <> "".
Proof. unfold absJoin. destruct (filepath.IsAbs p); apply Clean_nonempty. Qed.

(** X15: firstNonEmpty returns the first value that is not blank, as it
    stands, passing over the blank ones before it, and the empty string when
    every value is blank.  In the configuration that buildConfig returns the
    long form of the input flag wins over the short one; the output
    directory is the input directory when no output flag is given; the root
    file is root.yaml when no root flag is given, and is never blank; the
    root path is the root file resolved against the output directory; and
    with the flag all both the bundle and the documentation are set. *)
Theorem X15_config_defaults :
  (forall vals,
     (firstNonEmpty vals = "" /\ Forall blank vals)
     \/ exists pre post,
          vals = pre ++ firstNonEmpty vals :: post
          /\ Forall blank pre /\ ~ blank (firstNonEmpty vals))
  /\ (forall fs cwd fl c,
        buildConfig fs cwd fl = (Some c, None) ->
        (~ blank (inputDirFlag fl) -> InputDir c = absJoin cwd (inputDirFlag fl))
        /\ (blank (outputDirFlag fl) -> blank (outputDirFlagS fl) -> OutputDir c = InputDir c)
        /\ (blank (rootFileFlag fl) -> blank (rootFileFlagS fl) -> RootFile c = "root.yaml")
        /\ ~ blank (RootFile c)
        /\ RootPath (Compose c) = absJoin (OutputDir c) (RootFile c)
        /\ (allDo fl = true -> BundleOut c <> "" /\ Redocly c <> "")).
Proof.
  split; [exact firstNonEmpty_spec|].
  intros fs cwd fl c. unfold buildConfig. destruct (listPresets fl); [discriminate|].
  destruct (String.eqb_spec
              (strings.TrimSpace (firstNonEmpty [inputDirFlag fl; inputDirFlagS fl])) "")
    as [|Hin]; [discriminate|].
  intros [= <-].
  cbn [InputDir OutputDir RootFile Compose RootPath BundleOut Redocly]. cbv zeta. unfold blank.
  split; [|split; [|split; [|split; [|split]]]].
  - intros Hlong. cbn [firstNonEmpty].
    destruct (String.eqb_spec (strings.TrimSpace (inputDirFlag fl)) ""); [contradiction|].
    reflexivity.
  - intros H1 H2. cbn [firstNonEmpty]. rewrite H1, H2. reflexivity.
  - intros H1 H2. cbn [firstNonEmpty]. rewrite H1, H2. reflexivity.
  - destruct (String.eqb_spec (strings.TrimSpace (rootFileFlag fl)) "") as [H1|H1]; cbn [negb].
    + destruct (String.eqb_spec (strings.TrimSpace (rootFileFlagS fl)) "") as [H2|H2]; cbn [negb].
      * intros H. vm_compute in H. discriminate H.
      * destruct (String.eqb_spec (strings.TrimSpace (rootFileFlagS fl)) "");
          [contradiction | assumption].
    + destruct (String.eqb_spec (strings.TrimSpace (rootFileFlag fl)) "");
        [contradiction | assumption].
  - reflexivity.
  - intros ->. cbn [andb]. split.
    + destruct (String.eqb_spec (strings.TrimSpace (bundleOut fl)) "");
        [apply absJoin_nonempty | assumption].
    + destruct (String.eqb_spec (strings.TrimSpace (redoclyOut fl)) "");
        [apply absJoin_nonempty | assumption].
Qed.

Lemma X15_witness :
  (~ blank "./api/" -> "/work/api" = absJoin "/work" "./api/")
  /\ (blank "" -> blank "" -> "/work/api" = "/work/api")
  /\ (blank "" -> blank "" -> "root.yaml" = "root.yaml")
  /\ ~ blank "root.yaml"
  /\ "/work/api/root.yaml" = absJoin "/work/api" "root.yaml"
  /\ (true = true -> "/work/dist/openapi.yaml" <> "" /\ "/work/dist/index.html" <> "").
Proof.
  exact (proj2 X15_config_defaults (FDir []) "/work" (plainFlags "./api/" true)
           {| Compose := {| RootPath := "/work/api/root.yaml";
                            PathsDir := "/work/api/paths";
                            SchemasDir := "/work/api/components/schemas";
                            ParamsDir := "/work/api/components/parameters";
                            Join := false |};
              Cwd := "/work"; InputDir := "/work/api"; OutputDir := "/work/api";
              RootFile := "root.yaml"; OutputTS := ""; OutputGo := "";
              Redocly := "/work/dist/index.html";
              BundleOut := "/work/dist/openapi.yaml"; RedoclyConfig := "";
              TSGenerator := "typescript-fetch";
              GoGenerator := "go"; ValidatePreset := ""; SkipValidation := false;
              ValidateStopOnError := false |}
           eq_refl).
Defined.

(** ** Path keys under the trailing-slash rule *)

Lemma HasSuffix_app_nonempty s x c :
  x <> "" ->
  strings.HasSuffix (s +:+ x) (String c "") = strings.HasSuffix x (String c "").
Proof.
  intros Hx. induction s as [|a s IH]; [rewrite str_app_nil_l; reflexivity|].
  rewrite str_app_cons, HasSuffix_cons; [exact IH|].
  destruct s; [rewrite str_app_nil_l; exact Hx | rewrite str_app_cons; discriminate].
Qed.

Lemma HasSuffix_byte (p : ascii -> bool) x c :
  allBytes p x = true -> strings.HasSuffix x (String c "") = true -> p c = true.
Proof.
  induction x as [|a t IH]; [discriminate|].
  cbn [allBytes]. intros [Ha Ht]%andb_true_iff. destruct t as [|b t].
  - unfold strings.HasSuffix. cbn.
    destruct (Ascii.eqb_spec a c) as [<-|]; [intros _; exact Ha | discriminate].
  - rewrite HasSuffix_cons by discriminate. exact (IH Ht).
Qed.

Lemma byteString_nonempty c : byteString c <> "" /\ upperOfByte c <> "".
Proof. destruct c as [[] [] [] [] [] [] [] []]; split; discriminate. Qed.

Lemma kebabLoop_empty s :
  forall out up,
    kebabLoop s out up = "" <-> out = "" /\ allBytes isSeparator s = true.
Proof.
  induction s as [|c s IH]; intros out up; cbn [kebabLoop allBytes]; [tauto|].
  change (Ascii.eqb c "-" || Ascii.eqb c "_" || Ascii.eqb c " ") with (isSeparator c).
  destruct (isSeparator c); cbn [andb]; [apply IH|].
  assert (Hgrow : forall x, out +:+ x = "" -> x = "").
  { intros x. destruct out; [rewrite str_app_nil_l; exact id | rewrite str_app_cons; discriminate]. }
  split; [|intros [_ [=]]].
  destruct up; intros [Hout _]%IH; apply Hgrow in Hout;
    destruct (byteString_nonempty c) as [H1 H2]; contradiction.
Qed.

(** X16: the camel-case form of a name is empty exactly when the name
    consists of separators only.  The path key of a fragment ends with a
    slash only in that case: for every other fragment the trailing-slash
    rule passes on its key, and for a fragment that lies in a directory
    below the paths directory and whose name consists of separators the
    rule reports the key. *)
Theorem X16_keys_and_trailing_slash :
  (forall s, kebabToCamel s = "" <-> allBytes isSeparator s = true)
  /\ (forall root dirs name method operation,
        Forall (fun e => isElem e = true) root ->
        Forall (fun e => isElem e = true) dirs ->
        isElem (name +:+ ".yaml") = true ->
        kebabToCamel name <> "" ->
        validateNoTrailingSlash
          (buildPathKey (absPath root) (absPath (root ++ dirs ++ [name +:+ ".yaml"])))
          method operation = None)
  /\ (forall root dirs name method operation,
        Forall (fun e => isElem e = true) root ->
        Forall (fun e => isElem e = true) dirs ->
        isElem (name +:+ ".yaml") = true ->
        kebabToCamel name = "" ->
        validateNoTrailingSlash
          (buildPathKey (absPath root) (absPath (root ++ dirs ++ [name +:+ ".yaml"])))
          method operation
        = match dirs with
          | [] => None
          | _ :: _ => Some "path should not have trailing slash"
          end).
Proof.
  split; [|split].
  - intros s. unfold kebabToCamel. rewrite kebabLoop_empty. tauto.
  - intros root dirs name method operation Hroot Hdirs Hfile Hne.
    rewrite (buildPathKey_absPath root dirs _ Hroot Hdirs Hfile), TrimSuffix_app.
    unfold validateNoTrailingSlash.
    assert (Hslash : allBytes notSlash (kebabToCamel name) = true).
    { apply (kebabLoop_keeps notSlash name notSlash_high notSlash_toUpperByte); [reflexivity|].
      apply isElem_inv in Hfile. destruct Hfile as (_ & _ & _ & Hs).
      rewrite allBytes_app in Hs. apply andb_true_iff in Hs. apply Hs. }
    assert (Hkey : exists s, "/" +:+ strings.Join (dirs ++ [kebabToCamel name]) "/"
                             = s +:+ kebabToCamel name).
    { destruct dirs as [|d dirs]; [exists "/"; reflexivity|].
      rewrite (Join_snoc (d :: dirs) _ "/" ltac:(discriminate)).
      exists ("/" +:+ strings.Join (d :: dirs) "/" +:+ "/"). rewrite !str_app_assoc. reflexivity. }
    destruct Hkey as (s & ->). rewrite (HasSuffix_app_nonempty s _ "/" Hne).
    destruct (strings.HasSuffix (kebabToCamel name) "/") eqn:Hsuf;
      [|rewrite andb_false_r; reflexivity].
    pose proof (HasSuffix_byte notSlash _ "/" Hslash Hsuf) as Hbad. discriminate.
  - intros root dirs name method operation Hroot Hdirs Hfile Hempty.
    rewrite (buildPathKey_absPath root dirs _ Hroot Hdirs Hfile), TrimSuffix_app, Hempty.
    unfold validateNoTrailingSlash. destruct dirs as [|d dirs]; [reflexivity|].
    rewrite (Join_snoc (d :: dirs) "" "/" ltac:(discriminate)), str_app_nil_r.
    change ("/" +:+ strings.Join (d :: dirs) "/" +:+ "/")
      with (String "/" (strings.Join (d :: dirs) "/" +:+ "/")).
    rewrite <- (str_app_cons "/" (strings.Join (d :: dirs) "/") "/"), HasSuffix_app.
    rewrite str_app_cons. cbn [String.length]. rewrite str_length_app. cbn [String.length].
    replace (1 <? S (String.length (strings.Join (d :: dirs) "/") + 1)) with true
      by (symmetry; apply Nat.ltb_lt; lia).
    reflexivity.
Qed.

Lemma X16_witness :
  validateNoTrailingSlash
    (buildPathKey (absPath ["api"; "paths"])
       (absPath (["api"; "paths"] ++ ["v1"] ++ ["_" +:+ ".yaml"]))) "get" []
  = Some "path should not have trailing slash".
Proof.
  apply (proj2 (proj2 X16_keys_and_trailing_slash) ["api"; "paths"] ["v1"] "_" "get" []);
    try reflexivity; repeat constructor.
Defined.

(** ** The program *)

Lemma buildConfig_cases fs cwd fl :
  (listPresets fl = true /\ buildConfig fs cwd fl = (None, None))
  \/ (listPresets fl = false /\ buildConfig fs cwd fl = (None, Some errMissingInput)
      /\ blank (firstNonEmpty [inputDirFlag fl; inputDirFlagS fl]))
  \/ (listPresets fl = false
      /\ exists c, buildConfig fs cwd fl = (Some c, None) /\ OutputDir c <> "").
Proof.
  unfold buildConfig, blank. destruct (listPresets fl); [left; split; reflexivity|].
  right. destruct (String.eqb_spec
                     (strings.TrimSpace (firstNonEmpty [inputDirFlag fl; inputDirFlagS fl])) "")
    as [Hblank|_].
  - left. repeat split. exact Hblank.
  - right. split; [reflexivity|]. eexists. split; [reflexivity|]. apply absJoin_nonempty.
Qed.

Lemma run_starts Unmarshal h fs c :
  OutputDir c <> "" ->
  exists rest, fst (run Unmarshal h fs c) = efMkdirAll (OutputDir c) :: rest.
Proof.
  intros Hout. unfold run, ensureDir.
  destruct (String.eqb_spec (OutputDir c) ""); [contradiction|].
  destruct (MkdirAll h (OutputDir c)); [exists []; reflexivity|].
  rewrite andThen_ok. eexists. reflexivity.
Qed.

(** X17: when flag parsing ends the program itself, the status is 0
    for a request for help and 2 for a flag that does not parse, and nothing
    else is done.  With parsed flags: asked to list the presets, the program
    does nothing else and exits with status 0, whatever the other flags;
    without an input directory it prints the missing-flag error and exits
    with status 1, having touched nothing; otherwise the first thing it does
    is to make the output directory, which is never the empty path.  It
    exits with status 0 only when help was asked for, the presets were
    listed or the root file was written in full; any other exit is the exit
    of a failed parse or has status 1 and the error printed last. *)
Theorem X17_exit_status :
  (forall Unmarshal h fs cwd,
     main Unmarshal h fs cwd parseHelp = ([], 0)
     /\ main Unmarshal h fs cwd parseFailed = ([], 2))
  /\ (forall Unmarshal h fs cwd fl,
        listPresets fl = true -> main Unmarshal h fs cwd (parsed fl) = ([], 0))
  /\ (forall Unmarshal h fs cwd fl,
        listPresets fl = false -> blank (inputDirFlag fl) -> blank (inputDirFlagS fl) ->
        main Unmarshal h fs cwd (parsed fl) = ([efPrintErr errMissingInput], 1))
  /\ (forall Unmarshal h fs cwd fl c,
        buildConfig fs cwd fl = (Some c, None) ->
        exists rest,
          fst (main Unmarshal h fs cwd (parsed fl)) = efMkdirAll (OutputDir c) :: rest)
  /\ (forall Unmarshal h fs cwd cl,
        snd (main Unmarshal h fs cwd cl) = 0 ->
        cl = parseHelp
        \/ exists fl,
             cl = parsed fl
             /\ (listPresets fl = true
                 \/ exists c content,
                      buildConfig fs cwd fl = (Some c, None)
                      /\ In (efWriteRoot (RootPath (Compose c)) content)
                           (fst (main Unmarshal h fs cwd cl))))
  /\ (forall Unmarshal h fs cwd cl,
        snd (main Unmarshal h fs cwd cl) <> 0 ->
        (cl = parseFailed /\ main Unmarshal h fs cwd cl = ([], 2))
        \/ (snd (main Unmarshal h fs cwd cl) = 1
            /\ exists fl l e,
                 cl = parsed fl /\ fst (main Unmarshal h fs cwd cl) = l ++ [efPrintErr e])).
Proof.
  split; [intros; split; reflexivity|]. split; [|split; [|split; [|split]]].
  - intros Unmarshal h fs cwd fl Hlist. unfold main, buildConfig. rewrite Hlist. reflexivity.
  - intros Unmarshal h fs cwd fl Hlist H1 H2. unfold main, buildConfig, blank in *.
    rewrite Hlist. cbn [firstNonEmpty]. rewrite H1, H2. reflexivity.
  - intros Unmarshal h fs cwd fl c Hcfg. unfold main. rewrite Hcfg.
    destruct (buildConfig_cases fs cwd fl) as [[_ H]|[(_ & H & _)|(_ & c' & H & Hout)]];
      rewrite Hcfg in H; try discriminate.
    injection H as <-.
    destruct (run_starts Unmarshal h fs c Hout) as (rest & Hrun).
    destruct (run Unmarshal h fs c) as [l [e|]]; cbn [fst] in Hrun |- *; subst l;
      eexists; reflexivity.
  - intros Unmarshal h fs cwd [fl| |]; [|left; reflexivity | discriminate].
    unfold main. intros Hexit. right. exists fl. split; [reflexivity|]. revert Hexit.
    destruct (buildConfig_cases fs cwd fl) as [[H _]|[(_ & -> & _)|(_ & c & Hcfg & _)]];
      [left; exact H | discriminate|].
    rewrite Hcfg. destruct (run_shape Unmarshal h fs c) as (before & _ & Hshape).
    destruct (run Unmarshal h fs c) as [l [e|]]; cbn [fst snd] in *; [discriminate|].
    intros _. right. exists c.
    destruct Hshape as [[_ Hne]|(content & after & -> & _)]; [contradiction|].
    exists content. split; [reflexivity|]. apply in_or_app. right. left. reflexivity.
  - intros Unmarshal h fs cwd [fl| |]; [|contradiction | left; split; reflexivity].
    unfold main. intros Hexit. right. revert Hexit.
    destruct (buildConfig fs cwd fl) as [[c|] [e|]]; cbn [fst snd];
      try (intros _; split; [reflexivity|]; exists fl, [], e; split; reflexivity);
      try contradiction.
    destruct (run Unmarshal h fs c) as [l [e|]]; cbn [fst snd]; [|contradiction].
    intros _. split; [reflexivity|]. exists fl, l, e. split; reflexivity.
Qed.

Lemma X17_witness :
  main fullUnmarshal bareHost fullFS "/"
    (parsed
       {| inputDirFlag := ""; inputDirFlagS := " "; outputDirFlag := "/out";
          outputDirFlagS := "";
          rootFileFlag := ""; rootFileFlagS := ""; outputTS := ""; outputGo := "";
          redoclyOut := ""; bundleOut := ""; redoclyCfg := "";
          tsGen := "typescript-fetch"; goGen := "go"; joinOutput := false; allDo := true;
          validatePreset := "google"; skipValidation := false; validateStopOnError := false;
          listPresets := false |})
  = ([efPrintErr errMissingInput], 1).
Proof.
  apply (proj1 (proj2 (proj2 X17_exit_status))); reflexivity.
Defined.

(** ** The keys of the listed fragments *)

Lemma Join_absPath_elem l name :
  Forall (fun e => isElem e = true) l -> isElem name = true ->
  filepath.Join (absPath l) name = absPath (l ++ [name]).
Proof.
  intros Hl Hname. unfold filepath.Join. rewrite absPath_nonempty.
  pose proof (isElem_inv name Hname) as (-> & _).
  exact (Clean_absPath_app l [name] Hl ltac:(repeat constructor; exact Hname) ltac:(discriminate)).
Qed.

Lemma visible_path root path name d p name' f :
  visible root path name d p name' f ->
  forall l,
    properTree d -> Forall (fun e => isElem e = true) l -> path = absPath l ->
    (p = path /\ name' = name /\ f = d)
    \/ exists dirs file,
         Forall (fun e => isElem e = true) dirs /\ isElem file = true
         /\ p = absPath (l ++ dirs ++ [file]) /\ name' = file.
Proof.
  induction 1 as [path name d|path name entries name1 d1 p name' f Henter Hin Hvis IH];
    intros l Hproper Hl Hpath; [left; repeat split|]. right.
  inversion Hproper as [| | |entries' Hall]; subst.
  rewrite List.Forall_forall in Hall. destruct (Hall _ Hin) as [Hname Hsub]. cbn [fst snd] in *.
  destruct (IH (l ++ [name1]) Hsub) as [(-> & -> & _)|(dirs & file & Hdirs & Hfile & -> & ->)].
  - apply Forall_app. split; [exact Hl | repeat constructor; exact Hname].
  - apply Join_absPath_elem; assumption.
  - exists [], name1. split; [constructor|]. split; [exact Hname|].
    split; [apply Join_absPath_elem; assumption | reflexivity].
  - exists (name1 :: dirs), file. split; [constructor; assumption|]. split; [exact Hfile|].
    split; [rewrite <- app_assoc; reflexivity | reflexivity].
Qed.

(** X18: when the directory that is listed is a cleaned absolute path and
    the names in the tree below it are proper path elements, every listed
    fragment lies at that path followed by directories and a file name that
    ends in .yaml up to case; its path key is the slash-joined directories
    and camel-cased file name, so it is never empty: the run skips no listed
    fragment for want of a key. *)
Theorem X18_listed_fragments_have_keys :
  forall fs l d files err p,
    Forall (fun e => isElem e = true) l ->
    fsLookup fs (absPath l) = Some d -> properTree d ->
    listYAMLFiles fs (absPath l) = (files, err) ->
    In p files ->
    exists dirs file,
      Forall (fun e => isElem e = true) dirs /\ isElem file = true
      /\ yamlName file = true
      /\ p = absPath (l ++ dirs ++ [file])
      /\ buildPathKey (absPath l) p
         = "/" +:+ strings.Join (dirs ++ [kebabToCamel (strings.TrimSuffix file ".yaml")]) "/"
      /\ buildPathKey (absPath l) p <> "".
Proof.
  intros fs l d files err p Hl Hlook Hproper Hlist Hp.
  destruct (IsDir d) eqn:Hdir.
  2:{ unfold listYAMLFiles in Hlist. rewrite Hlook, Hdir in Hlist.
      injection Hlist as <- _. destruct Hp. }
  destruct (listYAMLFiles_walk fs _ d files err Hlook Hdir Hlist) as [Hfound _].
  destruct (Hfound p Hp) as (name' & f & Hvis & Hreg & Hyaml).
  destruct (visible_path _ _ _ _ _ _ _ Hvis l Hproper Hl eq_refl)
    as [(_ & _ & ->)|(dirs & file & Hdirs & Hfile & -> & ->)].
  { destruct d; discriminate. }
  exists dirs, file. repeat (split; [assumption || reflexivity|]).
  rewrite (buildPathKey_absPath l dirs file Hl Hdirs Hfile). split; [reflexivity | discriminate].
Qed.

Lemma X18_witness :
  exists dirs file,
    Forall (fun e => isElem e = true) dirs /\ isElem file = true
    /\ yamlName file = true
    /\ "/api/paths/v1/users.yaml" = absPath (["api"; "paths"] ++ dirs ++ [file])
    /\ buildPathKey (absPath ["api"; "paths"]) "/api/paths/v1/users.yaml"
       = "/" +:+ strings.Join (dirs ++ [kebabToCamel (strings.TrimSuffix file ".yaml")]) "/"
    /\ buildPathKey (absPath ["api"; "paths"]) "/api/paths/v1/users.yaml" <> "".
Proof.
  apply (X18_listed_fragments_have_keys (usersFS "get: {}" []) ["api"; "paths"] usersPaths
           ["/api/paths/v1/users.yaml"] None "/api/paths/v1/users.yaml").
  - repeat constructor.
  - reflexivity.
  - repeat (constructor; cbn [fst snd]; try reflexivity).
  - reflexivity.
  - left. reflexivity.
Defined.
